(** * cryptoManagerNew: signal parsing, order orchestration and reconciliation

    A shallow embedding of the Python back end
    ([app/services/telegram_parser.py], [binance_service.py],
    [trade_service.py], [telegram_listener.py]) and the properties of the
    parse -> execute -> reconcile pipeline proved about it.

    Modelling conventions.
    - A Python [str] is a list of Unicode code points ([str := list N]).
    - Python [float] values and SQL [Numeric] columns are exact rationals
      ([Q]); [round(x, n)] is round-half-even at [n] decimals.  Binary64
      rounding, NaN and infinities are outside the model, and so is the
      difference between a [float] and the [decimal.Decimal] a Numeric
      column is read back as.
    - The database is the committed state of the session; its operations
      do not fail.
    - The exchange is an oracle answering each request with a JSON value;
      every request sent is logged in the world.
    - Exceptions are values ([Raise]); [try ... except Exception] is
      [try_except]. *)

From Stdlib Require Import String Ascii.
From Stdlib Require Import ZArith NArith QArith Qround Qabs Qpower List Bool
  Lia Lqa Permutation.
Import ListNotations.

Set Implicit Arguments.
Set Warnings "-register-all".

Local Open Scope string_scope.
Local Open Scope list_scope.
Local Open Scope Q_scope.

(** ** Python strings *)

Definition str := list N.

Definition cp (s : string) : str :=
  map N_of_ascii (list_ascii_of_string s).

Fixpoint str_eqb (a b : str) : bool :=
  match a, b with
  | [], [] => true
  | x :: a', y :: b' => N.eqb x y && str_eqb a' b'
  | _, _ => false
  end.

(** [s.startswith(p)] *)
Fixpoint startswith (p s : str) : bool :=
  match p, s with
  | [], _ => true
  | x :: p', y :: s' => N.eqb x y && startswith p' s'
  | _ :: _, [] => false
  end.

(** [s.endswith(p)] *)
Definition endswith (p s : str) : bool :=
  startswith (rev p) (rev s).

(** [p in s] for two strings *)
Fixpoint str_in (p s : str) : bool :=
  startswith p s ||
  match s with
  | [] => false
  | _ :: s' => str_in p s'
  end.

(** [s[:-n]] for [n <= len(s)] *)
Definition drop_last (n : nat) (s : str) : str :=
  firstn (length s - n) s.

(** Code points for which [str.isspace()] holds: what [\s] matches in a
    [str] pattern. *)
Definition is_space (c : N) : bool :=
  ((9 <=? c) && (c <=? 13) || (28 <=? c) && (c <=? 32)
   || (c =? 133) || (c =? 160) || (c =? 5760)
   || (8192 <=? c) && (c <=? 8202)
   || (c =? 8232) || (c =? 8233) || (c =? 8239) || (c =? 8287)
   || (c =? 12288))%N.

(** The part of Python's Unicode database the code relies on and that is
    not written out here: [str.upper] and the decimal-digit table behind
    [\d], [float] and [Decimal]. *)
Class PyUnicode := {
  py_upper : str -> str;
  py_decimal : N -> option N
}.

(** [str.upper] on ASCII and Latin-1; code points above U+00FF are left
    unchanged (exact for those without a case mapping). *)
Definition upper_latin1_char (c : N) : str :=
  (if (97 <=? c) && (c <=? 122) then [c - 32]
   else if c =? 181 then [924]
   else if c =? 223 then [83; 83]
   else if c =? 255 then [376]
   else if (224 <=? c) && (c <=? 254) && negb (c =? 247) then [c - 32]
   else [c])%N.

Definition ascii_decimal (c : N) : option N :=
  (if (48 <=? c) && (c <=? 57) then Some (c - 48) else None)%N.

Definition latin1 : PyUnicode := {|
  py_upper := flat_map upper_latin1_char;
  py_decimal := ascii_decimal
|}.

(** ** Regular expressions

    The fragment of [re] the parser's patterns use, matched by
    backtracking in Python's order: alternatives left to right, greedy
    repetition, leftmost start. Every pattern has one capturing group.
    Where a pattern is quoted in a comment, a blank keeps a star apart from
    a closing parenthesis. *)

Inductive regex : Type :=
| Rchar (p : N -> bool)          (* one character: literal, class, \d, \s *)
| Rmany (p : N -> bool)          (* [p]* , greedy *)
| Rseq (r1 r2 : regex)
| Ralt (r1 r2 : regex)           (* r1|r2 *)
| Ropt (r : regex)               (* r? , greedy *)
| Rgroup (r : regex).            (* ( r ) , group 1 *)

Definition Rmany1 (p : N -> bool) : regex := Rseq (Rchar p) (Rmany p).

Section Matcher.
Variable A : Type.

(** Greedy [p*]: the longest run first, then shorter ones. *)
Fixpoint many (p : N -> bool) (s : str) (k : str -> option A) : option A :=
  match s with
  | c :: s' =>
      if p c then
        match many p s' k with
        | Some x => Some x
        | None => k s
        end
      else k s
  | [] => k s
  end.

(** [rmatch r s cap k]: match [r] at the head of [s], then continue with
    [k] on the rest; [cap] is the text of group 1 so far. *)
Fixpoint rmatch (r : regex) (s : str) (cap : option str)
         (k : str -> option str -> option A) : option A :=
  match r with
  | Rchar p =>
      match s with
      | c :: s' => if p c then k s' cap else None
      | [] => None
      end
  | Rmany p => many p s (fun s' => k s' cap)
  | Rseq r1 r2 => rmatch r1 s cap (fun s' cap' => rmatch r2 s' cap' k)
  | Ralt r1 r2 =>
      match rmatch r1 s cap k with
      | Some x => Some x
      | None => rmatch r2 s cap k
      end
  | Ropt r1 =>
      match rmatch r1 s cap k with
      | Some x => Some x
      | None => k s cap
      end
  | Rgroup r1 =>
      rmatch r1 s cap
        (fun s' _ => k s' (Some (firstn (length s - length s') s)))
  end.
End Matcher.

(** [re.search(r, s)]: [Some g] where [g] is [group(1)] of the leftmost
    match ([None] inside if the group did not take part). *)
Fixpoint re_search (r : regex) (s : str) : option (option str) :=
  match rmatch r s None (fun _ cap => Some cap) with
  | Some cap => Some cap
  | None =>
      match s with
      | [] => None
      | _ :: s' => re_search r s'
      end
  end.

Definition lit_char (c : N) : regex := Rchar (N.eqb c).

(** A literal string. *)
Fixpoint lit_list (l : str) : regex :=
  match l with
  | [] => Ropt (Rchar (fun _ => false))
  | [c] => lit_char c
  | c :: l' => Rseq (lit_char c) (lit_list l')
  end.

Definition lit (s : string) : regex := lit_list (cp s).

(** A character of a pattern compiled with [re.IGNORECASE]: [c] matches
    the pattern character [l] when their lower cases agree; [s] also
    matches U+017F, [k] U+212A, [i] U+0130 and U+0131. *)
Definition lower_latin1 (c : N) : N :=
  (if (65 <=? c) && (c <=? 90) then c + 32
   else if (192 <=? c) && (c <=? 222) && negb (c =? 215) then c + 32
   else c)%N.

Definition ci (l c : N) : bool :=
  let l' := lower_latin1 l in
  (N.eqb (lower_latin1 c) l'
   || (l' =? 115) && (c =? 383)
   || (l' =? 107) && (c =? 8490)
   || (l' =? 105) && ((c =? 304) || (c =? 305)))%N.

Fixpoint lit_ci_list (l : str) : regex :=
  match l with
  | [] => Ropt (Rchar (fun _ => false))
  | [c] => Rchar (ci c)
  | c :: l' => Rseq (Rchar (ci c)) (lit_ci_list l')
  end.

Definition lit_ci (s : string) : regex := lit_ci_list (cp s).

Definition in_range (lo hi : string) (c : N) : bool :=
  match cp lo, cp hi with
  | [a], [b] => ((a <=? c) && (c <=? b))%N
  | _, _ => false
  end.

(** ** Exceptions *)

Inductive exn : Type :=
| KeyError | TypeError | ValueError | AttributeError | IndexError
| ZeroDivisionError | InvalidOperation.

Inductive res (A : Type) : Type :=
| Ok (a : A)
| Raise (e : exn).
Arguments Ok {A} a.
Arguments Raise {A} e.

Definition res_bind {A B} (r : res A) (k : A -> res B) : res B :=
  match r with
  | Ok a => k a
  | Raise e => Raise e
  end.

Notation "'let?' x ':=' r 'in' k" := (res_bind r (fun x => k))
  (at level 10, x name, r at level 100, k at level 200).

(** ** Numbers *)

(** Round half to even, to an integer. *)
Definition round_half_even (q : Q) : Z :=
  let f := Qfloor q in
  match Qcompare (q - inject_Z f) (1 # 2) with
  | Lt => f
  | Gt => (f + 1)%Z
  | Eq => if Z.even f then f else (f + 1)%Z
  end.

(** [round(x, n)] for a float [x] and [n >= 0] digits. *)
Definition py_round (x : Q) (n : Z) : Q :=
  let s := (10 ^ n)%Z in
  Qred (round_half_even (x * inject_Z s) # Z.to_pos s).

Fixpoint strip_left (s : str) : str :=
  match s with
  | c :: s' => if is_space c then strip_left s' else s
  | [] => []
  end.

(** [s.strip()] *)
Definition strip (s : str) : str :=
  rev (strip_left (rev (strip_left s))).

(** A finite decimal as [Decimal.as_tuple()] shows it: sign, coefficient
    and exponent. *)
Record decimal : Type := {
  dec_neg : bool;
  dec_coeff : N;
  dec_exp : Z
}.

Definition decimal_value (d : decimal) : Q :=
  let c := Z.of_N (dec_coeff d) in
  Qred (inject_Z (if dec_neg d then - c else c) * (10 # 1) ^ dec_exp d).

Definition parse_sign (s : str) : bool * str :=
  match s with
  | 45%N :: s' => (true, s')
  | 43%N :: s' => (false, s')
  | _ => (false, s)
  end.

Definition digits_value (ds : list N) : N :=
  fold_left (fun acc d => (acc * 10 + d)%N) ds 0%N.

Section Numerals.
Context {U : PyUnicode}.

(** [\d] *)
Definition is_digit (c : N) : bool :=
  match py_decimal c with Some _ => true | None => false end.

(** The longest prefix of decimal digits (as digit values) and the rest. *)
Fixpoint span_digits (s : str) : list N * str :=
  match s with
  | c :: s' =>
      match py_decimal c with
      | Some d => let (ds, r) := span_digits s' in (d :: ds, r)
      | None => ([], s)
      end
  | [] => ([], [])
  end.

(** The numeric-string syntax shared by [float(s)] and [Decimal(s)]:
    optional sign, digits with an optional point, optional exponent,
    surrounding white space allowed.  Underscores and the special values
    (inf, nan) are not modelled: they give [None]. *)
Definition parse_decimal (s : str) : option decimal :=
  let (neg, s0) := parse_sign (strip s) in
  let (ip, s1) := span_digits s0 in
  let (fp, s2) :=
    match s1 with
    | 46%N :: t => span_digits t
    | _ => ([], s1)
    end in
  let frac := Z.of_nat (length fp) in
  match ip ++ fp with
  | [] => None
  | ds =>
      match s2 with
      | [] => Some {| dec_neg := neg; dec_coeff := digits_value ds;
                      dec_exp := - frac |}
      | e :: t =>
          if ((e =? 101) || (e =? 69))%N then
            let (eneg, t0) := parse_sign t in
            let (ed, t1) := span_digits t0 in
            match ed, t1 with
            | _ :: _, [] =>
                let ev := Z.of_N (digits_value ed) in
                Some {| dec_neg := neg; dec_coeff := digits_value ds;
                        dec_exp := (if eneg then - ev else ev) - frac |}
            | _, _ => None
            end
          else None
      end
  end.

(** [float(s)] for a string. *)
Definition float_of_str (s : str) : res Q :=
  match parse_decimal s with
  | Some d => Ok (decimal_value d)
  | None => Raise ValueError
  end.

(** [float(g)] for [g = match.group(1)], which is [None] when the group
    took no part in the match. *)
Definition float_of_group (g : option str) : res Q :=
  match g with
  | Some s => float_of_str s
  | None => Raise TypeError
  end.

(** [abs(Decimal(s).as_tuple().exponent)] *)
Definition decimal_precision (s : str) : res Z :=
  match parse_decimal s with
  | Some d => Ok (Z.abs (dec_exp d))
  | None => Raise InvalidOperation
  end.
End Numerals.

(** ** telegram_parser.py *)

Module ParsedSignalData.
Record t : Type := mk {
  pair : str;
  setup_type : str;            (* LONG or SHORT *)
  entry : Q;
  stop_loss : Q;
  take_profit : Q;
  original_sl : option Q;
  original_tp : option Q
}.
End ParsedSignalData.

(** The two indicator glyphs and the arrow, as the code points the source
    file holds. *)
Definition GREEN : str := [63743; 252; 252; 162]%N.
Definition RED : str := [63743; 252; 238; 165]%N.
Definition ARROW : str := [8218; 220; 237]%N.

Definition one_of (l : str) (c : N) : bool := existsb (N.eqb c) l.
Definition one_of_ci (l : str) (c : N) : bool := existsb (fun x => ci x c) l.

Module TelegramParser.
Record t : Type := mk {
  sl_percentage : Q;
  tp_percentage : Q
}.
End TelegramParser.

(** [TelegramParser()] *)
Definition default_parser : TelegramParser.t :=
  TelegramParser.mk 5 (5 # 2).

Section Parser.
Context {U : PyUnicode}.

(** [\d+\.?\d*] *)
Definition NUMBER : regex :=
  Rseq (Rmany1 is_digit) (Rseq (Ropt (lit ".")) (Rmany is_digit)).

(** [#?([A-Z0-9]+(?:USDT|BUSD|BTC|ETH)\.?P?)] *)
Definition PAIR_PATTERN : regex :=
  Rseq (Ropt (lit "#"))
    (Rgroup
       (Rseq (Rmany1 (fun c => in_range "A" "Z" c || in_range "0" "9" c))
       (Rseq (Ralt (lit "USDT") (Ralt (lit "BUSD") (Ralt (lit "BTC") (lit "ETH"))))
       (Rseq (Ropt (lit ".")) (Ropt (lit "P")))))).

(** [(LONG|SHORT)\s*[GR]?], with the code points of the two glyphs for GR *)
Definition DIRECTION_PATTERN : regex :=
  Rseq (Rgroup (Ralt (lit "LONG") (lit "SHORT")))
    (Rseq (Rmany is_space) (Ropt (Rchar (one_of (GREEN ++ RED))))).

(** [Entry[:\s]*\$?(\d+\.?\d* )], IGNORECASE *)
Definition ENTRY_PATTERN : regex :=
  Rseq (lit_ci "Entry")
    (Rseq (Rmany (fun c => one_of (cp ":") c || is_space c))
    (Rseq (Ropt (lit "$")) (Rgroup NUMBER))).

(** [(\d+\.?\d* )\s*\(?CMP\)?], IGNORECASE *)
Definition cmp_pattern : regex :=
  Rseq (Rgroup NUMBER)
    (Rseq (Rmany is_space)
    (Rseq (Ropt (lit "(")) (Rseq (lit_ci "CMP") (Ropt (lit ")"))))).

(** [(?:Stop\s*Loss|SL)[:\s]*\$?(\d+\.?\d* )], IGNORECASE *)
Definition STOP_LOSS_PATTERN : regex :=
  Rseq (Ralt (Rseq (lit_ci "Stop") (Rseq (Rmany is_space) (lit_ci "Loss")))
             (lit_ci "SL"))
    (Rseq (Rmany (fun c => one_of (cp ":") c || is_space c))
    (Rseq (Ropt (lit "$")) (Rgroup NUMBER))).

(** [(?:Take\s*Profit|TP|TP\s*\d)[:\sA]*\$?(\d+\.?\d* )], IGNORECASE,
    with the code points of the arrow for A *)
Definition TAKE_PROFIT_PATTERN : regex :=
  Rseq (Ralt (Rseq (lit_ci "Take") (Rseq (Rmany is_space) (lit_ci "Profit")))
       (Ralt (lit_ci "TP")
             (Rseq (lit_ci "TP") (Rseq (Rmany is_space) (Rchar is_digit)))))
    (Rseq (Rmany (fun c => one_of (cp ":") c || is_space c || one_of_ci ARROW c))
    (Rseq (Ropt (lit "$")) (Rgroup NUMBER))).

Definition _extract_pair (message : str) : option str :=
  match re_search PAIR_PATTERN (py_upper message) with
  | Some (Some p) =>
      if endswith (cp ".P") p then Some (drop_last 2 p)
      else if endswith (cp "P") p && negb (endswith (cp "USDT") p)
           then Some (drop_last 1 p)
           else Some p
  | Some None => None
  | None => None
  end.

Definition _extract_direction (message : str) : option str :=
  match re_search DIRECTION_PATTERN (py_upper message) with
  | Some g => g
  | None =>
      if str_in GREEN message && negb (str_in (cp "LONG") (py_upper message))
      then Some (cp "LONG")
      else if str_in RED message && negb (str_in (cp "SHORT") (py_upper message))
      then Some (cp "SHORT")
      else None
  end.

Definition _extract_entry (message : str) : res (option Q) :=
  match re_search ENTRY_PATTERN message with
  | Some g => let? x := float_of_group g in Ok (Some x)
  | None =>
      match re_search cmp_pattern message with
      | Some g => let? x := float_of_group g in Ok (Some x)
      | None => Ok None
      end
  end.

Definition _extract_stop_loss (message : str) : res (option Q) :=
  match re_search STOP_LOSS_PATTERN message with
  | Some g => let? x := float_of_group g in Ok (Some x)
  | None => Ok None
  end.

(** [re.findall(...)[0]] is group 1 of the leftmost match. *)
Definition _extract_take_profit (message : str) : res (option Q) :=
  match re_search TAKE_PROFIT_PATTERN message with
  | Some g => let? x := float_of_group g in Ok (Some x)
  | None => Ok None
  end.

Definition _calculate_sl_tp (self : TelegramParser.t) (entry : Q)
           (direction : str) : Q * Q :=
  let sl_multiplier := TelegramParser.sl_percentage self / 100 in
  let tp_multiplier := TelegramParser.tp_percentage self / 100 in
  if str_eqb direction (cp "LONG") then
    (py_round (entry * (1 - sl_multiplier)) 8,
     py_round (entry * (1 + tp_multiplier)) 8)
  else
    (py_round (entry * (1 + sl_multiplier)) 8,
     py_round (entry * (1 - tp_multiplier)) 8).

(** The body of [parse_message]'s [try] block. *)
Definition parse_message_body (self : TelegramParser.t) (message : str)
  : res (option ParsedSignalData.t) :=
  match _extract_pair message with
  | None | Some [] => Ok None
  | Some p =>
      match _extract_direction message with
      | None | Some [] => Ok None
      | Some direction =>
          let? e := _extract_entry message in
          match e with
          | None => Ok None
          | Some entry =>
              if Qeq_bool entry 0 then Ok None
              else
                let? original_sl := _extract_stop_loss message in
                let? original_tp := _extract_take_profit message in
                let (stop_loss, take_profit) :=
                  _calculate_sl_tp self entry direction in
                Ok (Some (ParsedSignalData.mk p direction entry
                            stop_loss take_profit original_sl original_tp))
          end
      end
  end.

Definition parse_message (self : TelegramParser.t) (message : str)
  : option ParsedSignalData.t :=
  match parse_message_body self message with
  | Ok r => r
  | Raise _ => None
  end.
End Parser.

Definition example_message : str :=
  cp "#BTCUSDT LONG" ++ [10%N] ++ cp "Entry: 42000" ++ [10%N]
  ++ cp "TP: 43000" ++ [10%N] ++ cp "SL: 41000".


(** Both glyphs and no keyword. *)
Definition both_glyphs_message : str :=
  cp "#BTCUSDT " ++ GREEN ++ cp " " ++ RED ++ [10%N] ++ cp "Entry: 42000".

(** ** JSON values and the Python operations applied to them

    The exchange's answers are parsed JSON: [None], booleans, integers,
    strings, lists and dicts (association lists, first binding wins).
    The exchange sends decimal quantities as strings; JSON float literals
    are not modelled. *)

Inductive json : Type :=
| JNull
| JBool (b : bool)
| JInt (z : Z)
| JStr (s : str)
| JList (l : list json)
| JDict (d : list (str * json)).

Fixpoint assoc (k : str) (d : list (str * json)) : option json :=
  match d with
  | [] => None
  | (k', v) :: d' => if str_eqb k k' then Some v else assoc k d'
  end.

(** [j.get(k)], with [None] for a missing key kept apart from a value *)
Definition get_opt (j : json) (k : string) : res (option json) :=
  match j with
  | JDict d => Ok (assoc (cp k) d)
  | _ => Raise AttributeError
  end.

(** [j.get(k, default)] *)
Definition get (j : json) (k : string) (default : json) : res json :=
  let? o := get_opt j k in
  match o with
  | Some v => Ok v
  | None => Ok default
  end.

(** [j[k]] for a string key *)
Definition getitem (j : json) (k : string) : res json :=
  match j with
  | JDict d =>
      match assoc (cp k) d with
      | Some v => Ok v
      | None => Raise KeyError
      end
  | _ => Raise TypeError
  end.

(** [j[0]] *)
Definition getitem0 (j : json) : res json :=
  match j with
  | JList (x :: _) => Ok x
  | JList [] => Raise IndexError
  | JStr (c :: _) => Ok (JStr [c])
  | JStr [] => Raise IndexError
  | JDict _ => Raise KeyError
  | _ => Raise TypeError
  end.

(** [j == s] for a string [s] *)
Definition eq_str (j : json) (s : str) : bool :=
  match j with
  | JStr s' => str_eqb s' s
  | _ => false
  end.

(** [j == z] for an integer [z] *)
Definition eq_int (j : json) (z : Z) : bool :=
  match j with
  | JInt z' => Z.eqb z' z
  | JBool b => Z.eqb (if b then 1 else 0) z
  | _ => false
  end.

(** [k in j] for a string [k] *)
Definition contains (k : string) (j : json) : res bool :=
  match j with
  | JDict d => Ok (match assoc (cp k) d with Some _ => true | None => false end)
  | JList l => Ok (existsb (fun x => eq_str x (cp k)) l)
  | JStr s => Ok (str_in (cp k) s)
  | _ => Raise TypeError
  end.

(** The values [for x in j] goes through. *)
Definition iter (j : json) : res (list json) :=
  match j with
  | JList l => Ok l
  | JDict d => Ok (map (fun kv => JStr (fst kv)) d)
  | JStr s => Ok (map (fun c => JStr [c]) s)
  | _ => Raise TypeError
  end.

(** [len(j)] *)
Definition len (j : json) : res Z :=
  match j with
  | JList l => Ok (Z.of_nat (length l))
  | JDict d => Ok (Z.of_nat (length d))
  | JStr s => Ok (Z.of_nat (length s))
  | _ => Raise TypeError
  end.

(** The truth value of [j] in a condition. *)
Definition truthy (j : json) : bool :=
  match j with
  | JNull => false
  | JBool b => b
  | JInt z => negb (Z.eqb z 0)
  | JStr s => match s with [] => false | _ => true end
  | JList l => match l with [] => false | _ => true end
  | JDict d => match d with [] => false | _ => true end
  end.

(** The truth value of an optional float: [None] and zero are false. *)
Definition truthy_float (o : option Q) : bool :=
  match o with
  | Some q => negb (Qeq_bool q 0)
  | None => false
  end.

Section JsonNumbers.
Context {U : PyUnicode}.

(** [float(j)] *)
Definition float (j : json) : res Q :=
  match j with
  | JInt z => Ok (inject_Z z)
  | JBool b => Ok (if b then 1 else 0)
  | JStr s => float_of_str s
  | _ => Raise TypeError
  end.

(** [int(s)] for a string: an optionally signed run of digits. *)
Definition int_of_str (s : str) : res Z :=
  let (neg, s0) := parse_sign (strip s) in
  match span_digits s0 with
  | ((_ :: _) as ds, []) =>
      let v := Z.of_N (digits_value ds) in
      Ok (if neg then (- v)%Z else v)
  | _ => Raise ValueError
  end.

(** [int(j)] *)
Definition int (j : json) : res Z :=
  match j with
  | JInt z => Ok z
  | JBool b => Ok (if b then 1%Z else 0%Z)
  | JStr s => int_of_str s
  | _ => Raise TypeError
  end.

(** [j.upper()] *)
Definition upper (j : json) : res str :=
  match j with
  | JStr s => Ok (py_upper s)
  | _ => Raise AttributeError
  end.

(** [abs(Decimal(j).as_tuple().exponent)] *)
Definition precision_of (j : json) : res Z :=
  match j with
  | JStr s => decimal_precision s
  | JInt _ => Ok 0%Z
  | JBool _ => Ok 0%Z
  | _ => Raise TypeError
  end.
End JsonNumbers.

(** ** Messages

    The texts built with f-strings are kept as their parts: literals and
    the values interpolated into them. *)

Inductive fstring : Type :=
| Lit (s : string)
| Str (s : str)
| Json (j : json)                 (* a value taken from a response *)
| Exn (e : exn)                   (* str(e) *)
| Num (q : Q) (spec : string)     (* a float, with its format *)
| Int (z : Z)
| NoneText                        (* a None interpolated into the text *)
| Cat (parts : list fstring).

(** [f"{x:.2f}"] *)
Definition fmt2 (x : option Q) : res fstring :=
  match x with
  | Some q => Ok (Num q ".2f")
  | None => Raise TypeError
  end.

(** ** binance_service.py: data classes *)

Module OrderResult.
Record t : Type := mk {
  success : bool;
  order_id : option json;       (* the value whose str() is kept *)
  client_order_id : option json;
  symbol : option json;
  side : option json;
  quantity : option Q;
  price : option Q;
  status : option json;
  message : option fstring;
  raw_response : option json
}.

(** [OrderResult(success=False, message=m, raw_response=r)] *)
Definition failed (m : fstring) (r : option json) : t :=
  mk false None None None None None None None (Some m) r.
End OrderResult.

Module PositionInfo.
Record t : Type := mk {
  symbol : json;
  side : str;                   (* LONG or SHORT *)
  entry_price : Q;
  quantity : Q;
  unrealized_pnl : Q;
  leverage : Z;
  margin : Q;
  margin_type : str;            (* CROSSED or ISOLATED *)
  liquidation_price : option Q;
  mark_price : option Q;
  notional_value : option Q
}.
End PositionInfo.

(** The [results] dict of [open_position]. *)
Module OpenResult.
Record t : Type := mk {
  success : bool;
  entry_order : option OrderResult.t;
  sl_order : option OrderResult.t;
  tp_order : option OrderResult.t;
  message : fstring
}.
End OpenResult.

(** ** database_models.py *)

Module MarketMessage.
Record t : Type := mk {
  id : Z;
  sender : option str;
  text : str;
  timestamp : nat
}.
End MarketMessage.

Module SignalMessage.
Record t : Type := mk {
  id : Z;
  pair : str;
  setup_type : str;
  entry : Q;
  stop_loss : Q;
  take_profit : Q;
  timestamp : nat;
  full_message : str;
  channel : option str
}.
End SignalMessage.

Module Trade.
Record t : Type := mk {
  id : Z;
  user_id : Z;
  signal_id : option Z;
  pair : str;
  side : str;
  leverage : Z;
  entry_price : option Q;
  entry_quantity : option Q;
  stop_loss : option Q;
  take_profit : option Q;
  tp : option Q;
  status : str;                 (* PENDING, OPEN, CLOSED, CANCELLED *)
  binance_order_id : option json;
  opened_at : option nat;
  closed_at : option nat;
  exit_price : option Q;
  pnl : option Q;
  pnl_percent : option Q;
  exit_reason : option str;     (* TP_HIT, SL_HIT, MANUAL, LIQUIDATION *)
  created_at : nat
}.
End Trade.

Module TradeManagementConfig.
Record t : Type := mk {
  id : Z;
  user_id : Z;
  margin_mode : str;
  max_leverage : Q;
  max_position_size : Q;
  sl_percentage : Q;
  tp_percentage : Q;
  auto_execute_trades : bool
}.
End TradeManagementConfig.

(** config.py: the settings the services read. *)
Module Settings.
Record t : Type := mk {
  default_leverage : Z;
  default_position_size : Q;
  default_sl_percentage : Q;
  default_tp_percentage : Q;
  default_margin_mode : str;
  auto_execute_trades : bool
}.
End Settings.

Definition default_settings : Settings.t :=
  Settings.mk 20 50 5 (5 # 2) (cp "CROSSED") true.

(** The tables of the session, committed state. *)
Module Database.
Record t : Type := mk {
  market_messages : list MarketMessage.t;
  signal_messages : list SignalMessage.t;
  trades : list Trade.t;
  trade_management_config : list TradeManagementConfig.t
}.
Definition empty : t := mk [] [] [] [].
End Database.

(** ** The world: exchange, clock, settings and database *)

Inductive pval : Type :=
| PStr (s : str)
| PInt (z : Z)
| PFloat (q : Q).

Module Request.
Record t : Type := mk {
  method : string;
  endpoint : string;
  params : list (string * pval);
  signed : bool
}.
End Request.

Module World.
Record t : Type := mk {
  exchange : nat -> Request.t -> json;   (* answer to the n-th request *)
  sent : list Request.t;                 (* requests so far, oldest first *)
  clock : nat;
  settings : Settings.t;
  db : Database.t
}.
End World.

Definition M (A : Type) : Type := World.t -> res A * World.t.

Definition ret {A} (a : A) : M A := fun w => (Ok a, w).

Definition bind {A B} (m : M A) (k : A -> M B) : M B :=
  fun w =>
    match m w with
    | (Ok a, w') => k a w'
    | (Raise e, w') => (Raise e, w')
    end.

Definition lift {A} (r : res A) : M A := fun w => (r, w).

(** [try: m except Exception as e: h e] *)
Definition try_except {A} (m : M A) (h : exn -> M A) : M A :=
  fun w =>
    match m w with
    | (Ok a, w') => (Ok a, w')
    | (Raise e, w') => h e w'
    end.

Notation "x <- m ;; k" := (bind m (fun x => k))
  (at level 61, m at next level, right associativity).
Notation "m ;;; k" := (bind m (fun _ => k))
  (at level 61, right associativity).

(** [datetime.utcnow()]: each reading is later than the one before. *)
Definition utcnow : M nat :=
  fun w =>
    (Ok (World.clock w),
     World.mk (World.exchange w) (World.sent w) (S (World.clock w))
       (World.settings w) (World.db w)).

Definition get_db : M Database.t := fun w => (Ok (World.db w), w).

Definition put_db (d : Database.t) : M unit :=
  fun w =>
    (Ok tt,
     World.mk (World.exchange w) (World.sent w) (World.clock w)
       (World.settings w) d).

Definition get_settings : M Settings.t := fun w => (Ok (World.settings w), w).

(** ** binance_service.py *)

Definition Qlt_bool (x y : Q) : bool := negb (Qle_bool y x).

(** [int(x)] for a float: truncation towards zero. *)
Definition Qtruncate (x : Q) : Z :=
  let (n, d) := x in Z.quot n (Zpos d).

(** [_make_request]: the request is sent and the parsed answer returned;
    transport errors come back as error documents, not as exceptions.
    The timestamp, receive window and signature added to a signed request
    are not part of the logged parameters. *)
Definition _make_request (method endpoint : string)
           (params : list (string * pval)) (signed : bool) : M json :=
  fun w =>
    if (String.eqb method "GET" || String.eqb method "POST"
        || String.eqb method "DELETE")%bool
    then
      let r := Request.mk method endpoint params signed in
      (Ok (World.exchange w (length (World.sent w)) r),
       World.mk (World.exchange w) (World.sent w ++ [r]) (World.clock w)
         (World.settings w) (World.db w))
    else (Raise ValueError, w).

(** The requests that place an order. *)
Definition is_order (r : Request.t) : bool :=
  String.eqb (Request.method r) "POST"
  && (String.eqb (Request.endpoint r) "/fapi/v1/order"
      || String.eqb (Request.endpoint r) "/fapi/v1/algoOrder").

Definition orders_placed (w : World.t) : list Request.t :=
  filter is_order (World.sent w).

(** The requests that cancel orders. *)
Definition is_cancel (r : Request.t) : bool :=
  String.eqb (Request.method r) "DELETE".

Section BinanceService.
Context {U : PyUnicode}.

(** One element of the position list: [None] for a zero quantity. *)
Definition position_of (pos : json) : res (option PositionInfo.t) :=
  let? amt := get pos "positionAmt" (JInt 0) in
  let? qty := float amt in
  if negb (Qeq_bool qty 0) then
    let? symbol := getitem pos "symbol" in
    let? entry_price := (let? v := get pos "entryPrice" (JInt 0) in float v) in
    let? unrealized_pnl := (let? v := get pos "unRealizedProfit" (JInt 0) in float v) in
    let? leverage := (let? v := get pos "leverage" (JInt 1) in int v) in
    let? mt := get pos "marginType" JNull in
    let? margin :=
      (if eq_str mt (cp "isolated") then
         let? v := get pos "isolatedMargin" (JInt 0) in float v
       else
         let? n := (let? v := get pos "notional" (JInt 0) in float v) in
         let? l := (let? v := get pos "leverage" (JInt 1) in int v) in
         if Z.eqb l 0 then Raise ZeroDivisionError
         else Ok (n / inject_Z l)) in
    let? margin_type := (let? v := get pos "marginType" (JStr []) in upper v) in
    let? liq := (let? v := get pos "liquidationPrice" (JInt 0) in float v) in
    let? mark_price := (let? v := get pos "markPrice" (JInt 0) in float v) in
    let? notional := (let? v := get pos "notional" (JInt 0) in float v) in
    Ok (Some (PositionInfo.mk symbol
                (if Qlt_bool 0 qty then cp "LONG" else cp "SHORT")
                entry_price (Qabs qty) unrealized_pnl leverage margin
                margin_type
                (if Qlt_bool 0 liq then Some liq else None)
                (Some mark_price) (Some (Qabs notional))))
  else Ok None.

Fixpoint collect_positions (items : list json) : res (list PositionInfo.t) :=
  match items with
  | [] => Ok []
  | pos :: rest =>
      let? p := position_of pos in
      let? ps := collect_positions rest in
      Ok (match p with Some x => x :: ps | None => ps end)
  end.

Definition get_positions : M (list PositionInfo.t) :=
  try_except
    (response <- _make_request "GET" "/fapi/v2/positionRisk" [] true ;;
     lift (let? items := iter response in collect_positions items))
    (fun _ => ret []).

Definition get_position_for_symbol (symbol : str) : M (option PositionInfo.t) :=
  positions <- get_positions ;;
  ret (find (fun pos => eq_str (PositionInfo.symbol pos) symbol) positions).

(** The loop of [get_max_leverage] over the bracket list. *)
Fixpoint first_bracket_leverage (symbol : str) (items : list json) : res Z :=
  match items with
  | [] => Ok 20%Z
  | item :: rest =>
      let? s := get item "symbol" JNull in
      if eq_str s symbol then
        let? brackets := get item "brackets" (JList []) in
        let? nonempty :=
          (if truthy brackets
           then let? n := len brackets in Ok (0 <? n)%Z
           else Ok false) in
        if nonempty then
          let? b := getitem0 brackets in
          let? v := get b "initialLeverage" (JInt 20) in
          int v
        else first_bracket_leverage symbol rest
      else first_bracket_leverage symbol rest
  end.

Definition get_max_leverage (symbol : str) : M Z :=
  try_except
    (response <- _make_request "GET" "/fapi/v1/leverageBracket"
                   [("symbol", PStr symbol)] true ;;
     lift (let? nonempty :=
             (if truthy response
              then let? n := len response in Ok (0 <? n)%Z
              else Ok false) in
           if nonempty then
             let? items := iter response in
             first_bracket_leverage symbol items
           else Ok 20%Z))
    (fun _ => ret 20%Z).

Definition set_leverage (symbol : str) (leverage : Z) : M bool :=
  try_except
    (max_leverage <- get_max_leverage symbol ;;
     let leverage := if (max_leverage <? leverage)%Z then max_leverage else leverage in
     response <- _make_request "POST" "/fapi/v1/leverage"
                   [("symbol", PStr symbol); ("leverage", PInt leverage)] true ;;
     lift (contains "leverage" response))
    (fun _ => ret false).

(** The handler of [set_margin_type] inspects the exception text;
    [_make_request] raises nothing for a POST, so it is never entered. *)
Definition set_margin_type (symbol margin_type : str) : M bool :=
  try_except
    (_make_request "POST" "/fapi/v1/marginType"
       [("symbol", PStr symbol); ("marginType", PStr margin_type)] true ;;;
     ret true)
    (fun _ => ret false).

Fixpoint find_symbol (symbol : str) (items : list json) : res (option json) :=
  match items with
  | [] => Ok None
  | s :: rest =>
      let? name := getitem s "symbol" in
      if eq_str name symbol then Ok (Some s) else find_symbol symbol rest
  end.

Definition get_symbol_info (symbol : str) : M (option json) :=
  try_except
    (response <- _make_request "GET" "/fapi/v1/exchangeInfo" [] false ;;
     lift (let? symbols := get response "symbols" (JList []) in
           let? items := iter symbols in
           find_symbol symbol items))
    (fun _ => ret None).

Definition get_current_price (symbol : str) : M (option Q) :=
  try_except
    (response <- _make_request "GET" "/fapi/v1/ticker/price"
                   [("symbol", PStr symbol)] false ;;
     lift (let? v := get response "price" (JInt 0) in
           let? p := float v in
           Ok (Some p)))
    (fun _ => ret None).

(** [if symbol_info:] *)
Definition truthy_info (o : option json) : bool :=
  match o with
  | Some j => truthy j
  | None => false
  end.

Fixpoint find_min_notional (filters : list json) : res Q :=
  match filters with
  | [] => Ok 5
  | f :: rest =>
      let? ft := getitem f "filterType" in
      if eq_str ft (cp "MIN_NOTIONAL") then
        let? o := get_opt f "notional" in
        match o with
        | Some v => float v
        | None => Ok 5
        end
      else find_min_notional rest
  end.

Definition get_min_notional (symbol : str) : M Q :=
  try_except
    (symbol_info <- get_symbol_info symbol ;;
     match symbol_info with
     | Some info =>
         if truthy info then
           lift (let? fs := get info "filters" (JList []) in
                 let? items := iter fs in
                 find_min_notional items)
         else ret 5
     | None => ret 5
     end)
    (fun _ => ret 5).

(** The filter loops: the precision of the first filter of type [ftype],
    read from the string in [field]; [default] when there is none. *)
Fixpoint find_precision (ftype field : string) (default : Z)
         (filters : list json) : res Z :=
  match filters with
  | [] => Ok default
  | f :: rest =>
      let? ft := getitem f "filterType" in
      if eq_str ft (cp ftype) then
        let? v := getitem f field in
        precision_of v
      else find_precision ftype field default rest
  end.

Definition filters_of (info : json) : res (list json) :=
  let? fs := get info "filters" (JList []) in iter fs.

Definition calculate_quantity (symbol : str) (position_size_usd : Q)
           (leverage : Z) (entry_price : option Q) : M (option Q) :=
  try_except
    (price <- (if truthy_float entry_price then ret entry_price
               else get_current_price symbol) ;;
     match price with
     | None => ret None
     | Some price =>
         if Qeq_bool price 0 then ret None
         else
           symbol_info <- get_symbol_info symbol ;;
           match symbol_info with
           | None => ret None
           | Some info =>
               if negb (truthy info) then ret None
               else
                 let notional_value := position_size_usd * inject_Z leverage in
                 let quantity := notional_value / price in
                 quantity_precision <-
                   lift (let? fs := filters_of info in
                         find_precision "LOT_SIZE" "stepSize" 3 fs) ;;
                 ret (Some (py_round quantity quantity_precision))
           end
     end)
    (fun _ => ret None).

(** The price precision the three order functions compute. *)
Definition price_precision (symbol_info : option json) : res Z :=
  match symbol_info with
  | Some info =>
      if truthy info then
        let? fs := filters_of info in
        find_precision "PRICE_FILTER" "tickSize" 2 fs
      else Ok 2%Z
  | None => Ok 2%Z
  end.

(** The [OrderResult] read off the answer to an order request. *)
Definition order_result (response : json) (price_of : json -> res Q)
  : res OrderResult.t :=
  let? has := contains "orderId" response in
  if has then
    let? order_id := getitem response "orderId" in
    let? client_order_id := get response "clientOrderId" JNull in
    let? symbol := getitem response "symbol" in
    let? side := getitem response "side" in
    let? quantity := (let? v := getitem response "origQty" in float v) in
    let? price := price_of response in
    let? status := getitem response "status" in
    Ok (OrderResult.mk true (Some order_id) (Some client_order_id)
          (Some symbol) (Some side) (Some quantity) (Some price)
          (Some status) None (Some response))
  else
    let? msg := get response "msg" (JStr (cp "Unknown error")) in
    Ok (OrderResult.failed (Json msg) (Some response)).

Definition reduce_only_param (reduce_only : bool) : list (string * pval) :=
  if reduce_only then [("reduceOnly", PStr (cp "true"))] else [].

Definition place_market_order (symbol side : str) (quantity : Q)
           (reduce_only : bool) : M OrderResult.t :=
  try_except
    (let params :=
       [("symbol", PStr symbol); ("side", PStr side);
        ("type", PStr (cp "MARKET")); ("quantity", PFloat quantity)]
       ++ reduce_only_param reduce_only in
     response <- _make_request "POST" "/fapi/v1/order" params true ;;
     lift (order_result response
             (fun r => let? v := get r "avgPrice" (JInt 0) in float v)))
    (fun e => ret (OrderResult.failed (Exn e) None)).

Definition place_limit_order (symbol side : str) (quantity price : Q)
           (time_in_force : str) (reduce_only : bool) : M OrderResult.t :=
  try_except
    (symbol_info <- get_symbol_info symbol ;;
     precision <- lift (price_precision symbol_info) ;;
     let formatted_price := py_round price precision in
     let params :=
       [("symbol", PStr symbol); ("side", PStr side);
        ("type", PStr (cp "LIMIT")); ("quantity", PFloat quantity);
        ("price", PFloat formatted_price);
        ("timeInForce", PStr time_in_force)]
       ++ reduce_only_param reduce_only in
     response <- _make_request "POST" "/fapi/v1/order" params true ;;
     lift (order_result response
             (fun r => let? o := get_opt r "price" in
                       match o with
                       | Some v => float v
                       | None => Ok formatted_price
                       end)))
    (fun e => ret (OrderResult.failed (Exn e) None)).
(** The two conditional orders differ in the order type and in how a
    rejection is reported. *)
Definition algo_params (symbol side : str) (type : string)
           (trigger quantity : Q) : list (string * pval) :=
  [("algoType", PStr (cp "CONDITIONAL")); ("symbol", PStr symbol);
   ("side", PStr side); ("type", PStr (cp type));
   ("triggerPrice", PFloat trigger); ("quantity", PFloat quantity);
   ("workingType", PStr (cp "MARK_PRICE"))]
  ++ (if Qlt_bool (quantity * trigger) 5
      then [("reduceOnly", PStr (cp "true"))] else []).

Definition algo_placed (response : json) (symbol side : str)
           (quantity price : Q) : res OrderResult.t :=
  let? id := getitem response "algoId" in
  Ok (OrderResult.mk true (Some id) None (Some (JStr symbol))
        (Some (JStr side)) (Some quantity) (Some price)
        (Some (JStr (cp "NEW"))) None (Some response)).

(** [quantity * stop_price] with [quantity] possibly [None] *)
Definition some_float (quantity : option Q) : res Q :=
  match quantity with
  | Some q => Ok q
  | None => Raise TypeError
  end.

Definition place_stop_loss (symbol side : str) (stop_price : Q)
           (quantity : option Q) : M OrderResult.t :=
  try_except
    (symbol_info <- get_symbol_info symbol ;;
     precision <- lift (price_precision symbol_info) ;;
     let stop_price := py_round stop_price precision in
     quantity <- lift (some_float quantity) ;;
     let params := algo_params symbol side "STOP_MARKET" stop_price quantity in
     response <- _make_request "POST" "/fapi/v1/algoOrder" params true ;;
     lift (let? has := contains "algoId" response in
           if has then algo_placed response symbol side quantity stop_price
           else
             let? msg := get response "msg" (JStr (cp "Unknown error")) in
             Ok (OrderResult.failed (Json msg) (Some response))))
    (fun e => ret (OrderResult.failed (Exn e) None)).

Definition place_take_profit (symbol side : str) (take_profit_price : Q)
           (quantity : option Q) : M OrderResult.t :=
  try_except
    (symbol_info <- get_symbol_info symbol ;;
     precision <- lift (price_precision symbol_info) ;;
     let take_profit_price := py_round take_profit_price precision in
     quantity <- lift (some_float quantity) ;;
     let params :=
       algo_params symbol side "TAKE_PROFIT_MARKET" take_profit_price quantity in
     response <- _make_request "POST" "/fapi/v1/algoOrder" params true ;;
     lift (let? has := contains "algoId" response in
           if has then
             algo_placed response symbol side quantity take_profit_price
           else
             let? error_code := get response "code" JNull in
             let? error_msg := get response "msg" (JStr (cp "Unknown error")) in
             if eq_int error_code (-2021) then
               Ok (OrderResult.failed
                     (Cat [Lit "TP skipped: Market moved past target price (";
                           Json error_msg; Lit ")"])
                     (Some response))
             else Ok (OrderResult.failed (Json error_msg) (Some response))))
    (fun e => ret (OrderResult.failed (Exn e) None)).

(** The text of an optional message interpolated into an f-string. *)
Definition opt_text (m : option fstring) : fstring :=
  match m with
  | Some t => t
  | None => NoneText
  end.

(** Steps 4 to 6 of [open_position]: the entry order, then the two
    protective orders. [results] holds the entry order from the moment
    it is answered. *)
Definition place_orders (symbol side : str) (quantity entry_price
           stop_loss take_profit : Q) (time_in_force : str)
  : M OpenResult.t :=
  let entry_side := if str_eqb side (cp "LONG") then cp "BUY" else cp "SELL" in
  entry_result <- place_limit_order symbol entry_side quantity entry_price
                    time_in_force false ;;
  if negb (OrderResult.success entry_result) then
    ret (OpenResult.mk false (Some entry_result) None None
           (Cat [Lit "Entry order failed: ";
                 opt_text (OrderResult.message entry_result)]))
  else
    let order_quantity := OrderResult.quantity entry_result in
    let sl_side := if str_eqb side (cp "LONG") then cp "SELL" else cp "BUY" in
    sl_result <- place_stop_loss symbol sl_side stop_loss order_quantity ;;
    tp_result <- place_take_profit symbol sl_side take_profit order_quantity ;;
    ret (OpenResult.mk true (Some entry_result) (Some sl_result)
           (Some tp_result)
           (Lit "Limit order placed successfully with SL/TP")).

(** Steps 1 to 3.5 of [open_position], then the orders. *)
Definition prepare_and_place (symbol side : str) (position_size_usd : Q)
           (leverage : Z) (margin_type : str)
           (entry_price stop_loss take_profit : Q) (time_in_force : str)
  : M OpenResult.t :=
  let results := OpenResult.mk false None None None in
  leverage_set <- set_leverage symbol leverage ;;
  if negb leverage_set then ret (results (Lit "Failed to set leverage"))
  else
    set_margin_type symbol margin_type ;;;
    quantity <- calculate_quantity symbol position_size_usd leverage
                  (Some entry_price) ;;
    match quantity with
    | None => ret (results (Lit "Failed to calculate quantity"))
    | Some quantity =>
        if Qeq_bool quantity 0
        then ret (results (Lit "Failed to calculate quantity"))
        else
          let entry_notional := quantity * entry_price in
          base_min_notional <- get_min_notional symbol ;;
          let MIN_NOTIONAL := base_min_notional + (1 # 10) in
          if Qle_bool entry_notional MIN_NOTIONAL then
            if Z.eqb leverage 0 then lift (Raise ZeroDivisionError)
            else
              let min_position_size :=
                MIN_NOTIONAL / inject_Z leverage + (1 # 100) in
              if Qeq_bool position_size_usd 0
              then lift (Raise ZeroDivisionError)
              else
                let min_leverage :=
                  Qtruncate (MIN_NOTIONAL / position_size_usd + 1) in
                ret (results
                       (Cat [Lit "Order rejected: Notional value $";
                             Num entry_notional ".2f";
                             Lit " is at or below minimum $";
                             Num MIN_NOTIONAL ".2f";
                             Lit ". Current settings: Margin=$";
                             Num position_size_usd "";
                             Lit ", Leverage="; Int leverage;
                             Lit "x, Entry=$"; Num entry_price "";
                             Lit ". To fix: Increase position size to at least $";
                             Num min_position_size ".2f";
                             Lit " OR increase leverage to at least ";
                             Int min_leverage; Lit "x."]))
          else
            place_orders symbol side quantity entry_price stop_loss
              take_profit time_in_force
    end.

(** [open_position]. Once the entry order is answered nothing in the
    remaining steps raises ([place_stop_loss] and [place_take_profit]
    handle their own exceptions), so the handler only ever sees the
    initial [results]. *)
Definition open_position (symbol side : str) (position_size_usd : Q)
           (leverage : Z) (margin_type : str)
           (entry_price stop_loss take_profit : Q) (time_in_force : str)
  : M OpenResult.t :=
  let results := OpenResult.mk false None None None in
  let proceed :=
    prepare_and_place symbol side position_size_usd leverage margin_type
      entry_price stop_loss take_profit time_in_force in
  try_except
    (existing_position <- get_position_for_symbol symbol ;;
     match existing_position with
     | Some pos =>
         if Qlt_bool 0 (PositionInfo.quantity pos) then
           if negb (str_eqb (PositionInfo.margin_type pos) margin_type) then
             notional <- lift (fmt2 (PositionInfo.notional_value pos)) ;;
             ret (results
                    (Cat [Lit "Cannot open "; Str margin_type;
                          Lit " position for "; Str symbol;
                          Lit ". Existing "; Str (PositionInfo.margin_type pos);
                          Lit " position detected (";
                          Num (PositionInfo.quantity pos) "";
                          Lit " contracts, $"; notional;
                          Lit " notional). Binance does not allow changing margin type with open positions. Please close the existing position first, then new trades will use ";
                          Str margin_type; Lit " margin."]))
           else
             notional <- lift (fmt2 (PositionInfo.notional_value pos)) ;;
             ret (results
                    (Cat [Lit "Position already exists for "; Str symbol;
                          Lit ". Current position: ";
                          Num (PositionInfo.quantity pos) ""; Lit " ";
                          Str (PositionInfo.side pos); Lit " contracts ($";
                          notional; Lit " notional, ";
                          Str (PositionInfo.margin_type pos);
                          Lit " margin). Close existing position before opening a new one."]))
         else proceed
     | None => proceed
     end)
    (fun e => ret (results (Exn e))).

Definition cancel_all_orders (symbol : str) : M bool :=
  try_except
    (_make_request "DELETE" "/fapi/v1/allOpenOrders"
       [("symbol", PStr symbol)] true ;;;
     ret true)
    (fun _ => ret false).

(** [close_position(symbol, side)]; [side] is not used by the body. *)
Definition close_position (symbol : str) (side : option str) : M OrderResult.t :=
  try_except
    (position <- get_position_for_symbol symbol ;;
     match position with
     | None => ret (OrderResult.failed (Lit "No position found") None)
     | Some position =>
         let close_side :=
           if str_eqb (PositionInfo.side position) (cp "LONG")
           then cp "SELL" else cp "BUY" in
         cancel_all_orders symbol ;;;
         place_market_order symbol close_side (PositionInfo.quantity position) true
     end)
    (fun e => ret (OrderResult.failed (Exn e) None)).
End BinanceService.

(** ** binance_service.py: account and order queries *)

Section BinanceQueries.
Context {U : PyUnicode}.

Definition get_account_info : M json :=
  _make_request "GET" "/fapi/v2/account" [] true.

(** The loop of [get_balance] over the asset list. *)
Fixpoint find_balance (assets : list json) : res Q :=
  match assets with
  | [] => Ok 0
  | asset :: rest =>
      let? name := getitem asset "asset" in
      if eq_str name (cp "USDT") then
        let? v := getitem asset "availableBalance" in
        float v
      else find_balance rest
  end.

Definition get_balance : M Q :=
  try_except
    (account <- get_account_info ;;
     lift (let? assets := get account "assets" (JList []) in
           let? items := iter assets in
           find_balance items))
    (fun _ => ret 0).

(** [get_open_orders(symbol)]: the symbol is sent when it is given and
    not empty. *)
Definition get_open_orders (symbol : option str) : M json :=
  try_except
    (let params :=
       match symbol with
       | Some ((_ :: _) as s) => [("symbol", PStr s)]
       | _ => []
       end in
     _make_request "GET" "/fapi/v1/openOrders" params true)
    (fun _ => ret (JList [])).
End BinanceQueries.

(** ** trade_service.py *)

Module TelegramMessageInput.
Record t : Type := mk {
  text : str;
  sender : option str;
  channel : option str
}.
End TelegramMessageInput.

(** The [binance_result] entry of [execute_trade_from_signal]'s answer. *)
Module BinanceSummary.
Record t : Type := mk {
  entry_order_id : option json;
  order_status : option json;
  sl_order : option OrderResult.t;
  tp_order : option OrderResult.t
}.
End BinanceSummary.

(** The dict [execute_trade_from_signal] returns. *)
Module ExecutionResult.
Record t : Type := mk {
  success : bool;
  trade : option Trade.t;
  message : fstring;
  binance_result : option BinanceSummary.t
}.
End ExecutionResult.

(** The dict [process_telegram_message] returns. *)
Module ProcessResult.
Record t : Type := mk {
  success : bool;
  signal : option SignalMessage.t;
  trade : option Trade.t;
  message : fstring;
  execution_result : option ExecutionResult.t
}.
End ProcessResult.

(** The dict [close_trade] returns. *)
Module CloseResult.
Record t : Type := mk {
  success : bool;
  trade : option Trade.t;
  message : fstring
}.
End CloseResult.

(** The next value of an autoincrement key. *)
Definition next_id {A} (rows : list A) : Z := Z.of_nat (S (length rows)).

Definition add_market_message (sender : option str) (text : str)
           (timestamp : nat) : M MarketMessage.t :=
  d <- get_db ;;
  let row := MarketMessage.mk (next_id (Database.market_messages d))
               sender text timestamp in
  put_db (Database.mk (Database.market_messages d ++ [row])
            (Database.signal_messages d) (Database.trades d)
            (Database.trade_management_config d)) ;;;
  ret row.

Definition add_signal (mk_row : Z -> SignalMessage.t) : M SignalMessage.t :=
  d <- get_db ;;
  let row := mk_row (next_id (Database.signal_messages d)) in
  put_db (Database.mk (Database.market_messages d)
            (Database.signal_messages d ++ [row]) (Database.trades d)
            (Database.trade_management_config d)) ;;;
  ret row.

Definition add_trade (mk_row : Z -> Trade.t) : M Trade.t :=
  d <- get_db ;;
  let row := mk_row (next_id (Database.trades d)) in
  put_db (Database.mk (Database.market_messages d)
            (Database.signal_messages d) (Database.trades d ++ [row])
            (Database.trade_management_config d)) ;;;
  ret row.

Definition add_config (mk_row : Z -> TradeManagementConfig.t)
  : M TradeManagementConfig.t :=
  d <- get_db ;;
  let row := mk_row (next_id (Database.trade_management_config d)) in
  put_db (Database.mk (Database.market_messages d)
            (Database.signal_messages d) (Database.trades d)
            (Database.trade_management_config d ++ [row])) ;;;
  ret row.

(** The row with the key of [t] takes the values of [t]: what committing
    a modified object does. *)
Fixpoint replace_trade (t : Trade.t) (rows : list Trade.t) : list Trade.t :=
  match rows with
  | [] => []
  | r :: rest =>
      if Z.eqb (Trade.id r) (Trade.id t) then t :: rest
      else r :: replace_trade t rest
  end.

Definition update_trade (t : Trade.t) : M unit :=
  d <- get_db ;;
  put_db (Database.mk (Database.market_messages d)
            (Database.signal_messages d)
            (replace_trade t (Database.trades d))
            (Database.trade_management_config d)).

Definition opt_eq_str (o : option str) (s : str) : bool :=
  match o with
  | Some s' => str_eqb s' s
  | None => false
  end.

Section TradeService.
Context {U : PyUnicode}.

Definition get_config (user_id : Z) : M TradeManagementConfig.t :=
  d <- get_db ;;
  match find (fun c => Z.eqb (TradeManagementConfig.user_id c) user_id)
             (Database.trade_management_config d) with
  | Some config => ret config
  | None =>
      settings <- get_settings ;;
      add_config (fun id =>
        TradeManagementConfig.mk id user_id
          (Settings.default_margin_mode settings)
          (inject_Z (Settings.default_leverage settings))
          (Settings.default_position_size settings)
          (Settings.default_sl_percentage settings)
          (Settings.default_tp_percentage settings)
          true)
  end.

(** [entry_order.status if entry_order else "PENDING"] *)
Definition order_status_of (entry_order : option OrderResult.t) : option json :=
  match entry_order with
  | Some o => OrderResult.status o
  | None => Some (JStr (cp "PENDING"))
  end.

Definition status_is (order_status : option json) (s : string) : bool :=
  match order_status with
  | Some j => eq_str j (cp s)
  | None => false
  end.

Definition execute_trade_from_signal (signal_id user_id : Z)
  : M ExecutionResult.t :=
  try_except
    (d <- get_db ;;
     match find (fun s => Z.eqb (SignalMessage.id s) signal_id)
                (Database.signal_messages d) with
     | None => ret (ExecutionResult.mk false None (Lit "Signal not found") None)
     | Some signal =>
         config <- get_config user_id ;;
         binance_result <-
           open_position (SignalMessage.pair signal)
             (SignalMessage.setup_type signal)
             (TradeManagementConfig.max_position_size config)
             (Qtruncate (TradeManagementConfig.max_leverage config))
             (TradeManagementConfig.margin_mode config)
             (SignalMessage.entry signal)
             (SignalMessage.stop_loss signal)
             (SignalMessage.take_profit signal)
             (cp "GTC") ;;
         if OpenResult.success binance_result then
           let entry_order := OpenResult.entry_order binance_result in
           let order_status := order_status_of entry_order in
           status_and_time <-
             (if status_is order_status "FILLED" then
                now <- utcnow ;; ret (cp "OPEN", Some now)
              else if status_is order_status "NEW"
                      || status_is order_status "PARTIALLY_FILLED" then
                ret (cp "PENDING", None)
              else
                now <- utcnow ;; ret (cp "OPEN", Some now)) ;;
           let (initial_status, opened_at) := status_and_time : str * option nat in
           created_at <- utcnow ;;
           trade <- add_trade (fun id =>
             Trade.mk id user_id (Some (SignalMessage.id signal))
               (SignalMessage.pair signal)
               (SignalMessage.setup_type signal)
               (Qtruncate (TradeManagementConfig.max_leverage config))
               (match entry_order with
                | Some o => OrderResult.price o
                | None => Some (SignalMessage.entry signal)
                end)
               (match entry_order with
                | Some o => OrderResult.quantity o
                | None => None
                end)
               (Some (SignalMessage.stop_loss signal))
               (Some (SignalMessage.take_profit signal))
               (Some (SignalMessage.take_profit signal))
               initial_status
               (match entry_order with
                | Some o => OrderResult.order_id o
                | None => None
                end)
               opened_at None None None None None created_at) ;;
           ret (ExecutionResult.mk true (Some trade)
                  (Cat [Lit "Limit order placed successfully (Status: ";
                        Str (Trade.status trade); Lit ")"])
                  (Some (BinanceSummary.mk
                           (match entry_order with
                            | Some o => OrderResult.order_id o
                            | None => None
                            end)
                           order_status
                           (OpenResult.sl_order binance_result)
                           (OpenResult.tp_order binance_result))))
         else
           ret (ExecutionResult.mk false None
                  (OpenResult.message binance_result) None)
     end)
    (fun e => ret (ExecutionResult.mk false None (Exn e) None)).

Definition process_telegram_message (message_input : TelegramMessageInput.t)
           (user_id : Z) (auto_execute : bool) : M ProcessResult.t :=
  try_except
    (config <- get_config user_id ;;
     let parser :=
       TelegramParser.mk (TradeManagementConfig.sl_percentage config)
         (TradeManagementConfig.tp_percentage config) in
     (* Step 1: store the raw message *)
     now <- utcnow ;;
     add_market_message (TelegramMessageInput.sender message_input)
       (TelegramMessageInput.text message_input) now ;;;
     (* Step 2: parse *)
     match parse_message parser (TelegramMessageInput.text message_input) with
     | None =>
         ret (ProcessResult.mk false None None
                (Lit "Failed to parse signal from message") None)
     | Some parsed =>
         (* Step 3: store the signal *)
         now <- utcnow ;;
         signal <- add_signal (fun id =>
           SignalMessage.mk id (ParsedSignalData.pair parsed)
             (ParsedSignalData.setup_type parsed)
             (ParsedSignalData.entry parsed)
             (ParsedSignalData.stop_loss parsed)
             (ParsedSignalData.take_profit parsed)
             now (TelegramMessageInput.text message_input)
             (TelegramMessageInput.channel message_input)) ;;
         (* Step 4: execute *)
         if auto_execute && TradeManagementConfig.auto_execute_trades config then
           trade_result <- execute_trade_from_signal (SignalMessage.id signal) user_id ;;
           ret (ProcessResult.mk (ExecutionResult.success trade_result)
                  (Some signal) (ExecutionResult.trade trade_result)
                  (ExecutionResult.message trade_result)
                  (Some trade_result))
         else
           ret (ProcessResult.mk true (Some signal) None
                  (Lit "Signal parsed and stored successfully") None)
     end)
    (fun e => ret (ProcessResult.mk false None None (Exn e) None)).

(** The profit fields [close_trade] fills in. *)
Definition with_pnl (trade : Trade.t) (price : option Q) : Trade.t :=
  match Trade.entry_price trade, price with
  | Some entry_price, Some price =>
      if negb (Qeq_bool entry_price 0) && negb (Qeq_bool price 0) then
        let pnl_percent :=
          if str_eqb (Trade.side trade) (cp "LONG")
          then (price - entry_price) / entry_price * 100
          else (entry_price - price) / entry_price * 100 in
        Trade.mk (Trade.id trade) (Trade.user_id trade) (Trade.signal_id trade)
          (Trade.pair trade) (Trade.side trade) (Trade.leverage trade)
          (Trade.entry_price trade) (Trade.entry_quantity trade)
          (Trade.stop_loss trade) (Trade.take_profit trade) (Trade.tp trade)
          (Trade.status trade) (Trade.binance_order_id trade)
          (Trade.opened_at trade) (Trade.closed_at trade)
          (Trade.exit_price trade)
          (if truthy_float (Trade.entry_quantity trade) then
             match Trade.entry_quantity trade with
             | Some q => Some (pnl_percent / 100 * q * entry_price)
             | None => Trade.pnl trade
             end
           else Trade.pnl trade)
          (Some pnl_percent) (Trade.exit_reason trade) (Trade.created_at trade)
      else trade
  | _, _ => trade
  end.

Definition close_trade (trade_id : Z) : M CloseResult.t :=
  try_except
    (d <- get_db ;;
     match find (fun t => Z.eqb (Trade.id t) trade_id) (Database.trades d) with
     | None => ret (CloseResult.mk false None (Lit "Trade not found"))
     | Some trade =>
         if negb (str_eqb (Trade.status trade) (cp "OPEN")) then
           ret (CloseResult.mk false None
                  (Cat [Lit "Trade is not open (status: ";
                        Str (Trade.status trade); Lit ")"]))
         else
           close_result <- close_position (Trade.pair trade)
                             (Some (Trade.side trade)) ;;
           if OrderResult.success close_result then
             now <- utcnow ;;
             let closed :=
               Trade.mk (Trade.id trade) (Trade.user_id trade)
                 (Trade.signal_id trade) (Trade.pair trade) (Trade.side trade)
                 (Trade.leverage trade) (Trade.entry_price trade)
                 (Trade.entry_quantity trade) (Trade.stop_loss trade)
                 (Trade.take_profit trade) (Trade.tp trade)
                 (cp "CLOSED") (Trade.binance_order_id trade)
                 (Trade.opened_at trade) (Some now)
                 (OrderResult.price close_result)
                 (Trade.pnl trade) (Trade.pnl_percent trade)
                 (Some (cp "MANUAL")) (Trade.created_at trade) in
             let closed := with_pnl closed (OrderResult.price close_result) in
             update_trade closed ;;;
             ret (CloseResult.mk true (Some closed)
                    (Lit "Trade closed successfully"))
           else
             ret (CloseResult.mk false None
                    (opt_text (OrderResult.message close_result)))
     end)
    (fun e => ret (CloseResult.mk false None (Exn e))).
(** [x and price <= x] / [x and price >= x] for an optional level. *)
Definition reached_down (level : option Q) (price : Q) : bool :=
  truthy_float level &&
  match level with Some l => Qle_bool price l | None => false end.

Definition reached_up (level : option Q) (price : Q) : bool :=
  truthy_float level &&
  match level with Some l => Qle_bool l price | None => false end.

(** The exit reason [sync_positions_with_binance] infers. *)
Definition infer_exit_reason (trade : Trade.t) (current_price : Q) : str :=
  if str_eqb (Trade.side trade) (cp "LONG") then
    if reached_down (Trade.stop_loss trade) current_price then cp "SL_HIT"
    else if reached_up (Trade.take_profit trade) current_price then cp "TP_HIT"
    else cp "UNKNOWN"
  else
    if reached_up (Trade.stop_loss trade) current_price then cp "SL_HIT"
    else if reached_down (Trade.take_profit trade) current_price then cp "TP_HIT"
    else cp "UNKNOWN".

(** The trade as the loop body leaves it, given the time read and the
    price obtained. *)
Definition reconciled (trade : Trade.t) (now : nat) (current_price : option Q)
  : Trade.t :=
  let price_known := truthy_float current_price in
  Trade.mk (Trade.id trade) (Trade.user_id trade) (Trade.signal_id trade)
    (Trade.pair trade) (Trade.side trade) (Trade.leverage trade)
    (Trade.entry_price trade) (Trade.entry_quantity trade)
    (Trade.stop_loss trade) (Trade.take_profit trade) (Trade.tp trade)
    (cp "CLOSED") (Trade.binance_order_id trade)
    (Trade.opened_at trade) (Some now)
    (if price_known then current_price else Trade.exit_price trade)
    (Trade.pnl trade) (Trade.pnl_percent trade)
    (match current_price with
     | Some p => if price_known then Some (infer_exit_reason trade p)
                 else Trade.exit_reason trade
     | None => Trade.exit_reason trade
     end)
    (Trade.created_at trade).

(** The loop of [sync_positions_with_binance] over the open trades. *)
Fixpoint sync_loop (binance_symbols : list json) (db_trades : list Trade.t)
  : M unit :=
  match db_trades with
  | [] => ret tt
  | trade :: rest =>
      (if negb (existsb (fun s => eq_str s (Trade.pair trade)) binance_symbols)
       then
         now <- utcnow ;;
         current_price <- get_current_price (Trade.pair trade) ;;
         update_trade (reconciled trade now current_price)
       else ret tt) ;;;
      sync_loop binance_symbols rest
  end.

(** Building the set of symbols needs each of them hashable. *)
Definition hashable (j : json) : bool :=
  match j with
  | JList _ | JDict _ => false
  | _ => true
  end.

Definition sync_positions_with_binance (user_id : Z) : M unit :=
  try_except
    (d <- get_db ;;
     let db_trades :=
       filter (fun t => Z.eqb (Trade.user_id t) user_id
                        && str_eqb (Trade.status t) (cp "OPEN"))
              (Database.trades d) in
     binance_positions <- get_positions ;;
     let binance_symbols := map PositionInfo.symbol binance_positions in
     if forallb hashable binance_symbols
     then sync_loop binance_symbols db_trades
     else lift (Raise TypeError))
    (fun _ => ret tt).
End TradeService.

(** ** trade_service.py: configuration, positions and totals *)

(** [PositionResponse] of schemas.py. *)
Module PositionResponse.
Record t : Type := mk {
  id : Z;
  pair : str;
  side : str;
  entry_price : Q;
  quantity : Q;
  leverage : Z;
  stop_loss : option Q;
  take_profit : option Q;
  unrealized_pnl : Q;
  unrealized_pnl_percent : Q;
  margin : Q;
  liquidation_price : option Q;
  opened_at : option nat;
  status : str
}.
End PositionResponse.

(** The dict [get_total_pnl] returns. *)
Module TotalPnl.
Record t : Type := mk {
  total_pnl : Q;
  total_pnl_percent : Q;
  open_positions : Z;
  total_trades : Z
}.
End TotalPnl.

(** Committing a modified configuration row: the row with its key takes
    its values. *)
Fixpoint replace_config (c : TradeManagementConfig.t)
         (rows : list TradeManagementConfig.t) : list TradeManagementConfig.t :=
  match rows with
  | [] => []
  | r :: rest =>
      if Z.eqb (TradeManagementConfig.id r) (TradeManagementConfig.id c)
      then c :: rest
      else r :: replace_config c rest
  end.

Definition store_config (c : TradeManagementConfig.t) : M unit :=
  d <- get_db ;;
  put_db (Database.mk (Database.market_messages d)
            (Database.signal_messages d) (Database.trades d)
            (replace_config c (Database.trade_management_config d))).

(** [x if x is not None else old] *)
Definition if_given {A} (x : option A) (old : A) : A :=
  match x with
  | Some v => v
  | None => old
  end.

Section TradeServiceQueries.
Context {U : PyUnicode}.

(** [update_config]. The service's parser is the state [self.parser];
    it is passed in and returned beside the configuration. The
    [updated_at] column is not part of the modelled row: the clock is
    read and the value dropped. *)
Definition update_config (parser : TelegramParser.t) (user_id : Z)
           (margin_mode : option str)
           (max_leverage max_position_size sl_percentage tp_percentage : option Q)
           (auto_execute_trades : option bool)
  : M (TradeManagementConfig.t * TelegramParser.t) :=
  config <- get_config user_id ;;
  let config :=
    TradeManagementConfig.mk (TradeManagementConfig.id config)
      (TradeManagementConfig.user_id config)
      (if_given margin_mode (TradeManagementConfig.margin_mode config))
      (if_given max_leverage (TradeManagementConfig.max_leverage config))
      (if_given max_position_size (TradeManagementConfig.max_position_size config))
      (if_given sl_percentage (TradeManagementConfig.sl_percentage config))
      (if_given tp_percentage (TradeManagementConfig.tp_percentage config))
      (if_given auto_execute_trades
         (TradeManagementConfig.auto_execute_trades config)) in
  let parser :=
    TelegramParser.mk
      (if_given sl_percentage (TelegramParser.sl_percentage parser))
      (if_given tp_percentage (TelegramParser.tp_percentage parser)) in
  utcnow ;;;
  store_config config ;;;
  ret (config, parser).

(** [reset_config] *)
Definition reset_config (parser : TelegramParser.t) (user_id : Z)
  : M (TradeManagementConfig.t * TelegramParser.t) :=
  config <- get_config user_id ;;
  settings <- get_settings ;;
  let config :=
    TradeManagementConfig.mk (TradeManagementConfig.id config)
      (TradeManagementConfig.user_id config)
      (Settings.default_margin_mode settings)
      (inject_Z (Settings.default_leverage settings))
      (Settings.default_position_size settings)
      (Settings.default_sl_percentage settings)
      (Settings.default_tp_percentage settings)
      true in
  utcnow ;;;
  let parser :=
    TelegramParser.mk (Settings.default_sl_percentage settings)
      (Settings.default_tp_percentage settings) in
  store_config config ;;;
  ret (config, parser).

(** The open trades of a user, as both position listings query them. *)
Definition open_trades (user_id : Z) (d : Database.t) : list Trade.t :=
  filter (fun t => Z.eqb (Trade.user_id t) user_id
                   && str_eqb (Trade.status t) (cp "OPEN"))
         (Database.trades d).

(** The leveraged profit percentage [get_active_positions] computes. *)
Definition position_pnl_percent (pos : PositionInfo.t) : Q :=
  let entry_price := PositionInfo.entry_price pos in
  if Qlt_bool 0 entry_price && truthy_float (PositionInfo.mark_price pos) then
    match PositionInfo.mark_price pos with
    | Some mark_price =>
        if str_eqb (PositionInfo.side pos) (cp "LONG") then
          (mark_price - entry_price) / entry_price * 100
          * inject_Z (PositionInfo.leverage pos)
        else
          (entry_price - mark_price) / entry_price * 100
          * inject_Z (PositionInfo.leverage pos)
    | None => 0
    end
  else 0.

(** A [str] field of a response schema accepts a string only. *)
Definition str_field (j : json) : res str :=
  match j with
  | JStr s => Ok s
  | _ => Raise ValueError
  end.

(** One turn of the loop of [get_active_positions]. *)
Definition position_response (db_trades : list Trade.t) (pos : PositionInfo.t)
  : res PositionResponse.t :=
  let matching_trade :=
    find (fun trade => eq_str (PositionInfo.symbol pos) (Trade.pair trade))
         db_trades in
  let pnl_percent := position_pnl_percent pos in
  let? pair := str_field (PositionInfo.symbol pos) in
  Ok (PositionResponse.mk
        (match matching_trade with Some t => Trade.id t | None => 0%Z end)
        pair
        (PositionInfo.side pos)
        (PositionInfo.entry_price pos)
        (PositionInfo.quantity pos)
        (PositionInfo.leverage pos)
        (match matching_trade with Some t => Trade.stop_loss t | None => None end)
        (match matching_trade with Some t => Trade.take_profit t | None => None end)
        (PositionInfo.unrealized_pnl pos)
        pnl_percent
        (PositionInfo.margin pos)
        (PositionInfo.liquidation_price pos)
        (match matching_trade with Some t => Trade.opened_at t | None => None end)
        (cp "OPEN")).

Fixpoint position_responses (db_trades : list Trade.t)
         (binance_positions : list PositionInfo.t)
  : res (list PositionResponse.t) :=
  match binance_positions with
  | [] => Ok []
  | pos :: rest =>
      let? position := position_response db_trades pos in
      let? positions := position_responses db_trades rest in
      Ok (position :: positions)
  end.

Definition get_active_positions (user_id : Z) : M (list PositionResponse.t) :=
  try_except
    (binance_positions <- get_positions ;;
     d <- get_db ;;
     lift (position_responses (open_trades user_id d) binance_positions))
    (fun _ => ret []).

(** [sum(...)] of floats, from 0 and left to right. *)
Definition py_sum (l : list Q) : Q := fold_left Qplus l 0.

Definition get_total_pnl (user_id : Z) : M TotalPnl.t :=
  try_except
    (positions <- get_active_positions user_id ;;
     let total_pnl := py_sum (map PositionResponse.unrealized_pnl positions) in
     let total_margin := py_sum (map PositionResponse.margin positions) in
     let total_pnl_percent :=
       if Qlt_bool 0 total_margin then total_pnl / total_margin * 100 else 0 in
     d <- get_db ;;
     let closed_trades :=
       length (filter (fun t => Z.eqb (Trade.user_id t) user_id
                                && str_eqb (Trade.status t) (cp "CLOSED"))
                      (Database.trades d)) in
     ret (TotalPnl.mk total_pnl total_pnl_percent
            (Z.of_nat (length positions))
            (Z.of_nat (closed_trades + length positions))))
    (fun _ => ret (TotalPnl.mk 0 0 0 0)).
End TradeServiceQueries.

(** ** telegram_listener.py *)

Section Listener.
Context {U : PyUnicode}.

(** [TelegramSignalProcessor._handle_signal] *)
Definition _handle_signal (text : str) (sender : str) (timestamp : nat)
  : M unit :=
  if negb (str_in (cp "#") text) then ret tt
  else
    match parse_message default_parser text with
    | None => ret tt
    | Some parsed =>
        try_except
          (settings <- get_settings ;;
           process_telegram_message
             (TelegramMessageInput.mk text (Some sender)
                (Some (cp "Telegram Auto")))
             1 (Settings.auto_execute_trades settings) ;;;
           ret tt)
          (fun _ => ret tt)
    end.
End Listener.

(** ** telegram_listener.py: the listener *)

(** What [_process_message] reads of the sender of a message: its
    [username], and its [first_name] where the class has one (a user has,
    a channel has not). *)
Module Sender.
Record t : Type := mk {
  username : option str;
  first_name : option (option str)
}.
End Sender.

Module Message.
Record t : Type := mk {
  text : option str;
  id : Z;
  sender : option Sender.t;
  date : nat
}.
End Message.

(** [l[-n:]] for [n > 0] *)
Definition last_items {A} (n : nat) (l : list A) : list A :=
  skipn (length l - n) l.

(** [getattr(s, 'username', None) or getattr(s, 'first_name', 'Unknown')] *)
Definition sender_name (s : Sender.t) : option str :=
  match Sender.username s with
  | Some (_ :: _ as username) => Some username
  | _ =>
      match Sender.first_name s with
      | Some first_name => first_name
      | None => Some (cp "Unknown")
      end
  end.

Section TelegramListener.

(** The order in which Python iterates a [set], given the insertions
    that built it; the language leaves it to the implementation. *)
Variable iteration_order : list Z -> list Z.

(** [TelegramListener._process_message]. The set
    [self.processed_messages] is passed in and returned, as the list of
    the insertions that built it. Nothing in the body raises once the
    callback's exceptions are caught, so the outer handler is left out. *)
Definition _process_message (processed_messages : list Z)
           (on_message_callback : option (str -> option str -> nat -> M unit))
           (message : Message.t) : M (list Z) :=
  let text := match Message.text message with Some t => t | None => [] end in
  match strip text with
  | [] => ret processed_messages
  | _ :: _ =>
      let message_id := Message.id message in
      if existsb (Z.eqb message_id) processed_messages
      then ret processed_messages
      else
        let processed_messages := processed_messages ++ [message_id] in
        let processed_messages :=
          if (1000 <? length processed_messages)%nat
          then last_items 500 (iteration_order processed_messages)
          else processed_messages in
        let sender :=
          match Message.sender message with
          | Some s => sender_name s
          | None => Some (cp "TELEGRAM")
          end in
        match on_message_callback with
        | Some callback =>
            try_except (callback text sender (Message.date message))
              (fun _ => ret tt) ;;;
            ret processed_messages
        | None => ret processed_messages
        end
  end.
End TelegramListener.

(** * Specification vocabulary *)

(** ** What a computation leaves unchanged *)

(** [frame p w w']: from [w] to [w'] nothing changed but the request log,
    and no request satisfying [p] was added to it. *)
Definition frame (p : Request.t -> bool) (w w' : World.t) : Prop :=
  World.exchange w' = World.exchange w /\
  World.clock w' = World.clock w /\
  World.settings w' = World.settings w /\
  World.db w' = World.db w /\
  filter p (World.sent w') = filter p (World.sent w).

(** Every run of [m] relates the world before to the world after by [R]. *)
Definition preserves {A} (R : World.t -> World.t -> Prop) (m : M A) : Prop :=
  forall w, R w (snd (m w)).

(** A computation that returns a value from every world. *)
Definition total {A} (m : M A) : Prop :=
  forall w, exists a, fst (m w) = Ok a.

(** From [w] to [w'] the stored raw messages are the same. *)
Definition keeps_messages (w w' : World.t) : Prop :=
  Database.market_messages (World.db w')
  = Database.market_messages (World.db w).

(** ** Opening a position *)

Section OpenPositionSpec.
Context {U : PyUnicode}.
Variables (symbol side : str) (position_size_usd : Q) (leverage : Z)
          (margin_type : str) (entry_price stop_loss take_profit : Q)
          (time_in_force : str).

(** The guard of step 0 lets the call through. *)
Definition no_live_position (existing : option PositionInfo.t) : Prop :=
  match existing with
  | Some pos => ~ 0 < PositionInfo.quantity pos
  | None => True
  end.

(** The three pre-check failures, each at the point of the run where
    [open_position] detects it. *)
Inductive precheck_failure (w : World.t) : Prop :=
| Existing_position (pos : PositionInfo.t) (w1 : World.t) :
    get_position_for_symbol symbol w = (Ok (Some pos), w1) ->
    0 < PositionInfo.quantity pos ->
    precheck_failure w
| Quantity_failure (existing : option PositionInfo.t) (set : bool)
                   (quantity : option Q) (w1 w2 w3 w4 : World.t) :
    get_position_for_symbol symbol w = (Ok existing, w1) ->
    no_live_position existing ->
    set_leverage symbol leverage w1 = (Ok true, w2) ->
    set_margin_type symbol margin_type w2 = (Ok set, w3) ->
    calculate_quantity symbol position_size_usd leverage (Some entry_price) w3
    = (Ok quantity, w4) ->
    truthy_float quantity = false ->
    precheck_failure w
| Below_minimum_notional (existing : option PositionInfo.t) (set : bool)
                         (quantity base_min_notional : Q)
                         (w1 w2 w3 w4 w5 : World.t) :
    get_position_for_symbol symbol w = (Ok existing, w1) ->
    no_live_position existing ->
    set_leverage symbol leverage w1 = (Ok true, w2) ->
    set_margin_type symbol margin_type w2 = (Ok set, w3) ->
    calculate_quantity symbol position_size_usd leverage (Some entry_price) w3
    = (Ok (Some quantity), w4) ->
    ~ quantity == 0 ->
    get_min_notional symbol w4 = (Ok base_min_notional, w5) ->
    quantity * entry_price <= base_min_notional + (1 # 10) ->
    precheck_failure w.

(** A result that reports failure and carries no order. *)
Definition aborted (r : OpenResult.t) : Prop :=
  OpenResult.success r = false /\
  OpenResult.entry_order r = None /\
  OpenResult.sl_order r = None /\
  OpenResult.tp_order r = None.

Definition entry_side : str :=
  if str_eqb side (cp "LONG") then cp "BUY" else cp "SELL".

Definition sl_side : str :=
  if str_eqb side (cp "LONG") then cp "SELL" else cp "BUY".

(** The protective orders as placed after the entry order [e]: the two
    calls, from [w1] to [w'], with their results. *)
Definition protective_orders_of (e : OrderResult.t) (w1 w' : World.t)
           (sl tp : OrderResult.t) : Prop :=
  exists w2 : World.t,
    place_stop_loss symbol sl_side stop_loss (OrderResult.quantity e) w1
    = (Ok sl, w2) /\
    place_take_profit symbol sl_side take_profit (OrderResult.quantity e) w2
    = (Ok tp, w').

End OpenPositionSpec.

(** ** Executing and closing a trade *)

Section TradeSpec.
Context {U : PyUnicode}.
Variables (signal_id trade_id : Z).




Definition trade_with_id (w : World.t) : option Trade.t :=
  find (fun t => Z.eqb (Trade.id t) trade_id) (Database.trades (World.db w)).

(** The three ways [close_trade] does not get to close the trade. *)
Inductive close_failure (w : World.t) : Prop :=
| Trade_missing :
    trade_with_id w = None ->
    close_failure w
| Trade_not_open (trade : Trade.t) :
    trade_with_id w = Some trade ->
    Trade.status trade <> cp "OPEN" ->
    close_failure w
| Exchange_close_failed (trade : Trade.t) (close_result : OrderResult.t)
                        (w1 : World.t) :
    trade_with_id w = Some trade ->
    Trade.status trade = cp "OPEN" ->
    close_position (Trade.pair trade) (Some (Trade.side trade)) w
    = (Ok close_result, w1) ->
    OrderResult.success close_result = false ->
    close_failure w.

(** The raw-message row [process_telegram_message] adds. *)
Definition stored (message_input : TelegramMessageInput.t) (w w' : World.t)
  : Prop :=
  exists row : MarketMessage.t,
    Database.market_messages (World.db w')
    = Database.market_messages (World.db w) ++ [row] /\
    MarketMessage.text row = TelegramMessageInput.text message_input /\
    MarketMessage.sender row = TelegramMessageInput.sender message_input.

End TradeSpec.

(** ** Quantities and price levels *)








(** No reported position carries the symbol [pair]. *)
Definition no_position (symbols : list json) (pair_ : str) : Prop :=
  existsb (fun s => eq_str s pair_) symbols = false.

(** ** Positions *)

(** A position as [get_positions] reports it: a non-zero amount, on one
    of the two sides, with its notional value and mark price set. *)
Definition live_position (p : PositionInfo.t) : Prop :=
  0 < PositionInfo.quantity p /\
  (PositionInfo.side p = cp "LONG" \/ PositionInfo.side p = cp "SHORT") /\
  PositionInfo.notional_value p <> None /\
  PositionInfo.mark_price p <> None.

(** The request [get_positions] sends. *)
Definition position_query : Request.t :=
  Request.mk "GET" "/fapi/v2/positionRisk" [] true.

(** The answer the exchange gives to the next request of world [w]. *)
Definition next_answer (w : World.t) (r : Request.t) : json :=
  World.exchange w (length (World.sent w)) r.

(** The world after [r] has been sent. *)
Definition after_request (w : World.t) (r : Request.t) : World.t :=
  World.mk (World.exchange w) (World.sent w ++ [r]) (World.clock w)
    (World.settings w) (World.db w).

(** An entry of the position list that cannot be read. *)
Definition unreadable_position {U : PyUnicode} (pos : json) : Prop :=
  exists e, position_of pos = Raise e.

(** ** Leverage *)

Definition bracket_query (symbol : str) : Request.t :=
  Request.mk "GET" "/fapi/v1/leverageBracket" [("symbol", PStr symbol)] true.

Definition leverage_request (symbol : str) (leverage : Z) : Request.t :=
  Request.mk "POST" "/fapi/v1/leverage"
    [("symbol", PStr symbol); ("leverage", PInt leverage)] true.

(** [k in j] holds: the answer [j] is a container with the key or
    element [k]. *)
Definition has_key (k : string) (j : json) : bool :=
  match contains k j with
  | Ok b => b
  | Raise _ => false
  end.

(** ** Orders *)

(** A computation that returns, from every world, a value satisfying [P]. *)
Definition returns {A} (P : A -> Prop) (m : M A) : Prop :=
  forall w, exists a, fst (m w) = Ok a /\ P a.

(** An order result is either a placed order with its identifier,
    quantity, price and status, or a failure with its message. *)
Definition well_formed_result (r : OrderResult.t) : Prop :=
  if OrderResult.success r then
    OrderResult.order_id r <> None /\ OrderResult.quantity r <> None /\
    OrderResult.price r <> None /\ OrderResult.status r <> None /\
    OrderResult.raw_response r <> None /\ OrderResult.message r = None
  else
    OrderResult.message r <> None /\ OrderResult.order_id r = None /\
    OrderResult.quantity r = None /\ OrderResult.price r = None /\
    OrderResult.status r = None.

Definition cancel_request (symbol : str) : Request.t :=
  Request.mk "DELETE" "/fapi/v1/allOpenOrders" [("symbol", PStr symbol)] true.

(** The reduce-only market order that closes a position. *)
Definition closing_order (symbol side : str) (quantity : Q) : Request.t :=
  Request.mk "POST" "/fapi/v1/order"
    [("symbol", PStr symbol); ("side", PStr side);
     ("type", PStr (cp "MARKET")); ("quantity", PFloat quantity);
     ("reduceOnly", PStr (cp "true"))] true.

(** The side of the order that closes a position held on [side]. *)
Definition closing_side (side : str) : str :=
  if str_eqb side (cp "LONG") then cp "SELL" else cp "BUY".

(** The limit order that opens a position. *)
Definition entry_order_request (symbol side : str) (quantity price : Q)
           (time_in_force : str) : Request.t :=
  Request.mk "POST" "/fapi/v1/order"
    [("symbol", PStr symbol); ("side", PStr side);
     ("type", PStr (cp "LIMIT")); ("quantity", PFloat quantity);
     ("price", PFloat price); ("timeInForce", PStr time_in_force)] true.

(** A conditional order of [type] STOP_MARKET or TAKE_PROFIT_MARKET. *)
Definition protective_request (symbol side : str) (type : string)
           (trigger quantity : Q) : Request.t :=
  Request.mk "POST" "/fapi/v1/algoOrder"
    (algo_params symbol side type trigger quantity) true.

(** No request, or the one request [r t] for some rounding [t] of [x]. *)
Definition at_most_one (r : Q -> Request.t) (x : Q) (l : list Request.t) : Prop :=
  l = [] \/ exists n : Z, l = [r (py_round x n)].

(** ** Queries and failures of the exchange *)

(** A request that is not a query. *)
Definition is_write (r : Request.t) : bool :=
  negb (String.eqb (Request.method r) "GET").

Definition account_query : Request.t :=
  Request.mk "GET" "/fapi/v2/account" [] true.

(** An asset entry that [get_balance] passes over. *)
Definition other_asset (asset : json) : Prop :=
  exists name, getitem asset "asset" = Ok name /\ eq_str name (cp "USDT") = false.

(** The error document the exchange sends for a rejected request. *)
Definition error_document (code : Z) (msg : str) : json :=
  JDict [(cp "code", JInt code); (cp "msg", JStr msg)].

(** An exchange that rejects every request. *)
Definition rejects_everything (w : World.t) : Prop :=
  forall n r, exists code msg, World.exchange w n r = error_document code msg.

(** ** Closing and reconciling trades *)

(** The record of [trade] once closed by hand at time [now] with the
    closing order's price. *)
Definition manually_closed (trade : Trade.t) (now : nat) (price : option Q)
  : Trade.t :=
  with_pnl
    (Trade.mk (Trade.id trade) (Trade.user_id trade) (Trade.signal_id trade)
       (Trade.pair trade) (Trade.side trade) (Trade.leverage trade)
       (Trade.entry_price trade) (Trade.entry_quantity trade)
       (Trade.stop_loss trade) (Trade.take_profit trade) (Trade.tp trade)
       (cp "CLOSED") (Trade.binance_order_id trade) (Trade.opened_at trade)
       (Some now) price (Trade.pnl trade) (Trade.pnl_percent trade)
       (Some (cp "MANUAL")) (Trade.created_at trade))
    price.


(** Everything but the trade table, the clock and the queries sent is
    as before. *)
Definition only_trades_change (w w' : World.t) : Prop :=
  World.exchange w' = World.exchange w /\
  World.settings w' = World.settings w /\
  filter is_write (World.sent w') = filter is_write (World.sent w) /\
  Database.market_messages (World.db w') = Database.market_messages (World.db w) /\
  Database.signal_messages (World.db w') = Database.signal_messages (World.db w) /\
  Database.trade_management_config (World.db w')
  = Database.trade_management_config (World.db w).

(** The trades the reconciliation pass looks at and finds no position
    for. *)
Definition stale (user_id : Z) (symbols : list json) (t : Trade.t) : Prop :=
  Trade.user_id t = user_id /\ Trade.status t = cp "OPEN" /\
  no_position symbols (Trade.pair t).

(** ** Configuration *)

(** The configuration row of a user, as [get_config] looks it up. *)
Definition config_of (user_id : Z) (w : World.t) : option TradeManagementConfig.t :=
  find (fun c => Z.eqb (TradeManagementConfig.user_id c) user_id)
       (Database.trade_management_config (World.db w)).

(** The row [get_config] creates for a user who has none. *)
Definition default_config_for (settings : Settings.t) (id user_id : Z)
  : TradeManagementConfig.t :=
  TradeManagementConfig.mk id user_id
    (Settings.default_margin_mode settings)
    (inject_Z (Settings.default_leverage settings))
    (Settings.default_position_size settings)
    (Settings.default_sl_percentage settings)
    (Settings.default_tp_percentage settings)
    true.

(** The keys of a table are distinct and none exceeds the number of
    rows, as autoincrement keeps them. *)
Definition config_keys_ok (rows : list TradeManagementConfig.t) : Prop :=
  NoDup (map TradeManagementConfig.id rows) /\
  forall c, In c rows -> (TradeManagementConfig.id c <= Z.of_nat (length rows))%Z.

(** Nothing changed but the configuration table and the clock. *)
Definition only_config_changes (w w' : World.t) : Prop :=
  World.exchange w' = World.exchange w /\
  World.settings w' = World.settings w /\
  World.sent w' = World.sent w /\
  Database.market_messages (World.db w') = Database.market_messages (World.db w) /\
  Database.signal_messages (World.db w') = Database.signal_messages (World.db w) /\
  Database.trades (World.db w') = Database.trades (World.db w).

(** The world once the clock has been read and the row [c] committed. *)
Definition config_stored (c : TradeManagementConfig.t) (w : World.t) : World.t :=
  World.mk (World.exchange w) (World.sent w) (S (World.clock w))
    (World.settings w)
    (Database.mk (Database.market_messages (World.db w))
       (Database.signal_messages (World.db w))
       (Database.trades (World.db w))
       (replace_config c (Database.trade_management_config (World.db w)))).

(** The row [c0] with the given fields replaced. *)
Definition updated_config (c0 : TradeManagementConfig.t)
           (margin_mode : option str)
           (max_leverage max_position_size sl_percentage tp_percentage : option Q)
           (auto_execute_trades : option bool) : TradeManagementConfig.t :=
  TradeManagementConfig.mk (TradeManagementConfig.id c0)
    (TradeManagementConfig.user_id c0)
    (if_given margin_mode (TradeManagementConfig.margin_mode c0))
    (if_given max_leverage (TradeManagementConfig.max_leverage c0))
    (if_given max_position_size (TradeManagementConfig.max_position_size c0))
    (if_given sl_percentage (TradeManagementConfig.sl_percentage c0))
    (if_given tp_percentage (TradeManagementConfig.tp_percentage c0))
    (if_given auto_execute_trades (TradeManagementConfig.auto_execute_trades c0)).

(** ** Processing a message *)

(** From [w] to [w'] the stored messages and signals are the same. *)
Definition keeps_signals (w w' : World.t) : Prop :=
  Database.market_messages (World.db w') = Database.market_messages (World.db w) /\
  Database.signal_messages (World.db w') = Database.signal_messages (World.db w).

(** The parser [process_telegram_message] uses for a configuration. *)
Definition parser_of (config : TradeManagementConfig.t) : TelegramParser.t :=
  TelegramParser.mk (TradeManagementConfig.sl_percentage config)
    (TradeManagementConfig.tp_percentage config).

(** The raw-message row stored for [message_input] at time [now]. *)
Definition message_row (message_input : TelegramMessageInput.t) (w : World.t)
           (now : nat) : MarketMessage.t :=
  MarketMessage.mk (next_id (Database.market_messages (World.db w)))
    (TelegramMessageInput.sender message_input)
    (TelegramMessageInput.text message_input) now.

(** The signal row stored for a parsed message at time [now]. *)
Definition signal_row (message_input : TelegramMessageInput.t)
           (parsed : ParsedSignalData.t) (w : World.t) (now : nat)
  : SignalMessage.t :=
  SignalMessage.mk (next_id (Database.signal_messages (World.db w)))
    (ParsedSignalData.pair parsed) (ParsedSignalData.setup_type parsed)
    (ParsedSignalData.entry parsed) (ParsedSignalData.stop_loss parsed)
    (ParsedSignalData.take_profit parsed) now
    (TelegramMessageInput.text message_input)
    (TelegramMessageInput.channel message_input).

(** ** Listing positions *)

(** [r] is the response for position [pos], given the open trades of
    the user: the position's own figures, and the key and levels of the
    first open trade on its symbol, if there is one. *)
Definition response_for (db_trades : list Trade.t) (pos : PositionInfo.t)
           (r : PositionResponse.t) : Prop :=
  PositionInfo.symbol pos = JStr (PositionResponse.pair r) /\
  PositionResponse.side r = PositionInfo.side pos /\
  PositionResponse.entry_price r = PositionInfo.entry_price pos /\
  PositionResponse.quantity r = PositionInfo.quantity pos /\
  PositionResponse.leverage r = PositionInfo.leverage pos /\
  PositionResponse.unrealized_pnl r = PositionInfo.unrealized_pnl pos /\
  PositionResponse.unrealized_pnl_percent r = position_pnl_percent pos /\
  PositionResponse.margin r = PositionInfo.margin pos /\
  PositionResponse.status r = cp "OPEN" /\
  match find (fun t => str_eqb (PositionResponse.pair r) (Trade.pair t)) db_trades with
  | Some t =>
      PositionResponse.id r = Trade.id t /\
      PositionResponse.stop_loss r = Trade.stop_loss t /\
      PositionResponse.take_profit r = Trade.take_profit t /\
      PositionResponse.opened_at r = Trade.opened_at t
  | None =>
      PositionResponse.id r = 0%Z /\
      PositionResponse.stop_loss r = None /\
      PositionResponse.take_profit r = None /\
      PositionResponse.opened_at r = None
  end.

(** The symbol of a position is a text. *)
Definition named (pos : PositionInfo.t) : Prop :=
  exists s, PositionInfo.symbol pos = JStr s.

(** The number of CLOSED trades of a user. *)
Definition closed_trades (user_id : Z) (w : World.t) : nat :=
  length (filter (fun t => Z.eqb (Trade.user_id t) user_id
                           && str_eqb (Trade.status t) (cp "CLOSED"))
                 (Database.trades (World.db w))).

(** ** The outcomes of [open_position] *)

(** The messages with which [open_position] refuses before any order. *)
Definition refusal (m : fstring) : Prop :=
  m = Lit "Failed to set leverage" \/
  m = Lit "Failed to calculate quantity" \/
  exists parts : list fstring,
    m = Cat (Lit "Cannot open " :: parts) \/
    m = Cat (Lit "Position already exists for " :: parts) \/
    m = Cat (Lit "Order rejected: Notional value $" :: parts).

(** The three ways [open_position] ends: refused before any order, entry
    order failed, or entry order placed and both protective orders
    attempted. *)
Inductive open_outcome : OpenResult.t -> Prop :=
| Refused (m : fstring) :
    refusal m ->
    open_outcome (OpenResult.mk false None None None m)
| Entry_failed (e : OrderResult.t) :
    OrderResult.success e = false ->
    open_outcome
      (OpenResult.mk false (Some e) None None
         (Cat [Lit "Entry order failed: "; opt_text (OrderResult.message e)]))
| Opened (e sl tp : OrderResult.t) :
    OrderResult.success e = true ->
    open_outcome
      (OpenResult.mk true (Some e) (Some sl) (Some tp)
         (Lit "Limit order placed successfully with SL/TP")).

(** ** What a pattern matches *)

(** [matches r s g s' g']: the pattern [r] matches a prefix of [s] and
    leaves [s']; group 1 goes from [g] to [g']. This is the relation the
    backtracking matcher searches. *)
Fixpoint matches (r : regex) (s : str) (g : option str) (s' : str)
         (g' : option str) : Prop :=
  match r with
  | Rchar p => exists c, s = c :: s' /\ p c = true /\ g' = g
  | Rmany p => exists run, s = run ++ s' /\ forallb p run = true /\ g' = g
  | Rseq r1 r2 =>
      exists s1 g1, matches r1 s g s1 g1 /\ matches r2 s1 g1 s' g'
  | Ralt r1 r2 => matches r1 s g s' g' \/ matches r2 s g s' g'
  | Ropt r1 => matches r1 s g s' g' \/ (s' = s /\ g' = g)
  | Rgroup r1 =>
      exists g1, matches r1 s g s' g1 /\
                 g' = Some (firstn (length s - length s') s)
  end.

(** A pattern without a capturing group. *)
Fixpoint groupless (r : regex) : bool :=
  match r with
  | Rchar _ | Rmany _ => true
  | Rseq r1 r2 | Ralt r1 r2 => groupless r1 && groupless r2
  | Ropt r1 => groupless r1
  | Rgroup _ => false
  end.

(** The text of a number as the patterns capture it: digits, then
    possibly a point and further digits. *)
Definition number_text {U : PyUnicode} (t : str) : Prop :=
  exists whole rest : str,
    t = whole ++ rest /\ whole <> [] /\ forallb is_digit whole = true /\
    (rest = [] \/ exists frac, rest = 46%N :: frac /\ forallb is_digit frac = true).

(** What the code needs of the digit table: a digit is neither white
    space nor a sign, and the point is not a digit. *)
Definition digit_table_ok (U : PyUnicode) : Prop :=
  py_decimal 46%N = None /\
  forall c d, py_decimal c = Some d ->
              is_space c = false /\ c <> 45%N /\ c <> 43%N.

(** The first of the two direction words in a text, reading from the
    left. *)
Fixpoint first_keyword (s : str) : option str :=
  if startswith (cp "LONG") s then Some (cp "LONG")
  else if startswith (cp "SHORT") s then Some (cp "SHORT")
  else
    match s with
    | [] => None
    | _ :: s' => first_keyword s'
    end.

(** The quote assets the pair pattern knows. *)
Definition quote_assets : list str :=
  [cp "USDT"; cp "BUSD"; cp "BTC"; cp "ETH"].

(** An upper-case ASCII letter or an ASCII digit. *)
Definition pair_char (c : N) : bool :=
  in_range "A" "Z" c || in_range "0" "9" c.

(** ** The listener *)

(** The text of a message as [_process_message] reads it. *)
Definition text_of (message : Message.t) : str :=
  match Message.text message with
  | Some t => t
  | None => []
  end.

(** The sender passed to the callback. *)
Definition sender_of (message : Message.t) : option str :=
  match Message.sender message with
  | Some s => sender_name s
  | None => Some (cp "TELEGRAM")
  end.

(** The world after the callback, if there is one, has handled the
    message; what the callback returns or raises is dropped. *)
Definition handled (on_message_callback : option (str -> option str -> nat -> M unit))
           (message : Message.t) (w : World.t) : World.t :=
  match on_message_callback with
  | Some callback =>
      snd (callback (text_of message) (sender_of message) (Message.date message) w)
  | None => w
  end.

(** * Examples *)

Definition obj (l : list (string * json)) : json :=
  JDict (map (fun kv => (cp (fst kv), snd kv)) l).

Definition jstr (s : string) : json := JStr (cp s).

(** An exchange that answers by endpoint. *)
Definition answers (table : list (string * json)) : nat -> Request.t -> json :=
  fun _ r =>
    match find (fun e => String.eqb (fst e) (Request.endpoint r)) table with
    | Some e => snd e
    | None => JNull
    end.

Definition btc_rules : json :=
  obj [("symbols",
        JList [obj [("symbol", jstr "BTCUSDT");
                    ("filters",
                     JList [obj [("filterType", jstr "PRICE_FILTER");
                                 ("tickSize", jstr "0.10")];
                            obj [("filterType", jstr "LOT_SIZE");
                                 ("stepSize", jstr "0.001")];
                            obj [("filterType", jstr "MIN_NOTIONAL");
                                 ("notional", jstr "100")]])]])].

Definition btc_brackets : json :=
  JList [obj [("symbol", jstr "BTCUSDT");
              ("brackets", JList [obj [("bracket", JInt 1);
                                       ("initialLeverage", JInt 125)]])]].

Definition btc_position : json :=
  obj [("symbol", jstr "BTCUSDT"); ("positionAmt", jstr "0.500");
       ("entryPrice", jstr "41000.0"); ("markPrice", jstr "42000.0");
       ("unRealizedProfit", jstr "500.0"); ("liquidationPrice", jstr "0");
       ("leverage", jstr "20"); ("marginType", jstr "cross");
       ("isolatedMargin", jstr "0.0"); ("notional", jstr "21000.0")].

Definition order_answer (status : string) : json :=
  obj [("orderId", JInt 8886774); ("symbol", jstr "BTCUSDT");
       ("side", jstr "BUY"); ("origQty", jstr "0.024");
       ("price", jstr "42000.00"); ("avgPrice", jstr "0.00");
       ("status", jstr status); ("clientOrderId", jstr "x1")].

Definition rejection (code : Z) (msg : string) : json :=
  obj [("code", JInt code); ("msg", jstr msg)].

Definition world_of (table : list (string * json)) (d : Database.t) : World.t :=
  World.mk (answers table) [] 0 default_settings d.

(** No position; the entry order is accepted with [status]; both
    conditional orders are rejected. *)
Definition market (status : string) : list (string * json) :=
  [("/fapi/v2/positionRisk", JList []);
   ("/fapi/v1/leverageBracket", btc_brackets);
   ("/fapi/v1/leverage", obj [("leverage", JInt 20); ("symbol", jstr "BTCUSDT")]);
   ("/fapi/v1/marginType", rejection (-4046) "No need to change margin type.");
   ("/fapi/v1/exchangeInfo", btc_rules);
   ("/fapi/v1/ticker/price", obj [("symbol", jstr "BTCUSDT"); ("price", jstr "42100.5")]);
   ("/fapi/v1/order", order_answer status);
   ("/fapi/v1/algoOrder", rejection (-2021) "Order would immediately trigger.")].

(** A position in BTCUSDT is already open. *)
Definition market_with_position : list (string * json) :=
  ("/fapi/v2/positionRisk", JList [btc_position]) :: market "NEW".



Definition example_signal : ParsedSignalData.t :=
  ParsedSignalData.mk (cp "BTCUSDT") (cp "LONG") 42000 39900 43050
    (Some 41000) (Some 43000).


Definition red_only_message : str := cp "#ETHUSDT " ++ RED ++ cp " 3100 (CMP)".

Definition unparsable_message : str := cp "#crypto good morning traders".

Definition default_result : OpenResult.t :=
  OpenResult.mk false None None None (Lit "").

Definition result_of (x : res OpenResult.t * World.t) : OpenResult.t :=
  match fst x with
  | Ok r => r
  | Raise _ => default_result
  end.

Definition entry_of (r : OpenResult.t) : OrderResult.t :=
  match OpenResult.entry_order r with
  | Some e => e
  | None => OrderResult.failed (Lit "") None
  end.

Definition btc_signal : SignalMessage.t :=
  SignalMessage.mk 1 (cp "BTCUSDT") (cp "LONG") 42000 39900 43050 0
    example_message (Some (cp "Unknown")).

Definition db_with_signal : Database.t :=
  Database.mk [] [btc_signal] [] [].

Definition default_config : TradeManagementConfig.t :=
  TradeManagementConfig.mk 1 1 (cp "CROSSED") 20 50 5 (5 # 2) true.

Definition open_btc_trade : Trade.t :=
  Trade.mk 1 1 (Some 1%Z) (cp "BTCUSDT") (cp "LONG") 20 (Some 42000)
    (Some (3 # 125)) (Some 39900) (Some 43050) (Some 43050) (cp "OPEN")
    (Some (JInt 8886774)) (Some 3%nat) None None None None None 4.

Definition db_with_trade : Database.t :=
  Database.mk [] [btc_signal] [open_btc_trade] [default_config].

(** The position query is answered with an error document. *)
Definition market_positions_rejected : list (string * json) :=
  ("/fapi/v2/positionRisk", rejection (-1003) "Too many requests.") :: market "NEW".

(** The exchange does not accept the leverage. *)
Definition market_leverage_refused : list (string * json) :=
  ("/fapi/v1/leverage", rejection (-4028) "Leverage 20 is not valid.")
    :: market "NEW".

Definition bnb_balance : json :=
  obj [("asset", jstr "BNB"); ("availableBalance", jstr "1.5")].

Definition usdt_balance : json :=
  obj [("asset", jstr "USDT"); ("availableBalance", jstr "250.75")].

(** An account holding BNB and USDT. *)
Definition market_with_balance : list (string * json) :=
  ("/fapi/v2/account", obj [("assets", JList [bnb_balance; usdt_balance])])
    :: market "NEW".

(** Every request is rejected. *)
Definition outage_world : World.t :=
  World.mk (fun _ _ => rejection (-1003) "Too many requests.") [] 0
    default_settings db_with_trade.

Definition unparsable_input : TelegramMessageInput.t :=
  TelegramMessageInput.mk unparsable_message (Some (cp "alice")) None.

Definition example_input : TelegramMessageInput.t :=
  TelegramMessageInput.mk example_message (Some (cp "alice"))
    (Some (cp "Telegram Auto")).

(** A message of the monitored group, sent by a user without a first
    name. *)
Definition telegram_message : Message.t :=
  Message.mk (Some example_message) 7
    (Some (Sender.mk (Some (cp "alice")) (Some None))) 0.

(** A callback that raises. *)
Definition failing_callback : option (str -> option str -> nat -> M unit) :=
  Some (fun _ _ _ => lift (Raise ValueError)).

(** * Properties *)

(** ** Rounding *)




(** ** The matcher *)

Lemma startswith_firstn (p s : str) :
  startswith p s = true -> firstn (length p) s = p.
Proof.
  revert s. induction p as [| x p IH]; intros [| y s] H; simpl in *;
    try reflexivity; try discriminate.
  apply andb_true_iff in H. destruct H as [Hx Hp].
  apply N.eqb_eq in Hx. subst y. f_equal. apply IH, Hp.
Qed.

Lemma startswith_str_in (p s : str) :
  startswith p s = true -> str_in p s = true.
Proof. intros H. destruct s; simpl; rewrite H; reflexivity. Qed.

Lemma str_in_tail (p s : str) (c : N) :
  str_in p s = true -> str_in p (c :: s) = true.
Proof. intros H. simpl. rewrite H. apply orb_true_r. Qed.

Lemma many_inv (A : Type) (p : N -> bool) (s : str) (k : str -> option A) (x : A) :
  many p s k = Some x -> exists s', k s' = Some x.
Proof.
  induction s as [| c s IH]; simpl; intros H.
  - eauto.
  - destruct (p c); [| eauto].
    destruct (many p s k) eqn:E.
    + inversion H; subst. apply IH. reflexivity.
    + eauto.
Qed.

Lemma rmatch_lit_inv (A : Type) (l : str) :
  l <> [] ->
  forall (s : str) cap (k : str -> option str -> option A) (x : A),
    rmatch (lit_list l) s cap k = Some x ->
    startswith l s = true /\ k (skipn (length l) s) cap = Some x.
Proof.
  induction l as [| c l IH]; intros Hne s cap k x H; [congruence |].
  destruct l as [| c' l].
  - simpl in H. destruct s as [| y s]; [discriminate |].
    destruct (N.eqb c y) eqn:E; [| discriminate].
    simpl. rewrite E. simpl. auto.
  - change (lit_list (c :: c' :: l)) with (Rseq (lit_char c) (lit_list (c' :: l))) in H.
    simpl rmatch in H. destruct s as [| y s]; [discriminate |].
    destruct (N.eqb c y) eqn:E; [| discriminate].
    apply IH in H; [| discriminate]. destruct H as [Hs Hk].
    split.
    + change (startswith (c :: c' :: l) (y :: s)) with (N.eqb c y && startswith (c' :: l) s).
      rewrite E, Hs. reflexivity.
    + exact Hk.
Qed.

(** A match of the direction pattern starts at LONG or SHORT and captures
    that word. *)
Lemma rmatch_direction (s : str) (g : option str) :
  rmatch DIRECTION_PATTERN s None (fun _ cap => Some cap) = Some g ->
  (startswith (cp "LONG") s = true /\ g = Some (cp "LONG")) \/
  (startswith (cp "SHORT") s = true /\ g = Some (cp "SHORT")).
Proof.
  unfold DIRECTION_PATTERN. intros H.
  cbn [rmatch] in H.
  match type of H with
  | match rmatch (lit "LONG") s None ?k with _ => _ end = _ => set (K := k) in *
  end.
  assert (HK : forall l, startswith l s = true ->
             K (skipn (length l) s) None = Some g -> g = Some l).
  { intros l Hl HKl. unfold K in HKl.
    apply many_inv in HKl. destruct HKl as [s' HKl].
    rewrite length_skipn in HKl.
    assert (Hlen : (length l <= length s)%nat).
    { clear - Hl. revert s Hl. induction l as [| a l IH]; intros [| b s] H;
        simpl in *; try lia; try discriminate.
      apply andb_true_iff in H. destruct H as [_ H]. apply IH in H. lia. }
    replace (length s - (length s - length l))%nat with (length l) in HKl by lia.
    rewrite (startswith_firstn _ _ Hl) in HKl.
    destruct s' as [| c s'].
    - simpl in HKl. inversion HKl. reflexivity.
    - cbv beta iota in HKl.
      destruct (one_of (GREEN ++ RED) c); inversion HKl; reflexivity. }
  destruct (rmatch (lit "LONG") s None K) eqn:E1.
  - inversion H; subst. apply rmatch_lit_inv in E1; [| discriminate].
    destruct E1 as [Hs Hk]. left. split; [exact Hs |].
    apply (HK _ Hs Hk).
  - apply rmatch_lit_inv in H; [| discriminate].
    destruct H as [Hs Hk]. right. split; [exact Hs |].
    apply (HK _ Hs Hk).
Qed.

Lemma re_search_direction (s : str) (g : option str) :
  re_search DIRECTION_PATTERN s = Some g ->
  (str_in (cp "LONG") s = true /\ g = Some (cp "LONG")) \/
  (str_in (cp "SHORT") s = true /\ g = Some (cp "SHORT")).
Proof.
  induction s as [| c s IH]; intros H.
  - simpl in H. discriminate.
  - cbn [re_search] in H.
    destruct (rmatch DIRECTION_PATTERN (c :: s) None (fun _ cap => Some cap)) eqn:E.
    + inversion H; subst.
      destruct (rmatch_direction _ E) as [[Hs Hg] | [Hs Hg]]; [left | right];
        (split; [apply startswith_str_in, Hs | exact Hg]).
    + destruct (IH H) as [[Hs Hg] | [Hs Hg]]; [left | right];
        (split; [apply str_in_tail, Hs | exact Hg]).
Qed.

Section ParserFacts.
Context {U : PyUnicode}.


End ParserFacts.

(** ** Signal extraction *)






(** C7, as stated, fails: a message with both glyphs and no keyword is
    given the direction LONG instead of being rejected. *)
Lemma both_glyphs_are_not_rejected :
  ~ (forall (U : PyUnicode) (message : str),
        str_in (cp "LONG") (py_upper message) = false ->
        str_in (cp "SHORT") (py_upper message) = false ->
        ((exists d, _extract_direction message = Some d) <->
         xorb (str_in GREEN message) (str_in RED message) = true)).
Proof.
  intros H.
  destruct (H latin1 both_glyphs_message ltac:(vm_compute; reflexivity)
              ltac:(vm_compute; reflexivity)) as [Hx _].
  assert (Hd : exists d, @_extract_direction latin1 both_glyphs_message = Some d)
    by (exists (cp "LONG"); vm_compute; reflexivity).
  apply Hx in Hd. vm_compute in Hd. discriminate.
Qed.

(** C7, amended. On a message with no literal LONG or SHORT (in any
    case), the direction is LONG when the green glyph is present, whether
    or not the red one is too; SHORT when only the red glyph is present;
    and extraction fails exactly when neither glyph is present. *)
Theorem extract_direction_glyph_fallback :
  forall (U : PyUnicode) (message : str),
    str_in (cp "LONG") (py_upper message) = false ->
    str_in (cp "SHORT") (py_upper message) = false ->
    _extract_direction message
    = if str_in GREEN message then Some (cp "LONG")
      else if str_in RED message then Some (cp "SHORT")
      else None.
Proof.
  intros U message Hl Hs. unfold _extract_direction.
  destruct (re_search DIRECTION_PATTERN (py_upper message)) as [g |] eqn:E.
  - destruct (re_search_direction _ E) as [[Hin _] | [Hin _]]; congruence.
  - rewrite Hl, Hs. simpl. rewrite !andb_true_r. reflexivity.
Qed.

Lemma extract_direction_glyph_fallback_witness :
  @_extract_direction latin1 red_only_message = Some (cp "SHORT") /\
  @_extract_direction latin1 both_glyphs_message = Some (cp "LONG") /\
  @_extract_direction latin1 (cp "#ETHUSDT 3100 (CMP)") = None.
Proof.
  split; [| split].
  - rewrite (@extract_direction_glyph_fallback latin1 red_only_message);
      vm_compute; reflexivity.
  - rewrite (@extract_direction_glyph_fallback latin1 both_glyphs_message);
      vm_compute; reflexivity.
  - rewrite (@extract_direction_glyph_fallback latin1 (cp "#ETHUSDT 3100 (CMP)"));
      vm_compute; reflexivity.
Defined.

(** ** What a computation leaves unchanged *)

Lemma frame_refl p w : frame p w w.
Proof. unfold frame. auto. Qed.

Lemma frame_trans p a b c : frame p a b -> frame p b c -> frame p a c.
Proof. unfold frame. intuition congruence. Qed.

Section Preserves.
Variable R : World.t -> World.t -> Prop.
Hypothesis R_refl : forall w, R w w.
Hypothesis R_trans : forall a b c, R a b -> R b c -> R a c.

Lemma preserves_ret A (a : A) : preserves R (ret a).
Proof. intros w. apply R_refl. Qed.

Lemma preserves_lift A (r : res A) : preserves R (lift r).
Proof. intros w. apply R_refl. Qed.

Lemma preserves_bind A B (m : M A) (k : A -> M B) :
  preserves R m -> (forall a, preserves R (k a)) -> preserves R (bind m k).
Proof.
  intros Hm Hk w. unfold bind. specialize (Hm w).
  destruct (m w) as [[a | e] w1]; simpl in *.
  - eapply R_trans; [exact Hm | apply Hk].
  - exact Hm.
Qed.

Lemma preserves_try A (m : M A) (h : exn -> M A) :
  preserves R m -> (forall e, preserves R (h e)) -> preserves R (try_except m h).
Proof.
  intros Hm Hh w. unfold try_except. specialize (Hm w).
  destruct (m w) as [[a | e] w1]; simpl in *.
  - exact Hm.
  - eapply R_trans; [exact Hm | apply Hh].
Qed.
End Preserves.

Lemma total_ret A (a : A) : total (ret a).
Proof. intros w. exists a. reflexivity. Qed.

Lemma total_try A (m : M A) (h : exn -> M A) :
  (forall e, total (h e)) -> total (try_except m h).
Proof.
  intros Hh w. unfold try_except.
  destruct (m w) as [[a | e] w1]; [exists a; reflexivity | apply Hh].
Qed.

Lemma frame_make_request p method endpoint params signed :
  p (Request.mk method endpoint params signed) = false ->
  preserves (frame p) (_make_request method endpoint params signed).
Proof.
  intros Hp w. unfold _make_request.
  destruct (_ || _)%bool; simpl; [| apply frame_refl].
  unfold frame; simpl. repeat split; try reflexivity.
  rewrite filter_app. simpl. rewrite Hp. apply app_nil_r.
Qed.

Ltac head_of t :=
  lazymatch t with
  | ?f _ => head_of f
  | _ => t
  end.

Ltac preserve_step :=
  lazymatch goal with
  | |- preserves _ (ret _) => apply preserves_ret; auto using frame_refl
  | |- preserves _ (lift _) => apply preserves_lift; auto using frame_refl
  | |- preserves _ (try_except _ _) =>
      apply preserves_try; [ exact (@frame_trans _) | | intros ]
  | |- preserves _ (bind _ _) =>
      apply preserves_bind; [ exact (@frame_trans _) | | intros ]
  | |- preserves _ (_make_request _ _ _ _) =>
      apply frame_make_request; solve [ auto | reflexivity ]
  | |- preserves _ (let _ := _ in _) => cbv zeta
  | |- preserves _ (match ?x with _ => _ end) => destruct x
  | |- preserves _ ?m => let h := head_of m in unfold h
  end.

Ltac preserve := repeat preserve_step.

Lemma preserves_run (R : World.t -> World.t -> Prop) A (m : M A) w r w' :
  preserves R m -> m w = (r, w') -> R w w'.
Proof. intros H E. specialize (H w). rewrite E in H. exact H. Qed.

Section Quiet.
Context {U : PyUnicode}.
Variable p : Request.t -> bool.
Hypothesis p_get : forall e ps sg, p (Request.mk "GET" e ps sg) = false.
Hypothesis p_leverage :
  forall ps sg, p (Request.mk "POST" "/fapi/v1/leverage" ps sg) = false.
Hypothesis p_margin :
  forall ps sg, p (Request.mk "POST" "/fapi/v1/marginType" ps sg) = false.

Lemma get_positions_frame : preserves (frame p) get_positions.
Proof. unfold get_positions. preserve. Qed.

Lemma get_position_for_symbol_frame symbol :
  preserves (frame p) (get_position_for_symbol symbol).
Proof.
  unfold get_position_for_symbol. preserve.
Qed.

Lemma get_max_leverage_frame symbol : preserves (frame p) (get_max_leverage symbol).
Proof. unfold get_max_leverage. preserve. Qed.

Lemma set_leverage_frame symbol leverage :
  preserves (frame p) (set_leverage symbol leverage).
Proof. unfold set_leverage. preserve. Qed.

Lemma set_margin_type_frame symbol margin_type :
  preserves (frame p) (set_margin_type symbol margin_type).
Proof. unfold set_margin_type. preserve. Qed.

Lemma get_symbol_info_frame symbol : preserves (frame p) (get_symbol_info symbol).
Proof. unfold get_symbol_info. preserve. Qed.

Lemma get_current_price_frame symbol :
  preserves (frame p) (get_current_price symbol).
Proof. unfold get_current_price. preserve. Qed.

Lemma get_min_notional_frame symbol : preserves (frame p) (get_min_notional symbol).
Proof.
  unfold get_min_notional. preserve.
Qed.

Lemma calculate_quantity_frame symbol size leverage entry_price :
  preserves (frame p) (calculate_quantity symbol size leverage entry_price).
Proof.
  unfold calculate_quantity. preserve.
Qed.
End Quiet.

Lemma bind_ok A B (m : M A) (k : A -> M B) w a w1 :
  m w = (Ok a, w1) -> bind m k w = k a w1.
Proof. intros H. unfold bind. rewrite H. reflexivity. Qed.

Lemma Qlt_bool_iff (x y : Q) : Qlt_bool x y = true <-> x < y.
Proof.
  unfold Qlt_bool. rewrite negb_true_iff.
  split; intros H.
  - apply Qnot_le_lt. intros Hle. apply Qle_bool_iff in Hle. congruence.
  - destruct (Qle_bool y x) eqn:E; [| reflexivity].
    apply Qle_bool_iff in E. exfalso. apply (Qlt_not_le _ _ H E).
Qed.

(** ** The pre-checks of [open_position] *)

Section OpenPosition.
Context {U : PyUnicode}.
Variables (symbol side : str) (position_size_usd : Q) (leverage : Z)
          (margin_type : str) (entry_price stop_loss take_profit : Q)
          (time_in_force : str).

Lemma aborted_results (m : fstring) :
  aborted (OpenResult.mk false None None None m).
Proof. unfold aborted. auto. Qed.

Lemma frame_orders (w w' : World.t) :
  frame is_order w w' -> orders_placed w' = orders_placed w.
Proof. unfold frame, orders_placed. intuition. Qed.

Lemma open_position_proceeds (existing : option PositionInfo.t) (w w1 : World.t) :
  get_position_for_symbol symbol w = (Ok existing, w1) ->
  no_live_position existing ->
  open_position symbol side position_size_usd leverage margin_type
    entry_price stop_loss take_profit time_in_force w =
  try_except
    (prepare_and_place symbol side position_size_usd leverage margin_type
       entry_price stop_loss take_profit time_in_force)
    (fun e => ret (OpenResult.mk false None None None (Exn e))) w1.
Proof.
  intros Hg Hn. unfold open_position, try_except.
  rewrite (@bind_ok _ _ _ _ _ _ _ Hg).
  destruct existing as [pos |]; [| reflexivity].
  simpl in Hn.
  destruct (Qlt_bool 0 (PositionInfo.quantity pos)) eqn:E; [| reflexivity].
  apply Qlt_bool_iff in E. contradiction.
Qed.
Ltac no_order H :=
  eapply preserves_run; [| exact H]; preserve.

(** C2. When [open_position] detects a pre-check failure (a live position
    for the symbol, whatever its margin type; a failed quantity
    computation; an entry notional at or below the exchange minimum plus
    the 0.10 buffer) it returns an unsuccessful result with no entry,
    stop-loss or take-profit order, and no order request has been sent. *)
Theorem open_position_precheck_failure_places_no_order :
  forall w : World.t,
    precheck_failure symbol position_size_usd leverage margin_type
      entry_price w ->
    exists (r : OpenResult.t) (w' : World.t),
      open_position symbol side position_size_usd leverage margin_type
        entry_price stop_loss take_profit time_in_force w = (Ok r, w') /\
      aborted r /\
      orders_placed w' = orders_placed w.
Proof.
  intros w [pos w1 Hg Hq
           | existing set quantity w1 w2 w3 w4 Hg Hn Hl Hm Hc Hq
           | existing set quantity base w1 w2 w3 w4 w5 Hg Hn Hl Hm Hc Hq Hb Hle].
  - (* a live position *)
    assert (F : frame is_order w w1) by no_order Hg.
    apply Qlt_bool_iff in Hq.
    unfold open_position, try_except.
    rewrite (@bind_ok _ _ _ _ _ _ _ Hg), Hq.
    destruct (negb (str_eqb (PositionInfo.margin_type pos) margin_type));
      destruct (PositionInfo.notional_value pos) as [n |];
      (eexists; eexists; split; [reflexivity |]);
      (split; [apply aborted_results | apply frame_orders, F]).
  - (* the quantity computation failed *)
    assert (F : frame is_order w w4).
    { apply frame_trans with w1; [no_order Hg |].
      apply frame_trans with w2; [no_order Hl |].
      apply frame_trans with w3; [no_order Hm | no_order Hc]. }
    rewrite (@open_position_proceeds _ _ _ Hg Hn).
    unfold try_except, prepare_and_place.
    rewrite (@bind_ok _ _ _ _ _ _ _ Hl). cbn [negb].
    rewrite (@bind_ok _ _ _ _ _ _ _ Hm).
    rewrite (@bind_ok _ _ _ _ _ _ _ Hc).
    destruct quantity as [q |].
    + simpl in Hq. apply negb_false_iff in Hq. rewrite Hq.
      eexists; eexists; split; [reflexivity |].
      split; [apply aborted_results | apply frame_orders, F].
    + eexists; eexists; split; [reflexivity |].
      split; [apply aborted_results | apply frame_orders, F].
  - (* the notional is too small *)
    assert (F : frame is_order w w5).
    { apply frame_trans with w1; [no_order Hg |].
      apply frame_trans with w2; [no_order Hl |].
      apply frame_trans with w3; [no_order Hm |].
      apply frame_trans with w4; [no_order Hc | no_order Hb]. }
    rewrite (@open_position_proceeds _ _ _ Hg Hn).
    unfold try_except, prepare_and_place.
    rewrite (@bind_ok _ _ _ _ _ _ _ Hl). cbn [negb].
    rewrite (@bind_ok _ _ _ _ _ _ _ Hm).
    rewrite (@bind_ok _ _ _ _ _ _ _ Hc).
    destruct (Qeq_bool quantity 0) eqn:E0.
    { apply Qeq_bool_iff in E0. contradiction. }
    rewrite (@bind_ok _ _ _ _ _ _ _ Hb).
    apply Qle_bool_iff in Hle. rewrite Hle.
    destruct (Z.eqb leverage 0); [| destruct (Qeq_bool position_size_usd 0)];
      (eexists; eexists; split; [reflexivity |]);
      (split; [apply aborted_results | apply frame_orders, F]).
Qed.
End OpenPosition.

Ltac run := lazy; reflexivity.

Lemma open_position_precheck_failure_places_no_order_witness :
  (let w := world_of (market "NEW") Database.empty in
   exists (r : OpenResult.t) (w' : World.t),
     @open_position latin1 (cp "BTCUSDT") (cp "LONG") 4 20 (cp "CROSSED")
       42000 39900 43050 (cp "GTC") w = (Ok r, w') /\
     aborted r /\ orders_placed w' = orders_placed w) /\
  (let w := world_of market_with_position Database.empty in
   exists (r : OpenResult.t) (w' : World.t),
     @open_position latin1 (cp "BTCUSDT") (cp "LONG") 50 20 (cp "CROSSED")
       42000 39900 43050 (cp "GTC") w = (Ok r, w') /\
     aborted r /\ orders_placed w' = orders_placed w).
Proof.
  split.
  - apply open_position_precheck_failure_places_no_order.
    eapply Below_minimum_notional.
    + run.
    + exact I.
    + run.
    + run.
    + run.
    + lazy. discriminate.
    + run.
    + lazy. discriminate.
  - apply open_position_precheck_failure_places_no_order.
    eapply Existing_position.
    + run.
    + lazy. reflexivity.
Defined.

(** ** The protective orders of [open_position] *)

Section ProtectiveOrders.
Context {U : PyUnicode}.
Variables (symbol side : str) (position_size_usd : Q) (leverage : Z)
          (margin_type : str) (entry_price stop_loss take_profit : Q)
          (time_in_force : str).

Lemma place_limit_order_total s sd q pr tif ro :
  total (place_limit_order s sd q pr tif ro).
Proof. apply total_try. intros e. apply total_ret. Qed.

Lemma place_stop_loss_total s sd pr q : total (place_stop_loss s sd pr q).
Proof. apply total_try. intros e. apply total_ret. Qed.

Lemma place_take_profit_total s sd pr q : total (place_take_profit s sd pr q).
Proof. apply total_try. intros e. apply total_ret. Qed.

Lemma total_run A (m : M A) w : total m -> exists a w', m w = (Ok a, w').
Proof.
  intros H. destruct (H w) as [a Ha]. destruct (m w) as [r w'].
  simpl in Ha. subst r. eauto.
Qed.

(** What [place_orders] returns: the entry order failed and nothing
    else was tried, or it succeeded and both protective orders were
    tried and recorded. *)
Lemma place_orders_inv (quantity : Q) (w w' : World.t) (x : res OpenResult.t) :
  place_orders symbol side quantity entry_price stop_loss take_profit
    time_in_force w = (x, w') ->
  exists (e : OrderResult.t) (w1 : World.t),
    place_limit_order symbol (entry_side side) quantity entry_price
      time_in_force false w
    = (Ok e, w1) /\
    ((OrderResult.success e = false /\ w' = w1 /\
      exists m, x = Ok (OpenResult.mk false (Some e) None None m))
     \/
     (OrderResult.success e = true /\
      exists sl tp m,
        protective_orders_of symbol side stop_loss take_profit e w1 w' sl tp /\
        x = Ok (OpenResult.mk true (Some e) (Some sl) (Some tp) m))).
Proof.
  unfold place_orders. fold (entry_side side). fold (sl_side side). intros H.
  destruct (total_run w (place_limit_order_total symbol (entry_side side) quantity
              entry_price time_in_force false)) as (e & w1 & He).
  rewrite (@bind_ok _ _ _ _ _ _ _ He) in H.
  exists e, w1. split; [exact He |].
  destruct (OrderResult.success e); cbn [negb] in H.
  - right. split; [reflexivity |].
    destruct (total_run w1 (place_stop_loss_total symbol (sl_side side) stop_loss
                (OrderResult.quantity e))) as (sl & w2 & Hsl).
    rewrite (@bind_ok _ _ _ _ _ _ _ Hsl) in H.
    destruct (total_run w2 (place_take_profit_total symbol (sl_side side) take_profit
                (OrderResult.quantity e))) as (tp & w3 & Htp).
    rewrite (@bind_ok _ _ _ _ _ _ _ Htp) in H.
    unfold ret in H. inversion H; subst.
    exists sl, tp. eexists. split; [| reflexivity].
    exists w2. auto.
  - left. unfold ret in H. inversion H; subst. eauto.
Qed.

(** How a run of [prepare_and_place] ends. *)
Lemma prepare_and_place_inv (w w' : World.t) (x : res OpenResult.t) :
  prepare_and_place symbol side position_size_usd leverage margin_type
    entry_price stop_loss take_profit time_in_force w = (x, w') ->
  (exists m, x = Ok (OpenResult.mk false None None None m)) \/
  (exists e, x = Raise e) \/
  (exists quantity w0,
     place_orders symbol side quantity entry_price stop_loss take_profit
       time_in_force w0 = (x, w')).
Proof.
  unfold prepare_and_place. intros H.
  unfold bind at 1 in H.
  destruct (set_leverage symbol leverage w) as [[[|] | e] w1];
    [| inversion H; eauto | inversion H; eauto].
  cbn [negb] in H. unfold bind at 1 in H.
  destruct (set_margin_type symbol margin_type w1) as [[b | e] w2];
    [| inversion H; eauto].
  unfold bind at 1 in H.
  destruct (calculate_quantity symbol position_size_usd leverage
              (Some entry_price) w2) as [[[q |] | e] w3];
    [| inversion H; eauto | inversion H; eauto].
  destruct (Qeq_bool q 0); [inversion H; eauto |].
  unfold bind at 1 in H.
  destruct (get_min_notional symbol w3) as [[base | e] w4];
    [| inversion H; eauto].
  destruct (Qle_bool (q * entry_price) (base + (1 # 10))).
  - destruct (Z.eqb leverage 0); [inversion H; eauto |].
    destruct (Qeq_bool position_size_usd 0); inversion H; eauto.
  - right. right. eauto.
Qed.

(** How a run of [open_position] ends. *)
Lemma open_position_inv (w w' : World.t) (x : res OpenResult.t) :
  open_position symbol side position_size_usd leverage margin_type
    entry_price stop_loss take_profit time_in_force w = (x, w') ->
  (exists m, x = Ok (OpenResult.mk false None None None m)) \/
  (exists quantity w0 r,
     x = Ok r /\
     place_orders symbol side quantity entry_price stop_loss take_profit
       time_in_force w0 = (Ok r, w')).
Proof.
  unfold open_position, try_except. intros H.
  unfold bind at 1 in H.
  assert (Hp : forall w0 y w1,
             prepare_and_place symbol side position_size_usd leverage
               margin_type entry_price stop_loss take_profit time_in_force w0
             = (y, w1) ->
             match y with
             | Ok a => (Ok a, w1)
             | Raise e => ret (OpenResult.mk false None None None (Exn e)) w1
             end = (x, w') ->
             (exists m, x = Ok (OpenResult.mk false None None None m)) \/
             (exists quantity w0 r,
                x = Ok r /\
                place_orders symbol side quantity entry_price stop_loss
                  take_profit time_in_force w0 = (Ok r, w'))).
  { intros w0 y w1 Hy Hx.
    destruct (prepare_and_place_inv _ Hy) as [[m ->] | [[e ->] | (q & w2 & Hq)]].
    - inversion Hx; eauto.
    - inversion Hx; eauto.
    - destruct y as [r | e].
      + inversion Hx; subst. right. eauto.
      + inversion Hx; eauto. }
  destruct (get_position_for_symbol symbol w) as [[[pos |] | e] w1].
  - destruct (Qlt_bool 0 (PositionInfo.quantity pos)).
    + destruct (negb (str_eqb (PositionInfo.margin_type pos) margin_type));
        destruct (PositionInfo.notional_value pos);
        inversion H; eauto.
    + destruct (prepare_and_place _ _ _ _ _ _ _ _ _ w1) as [y w2] eqn:Ey.
      eapply Hp; eauto.
  - destruct (prepare_and_place _ _ _ _ _ _ _ _ _ w1) as [y w2] eqn:Ey.
    eapply Hp; eauto.
  - inversion H; eauto.
Qed.

(** C4. Whenever the entry order of [open_position] succeeds, the
    overall result reports success whatever the stop-loss and take-profit
    placements return: both are attempted with the ordered quantity and
    their results, failed or not, are recorded in [sl_order] and
    [tp_order]; no cancellation is sent, so the entry order stands. *)
Theorem open_position_success_despite_protective_orders :
  forall (w w' : World.t) (r : OpenResult.t) (e : OrderResult.t),
    open_position symbol side position_size_usd leverage margin_type
      entry_price stop_loss take_profit time_in_force w = (Ok r, w') ->
    OpenResult.entry_order r = Some e ->
    OrderResult.success e = true ->
    OpenResult.success r = true /\
    (exists (sl tp : OrderResult.t) (w1 : World.t),
        protective_orders_of symbol side stop_loss take_profit e w1 w' sl tp /\
        OpenResult.sl_order r = Some sl /\
        OpenResult.tp_order r = Some tp) /\
    filter is_cancel (World.sent w') = filter is_cancel (World.sent w).
Proof.
  intros w w' r e H He Hs.
  split; [| split].
  - destruct (open_position_inv _ H) as [[m Hm] | (q & w0 & r' & Hr & Hp)].
    + inversion Hm; subst. discriminate.
    + inversion Hr; subst r'.
      destruct (place_orders_inv _ _ Hp)
        as (e' & w1 & _ & [(Hf & _ & m & Hx) | (_ & sl & tp & m & _ & Hx)]);
        inversion Hx; subst; simpl in *.
      * inversion He; subst. congruence.
      * reflexivity.
  - destruct (open_position_inv _ H) as [[m Hm] | (q & w0 & r' & Hr & Hp)].
    + inversion Hm; subst. discriminate.
    + inversion Hr; subst r'.
      destruct (place_orders_inv _ _ Hp)
        as (e' & w1 & _ & [(Hf & _ & m & Hx) | (_ & sl & tp & m & Hpo & Hx)]);
        inversion Hx; subst; simpl in *.
      * inversion He; subst. congruence.
      * inversion He; subst. exists sl, tp, w1. auto.
  - assert (F : frame is_cancel w w').
    { eapply preserves_run; [| exact H]. preserve. }
    apply F.
Qed.
End ProtectiveOrders.

Lemma open_position_success_despite_protective_orders_witness :
  let w := world_of (market "NEW") Database.empty in
  let run := @open_position latin1 (cp "BTCUSDT") (cp "LONG") 50 20
               (cp "CROSSED") 42000 39900 43050 (cp "GTC") w in
  let r := result_of run in
  OpenResult.success r = true /\
  option_map OrderResult.success (OpenResult.sl_order r) = Some false /\
  option_map OrderResult.success (OpenResult.tp_order r) = Some false /\
  filter is_cancel (World.sent (snd run)) = filter is_cancel (World.sent w).
Proof.
  intros w run r.
  assert (Hrun : run = (Ok r, snd run)) by run.
  assert (He : OpenResult.entry_order r = Some (entry_of r)) by run.
  assert (Hs : OrderResult.success (entry_of r) = true) by run.
  destruct (@open_position_success_despite_protective_orders latin1
              (cp "BTCUSDT") (cp "LONG") 50 20 (cp "CROSSED") 42000 39900 43050
              (cp "GTC") w (snd run) r (entry_of r) Hrun He Hs)
    as (Hok & _ & Hcancel).
  split; [exact Hok |].
  split; [run |].
  split; [run | exact Hcancel].
Defined.

(** ** Creating the trade record *)

Lemma get_config_keeps_records (user_id : Z) (w w1 : World.t)
      (x : res TradeManagementConfig.t) :
  get_config user_id w = (x, w1) ->
  (exists config, x = Ok config) /\
  Database.trades (World.db w1) = Database.trades (World.db w) /\
  Database.signal_messages (World.db w1) = Database.signal_messages (World.db w) /\
  Database.market_messages (World.db w1) = Database.market_messages (World.db w) /\
  World.sent w1 = World.sent w.
Proof.
  unfold get_config, bind, get_db. 
  destruct (find _ _) as [config |].
  - unfold ret. intros H. inversion H; subst. eauto 6.
  - unfold get_settings, add_config, bind, get_db, put_db, ret. simpl.
    intros H. inversion H; subst. simpl. eauto 6.
Qed.

Section ExecuteTrade.
Context {U : PyUnicode}.
Variables (signal_id user_id : Z).

End ExecuteTrade.


(** ** Closing a trade *)

Lemma str_eqb_eq (a b : str) : str_eqb a b = true <-> a = b.
Proof.
  revert b. induction a as [| x a IH]; intros [| y b]; simpl;
    try (split; [discriminate | discriminate]); try tauto.
  rewrite andb_true_iff, N.eqb_eq, IH.
  split; [intros [-> ->]; reflexivity | intros H; inversion H; auto].
Qed.

Section CloseTrade.
Context {U : PyUnicode}.
Variable trade_id : Z.

(** C10. If the trade does not exist, is not OPEN, or the exchange-side
    close fails, [close_trade] returns an unsuccessful result and the
    database is exactly as before: the stored trade keeps its status,
    closed_at, exit_price, exit_reason, pnl and pnl_percent. *)
Theorem close_trade_failure_leaves_trade_unchanged :
  forall w : World.t,
    close_failure trade_id w ->
    exists (r : CloseResult.t) (w' : World.t),
      close_trade trade_id w = (Ok r, w') /\
      CloseResult.success r = false /\
      CloseResult.trade r = None /\
      World.db w' = World.db w /\
      trade_with_id trade_id w' = trade_with_id trade_id w.
Proof.
  intros w [Hf | trade Hf Hst | trade cr w1 Hf Hst Hc Hs];
    unfold close_trade, try_except; unfold bind at 1; unfold get_db at 1;
    unfold trade_with_id in Hf; rewrite Hf.
  - eexists; eexists. split; [reflexivity |]. auto.
  - destruct (str_eqb (Trade.status trade) (cp "OPEN")) eqn:E.
    + apply str_eqb_eq in E. contradiction.
    + eexists; eexists. split; [reflexivity |]. auto.
  - assert (F : frame (fun _ => false) w w1).
    { eapply preserves_run; [| exact Hc]. preserve. }
    destruct F as (_ & _ & _ & Hdb & _).
    apply str_eqb_eq in Hst. rewrite Hst. cbn [negb].
    rewrite (@bind_ok _ _ _ _ _ _ _ Hc), Hs.
    eexists; eexists. split; [reflexivity |].
    unfold trade_with_id. rewrite Hdb. auto.
Qed.
End CloseTrade.

Lemma close_trade_failure_leaves_trade_unchanged_witness :
  let w := world_of (market "NEW") db_with_trade in
  (exists (r : CloseResult.t) (w' : World.t),
      @close_trade latin1 1 w = (Ok r, w') /\
      CloseResult.success r = false /\
      CloseResult.trade r = None /\
      World.db w' = World.db w /\
      trade_with_id 1 w' = Some open_btc_trade) /\
  (exists (r : CloseResult.t) (w' : World.t),
      @close_trade latin1 7 w = (Ok r, w') /\
      CloseResult.success r = false /\
      CloseResult.trade r = None /\
      World.db w' = World.db w /\
      trade_with_id 7 w' = None).
Proof.
  intros w. split.
  - apply (@close_trade_failure_leaves_trade_unchanged latin1 1 w).
    eapply Exchange_close_failed.
    + run.
    + run.
    + run.
    + run.
  - apply (@close_trade_failure_leaves_trade_unchanged latin1 7 w).
    apply Trade_missing. run.
Defined.

(** ** Storing the raw message *)

Lemma keeps_messages_refl w : keeps_messages w w.
Proof. reflexivity. Qed.

Lemma keeps_messages_trans a b c :
  keeps_messages a b -> keeps_messages b c -> keeps_messages a c.
Proof. unfold keeps_messages. congruence. Qed.

Lemma frame_keeps_messages p w w' : frame p w w' -> keeps_messages w w'.
Proof. unfold frame, keeps_messages. intuition congruence. Qed.

Section RawMessage.
Context {U : PyUnicode}.

Lemma open_position_keeps_messages s sd size lev mt e sl tp tif :
  preserves keeps_messages (open_position s sd size lev mt e sl tp tif).
Proof.
  intros w. apply frame_keeps_messages with (p := fun _ => false).
  revert w. change (preserves (frame (fun _ => false))
                      (open_position s sd size lev mt e sl tp tif)).
  preserve.
Qed.

Lemma get_config_keeps_messages user_id :
  preserves keeps_messages (get_config user_id).
Proof.
  intros w. destruct (get_config user_id w) as [x w1] eqn:E.
  apply get_config_keeps_records in E. simpl. apply E.
Qed.

Lemma execute_trade_keeps_messages signal_id user_id :
  preserves keeps_messages (execute_trade_from_signal signal_id user_id).
Proof.
  unfold execute_trade_from_signal.
  repeat
    lazymatch goal with
    | |- preserves _ (ret _) => apply preserves_ret; exact keeps_messages_refl
    | |- preserves _ (try_except _ _) =>
        apply preserves_try; [ exact keeps_messages_trans | | intros ]
    | |- preserves _ (bind _ _) =>
        apply preserves_bind; [ exact keeps_messages_trans | | intros ]
    | |- preserves _ (open_position _ _ _ _ _ _ _ _ _) =>
        apply open_position_keeps_messages
    | |- preserves _ (get_config _) => apply get_config_keeps_messages
    | |- preserves _ get_db => intros w; reflexivity
    | |- preserves _ utcnow => intros w; reflexivity
    | |- preserves _ (add_trade _) => intros w; reflexivity
    | |- preserves _ (let _ := _ in _) => cbv zeta
    | |- preserves _ (match ?x with _ => _ end) => destruct x
    end.
Qed.

Lemma execute_trade_total signal_id user_id :
  total (execute_trade_from_signal signal_id user_id).
Proof. apply total_try. intros e. apply total_ret. Qed.

Lemma process_telegram_message_stores (message_input : TelegramMessageInput.t)
      (user_id : Z) (auto_execute : bool) (w : World.t) :
  exists (r : ProcessResult.t) (w' : World.t),
    process_telegram_message message_input user_id auto_execute w = (Ok r, w') /\
    stored message_input w w'.
Proof.
  unfold process_telegram_message, try_except.
  destruct (get_config user_id w) as [x w1] eqn:Ec.
  pose proof Ec as Hk. apply get_config_keeps_records in Hk.
  destruct Hk as ([config ->] & _ & _ & Hmm & _).
  rewrite (@bind_ok _ _ _ _ _ _ _ Ec).
  unfold bind at 1. unfold utcnow at 1.
  unfold bind at 1. unfold add_market_message at 1.
  unfold bind at 1. unfold get_db at 1. unfold bind at 1. unfold put_db at 1.
  unfold ret at 1.
  cbn [World.db World.clock World.exchange World.sent World.settings].
  set (row := MarketMessage.mk _ _ _ _).
  set (w2 := World.mk _ _ _ _ _).
  assert (Hst : forall w', keeps_messages w2 w' -> stored message_input w w').
  { intros w' Hk. exists row. unfold keeps_messages in Hk. rewrite Hk.
    subst w2. simpl. rewrite Hmm. auto. }
  destruct (parse_message _ _) as [parsed |].
  - unfold bind at 1. unfold utcnow at 1.
    unfold bind at 1. unfold add_signal at 1.
    unfold bind at 1. unfold get_db at 1. unfold bind at 1. unfold put_db at 1.
    unfold ret at 1.
    cbn [World.db World.clock World.exchange World.sent World.settings].
    set (signal := SignalMessage.mk _ _ _ _ _ _ _ _ _).
    set (w3 := World.mk _ _ _ _ _).
    assert (H23 : keeps_messages w2 w3) by reflexivity.
    destruct (auto_execute && TradeManagementConfig.auto_execute_trades config).
    + destruct (total_run w3 (execute_trade_total (SignalMessage.id signal) user_id))
        as (tr & w4 & He).
      rewrite (@bind_ok _ _ _ _ _ _ _ He).
      eexists; eexists. split; [reflexivity |].
      apply Hst. apply keeps_messages_trans with w3; [exact H23 |].
      eapply preserves_run; [apply execute_trade_keeps_messages | exact He].
    + eexists; eexists. split; [reflexivity |]. apply Hst, H23.
  - eexists; eexists. split; [reflexivity |]. apply Hst. reflexivity.
Qed.
End RawMessage.

(** C8, as stated, fails on the listener's path: [_handle_signal] drops a
    message on which extraction fails without storing it. *)
Lemma handle_signal_drops_unparsable_message :
  ~ (forall (U : PyUnicode) (text sender : str) (timestamp : nat) (w : World.t),
        exists row : MarketMessage.t,
          Database.market_messages
            (World.db (snd (_handle_signal text sender timestamp w)))
          = Database.market_messages (World.db w) ++ [row] /\
          MarketMessage.text row = text).
Proof.
  intros H.
  destruct (H latin1 unparsable_message (cp "alice") 0%nat
              (world_of (market "NEW") Database.empty)) as (row & Hrow & _).
  vm_compute in Hrow. discriminate.
Qed.

(** C8, amended. [process_telegram_message] stores the raw message before
    extraction is attempted, so every message given to it is stored,
    whether extraction succeeds or not. The listener's [_handle_signal]
    passes on only the messages that contain '#' and that the default
    parser accepts, which are then stored; every other message leaves the
    world untouched. *)
Theorem raw_message_is_stored_by_process_telegram_message :
  (forall (U : PyUnicode) (message_input : TelegramMessageInput.t)
          (user_id : Z) (auto_execute : bool) (w : World.t),
      exists (r : ProcessResult.t) (w' : World.t),
        process_telegram_message message_input user_id auto_execute w
        = (Ok r, w') /\
        stored message_input w w') /\
  (forall (U : PyUnicode) (text sender : str) (timestamp : nat) (w : World.t),
      let w' := snd (_handle_signal text sender timestamp w) in
      (str_in (cp "#") text = true ->
       parse_message default_parser text <> None ->
       stored (TelegramMessageInput.mk text (Some sender)
                 (Some (cp "Telegram Auto"))) w w') /\
      (str_in (cp "#") text = false \/ parse_message default_parser text = None ->
       w' = w)).
Proof.
  split.
  - intros U message_input user_id auto_execute w.
    apply process_telegram_message_stores.
  - intros U text sender timestamp w w'. subst w'. unfold _handle_signal.
    split.
    + intros Hh Hp. rewrite Hh. cbn [negb].
      destruct (parse_message default_parser text) as [parsed |]; [| congruence].
      unfold try_except. unfold bind at 1. unfold get_settings at 1.
      destruct (process_telegram_message_stores
                  (TelegramMessageInput.mk text (Some sender)
                     (Some (cp "Telegram Auto")))
                  1 (Settings.auto_execute_trades (World.settings w)) w)
        as (r & w1 & Hr & Hst).
      rewrite (@bind_ok _ _ _ _ _ _ _ Hr). exact Hst.
    + intros [Hh | Hp].
      * rewrite Hh. reflexivity.
      * destruct (negb (str_in (cp "#") text)); [reflexivity |].
        rewrite Hp. reflexivity.
Qed.

Lemma raw_message_is_stored_by_process_telegram_message_witness :
  let w := world_of (market "NEW") Database.empty in
  stored (TelegramMessageInput.mk example_message (Some (cp "alice"))
            (Some (cp "Telegram Auto")))
         w (snd (@_handle_signal latin1 example_message (cp "alice") 0%nat w)) /\
  snd (@_handle_signal latin1 unparsable_message (cp "alice") 0%nat w) = w /\
  (exists (r : ProcessResult.t) (w' : World.t),
      @process_telegram_message latin1
        (TelegramMessageInput.mk unparsable_message (Some (cp "alice")) None)
        1 true w = (Ok r, w') /\
      stored (TelegramMessageInput.mk unparsable_message (Some (cp "alice")) None)
             w w').
Proof.
  intros w. split; [| split].
  - apply (proj2 raw_message_is_stored_by_process_telegram_message latin1
             example_message (cp "alice") 0%nat w).
    + vm_compute. reflexivity.
    + vm_compute. discriminate.
  - apply (proj2 raw_message_is_stored_by_process_telegram_message latin1
             unparsable_message (cp "alice") 0%nat w).
    right. vm_compute. reflexivity.
  - apply (proj1 raw_message_is_stored_by_process_telegram_message latin1).
Defined.

(** ** The quantity and its precision *)

Lemma strip_left_id (s : str) :
  Forall (fun c => is_space c = false) s -> strip_left s = s.
Proof.
  intros H. destruct H as [| c s Hc Hs]; simpl; [reflexivity |].
  rewrite Hc. reflexivity.
Qed.

Lemma strip_id (s : str) :
  Forall (fun c => is_space c = false) s -> strip s = s.
Proof.
  intros H. unfold strip. rewrite (strip_left_id H).
  rewrite strip_left_id; [apply rev_involutive |].
  apply Forall_rev, H.
Qed.








Section Quantity.
Context {U : PyUnicode}.


End Quantity.


(** ** Reconciliation *)

Lemma replace_trade_ids (t : Trade.t) (rows : list Trade.t) :
  map Trade.id (replace_trade t rows) = map Trade.id rows.
Proof.
  induction rows as [| r rows IH]; simpl; [reflexivity |].
  destruct (Z.eqb (Trade.id r) (Trade.id t)) eqn:E; simpl.
  - apply Z.eqb_eq in E. congruence.
  - rewrite IH. reflexivity.
Qed.

Lemma replace_trade_other (t r : Trade.t) (rows : list Trade.t) :
  In r rows -> Trade.id r <> Trade.id t -> In r (replace_trade t rows).
Proof.
  induction rows as [| x rows IH]; simpl; [tauto |].
  intros [-> | Hin] Hne.
  - destruct (Z.eqb (Trade.id r) (Trade.id t)) eqn:E.
    + apply Z.eqb_eq in E. contradiction.
    + left. reflexivity.
  - destruct (Z.eqb (Trade.id x) (Trade.id t)); simpl; auto.
Qed.

Lemma replace_trade_in (t : Trade.t) (rows : list Trade.t) :
  In (Trade.id t) (map Trade.id rows) -> In t (replace_trade t rows).
Proof.
  induction rows as [| x rows IH]; simpl; [tauto |].
  intros [E | Hin].
  - rewrite E, Z.eqb_refl. left. reflexivity.
  - destruct (Z.eqb (Trade.id x) (Trade.id t)); simpl; auto.
Qed.

(** A selection of rows of a table with distinct keys has distinct keys. *)
Lemma selected_trades_distinct (keep : Trade.t -> bool) (rows : list Trade.t) :
  NoDup (map Trade.id rows) -> NoDup (map Trade.id (filter keep rows)).
Proof.
  intros Hrows. induction rows as [| r rows IH]; cbn [filter map] in *.
  - constructor.
  - apply NoDup_cons_iff in Hrows. destruct Hrows as [Hr Hrows].
    destruct (keep r); cbn [map]; [| exact (IH Hrows)].
    apply NoDup_cons_iff. split; [| exact (IH Hrows)].
    intros Hin. apply Hr.
    apply in_map_iff in Hin. destruct Hin as (x & Hx & Hin).
    rewrite <- Hx. apply in_map. apply filter_In in Hin. tauto.
Qed.

Lemma Qeq_bool_false (x y : Q) : Qeq_bool x y = false <-> ~ x == y.
Proof.
  split.
  - intros H E. apply Qeq_bool_iff in E. congruence.
  - intros H. destruct (Qeq_bool x y) eqn:E; [| reflexivity].
    apply Qeq_bool_iff in E. contradiction.
Qed.




Section Reconciliation.
Context {U : PyUnicode}.

Lemma get_current_price_total symbol : total (get_current_price symbol).
Proof. apply total_try. intros e. apply total_ret. Qed.

(** One turn of the loop on a trade without position. *)
Lemma reconcile_step (trade : Trade.t) (w : World.t) :
  exists (price : option Q) (wa wb w1 : World.t),
    World.exchange wa = World.exchange w /\
    World.exchange w1 = World.exchange w /\
    get_current_price (Trade.pair trade) wa = (Ok price, wb) /\
    bind utcnow
      (fun now =>
         bind (get_current_price (Trade.pair trade))
           (fun current_price =>
              update_trade (reconciled trade now current_price))) w
    = (Ok tt, w1) /\
    Database.trades (World.db w1)
    = replace_trade (reconciled trade (World.clock w) price)
        (Database.trades (World.db w)).
Proof.
  unfold bind at 1. unfold utcnow at 1.
  set (wa := World.mk _ _ _ _ _).
  destruct (total_run wa (get_current_price_total (Trade.pair trade)))
    as (price & wb & Hp).
  assert (F : frame (fun _ => false) wa wb).
  { eapply preserves_run; [| exact Hp]. preserve. }
  destruct F as (Hex & _ & _ & Hdb & _).
  exists price, wa, wb. eexists. split; [reflexivity |].
  split; [| split; [exact Hp |]].
  2:{ rewrite (@bind_ok _ _ _ _ _ _ _ Hp).
      unfold update_trade, bind, get_db, put_db. split; [reflexivity |].
      simpl. rewrite Hdb. reflexivity. }
  simpl. exact Hex.
Qed.

(** The loop: the table keeps its keys, the rows of other trades stay,
    and each trade without position is replaced by its reconciled
    version, built from the price looked up at its turn. *)
Lemma sync_loop_spec (symbols : list json) (todo : list Trade.t) :
  forall w : World.t,
    NoDup (map Trade.id (Database.trades (World.db w))) ->
    NoDup (map Trade.id todo) ->
    (forall t, In t todo -> In t (Database.trades (World.db w))) ->
    exists w' : World.t,
      sync_loop symbols todo w = (Ok tt, w') /\
      World.exchange w' = World.exchange w /\
      map Trade.id (Database.trades (World.db w'))
      = map Trade.id (Database.trades (World.db w)) /\
      (forall r, In r (Database.trades (World.db w)) ->
                 ~ In (Trade.id r) (map Trade.id todo) ->
                 In r (Database.trades (World.db w'))) /\
      (forall t, In t todo -> no_position symbols (Trade.pair t) ->
                 exists (now : nat) (price : option Q) (wa wb : World.t),
                   World.exchange wa = World.exchange w /\
                   get_current_price (Trade.pair t) wa = (Ok price, wb) /\
                   In (reconciled t now price) (Database.trades (World.db w'))).
Proof.
  induction todo as [| t rest IH]; intros w Hnd Hnt Hin.
  - exists w. split; [reflexivity |]. split; [reflexivity |].
    split; [reflexivity |]. split; [auto |]. intros t [].
  - inversion Hnt as [| x xs Hfresh Hrest]; subst.
    cbn [sync_loop].
    destruct (existsb (fun s => eq_str s (Trade.pair t)) symbols) eqn:Ex;
      cbn [negb].
    + (* a position exists: the trade is left alone *)
      unfold bind at 1. unfold ret at 1.
      destruct (IH w Hnd Hrest (fun r Hr => Hin r (or_intror Hr)))
        as (w' & Hrun & Hex' & Hids & Hkeep & Hdone).
      exists w'. split; [exact Hrun |]. split; [exact Hex' |].
      split; [exact Hids |]. split.
      * intros r Hr Hn. apply Hkeep; [exact Hr |].
        intros Hi. apply Hn. right. exact Hi.
      * intros r [<- | Hr] Hno.
        -- unfold no_position in Hno. congruence.
        -- apply Hdone; assumption.
    + (* no position: the trade is reconciled *)
      destruct (reconcile_step t w)
        as (price & wa & wb & w1 & Hexa & Hex1 & Hp & Hstep & Hdb).
      rewrite (@bind_ok _ _ _ _ _ _ _ Hstep).
      set (t' := reconciled t (World.clock w) price) in *.
      assert (Hids1 : map Trade.id (Database.trades (World.db w1))
                      = map Trade.id (Database.trades (World.db w))).
      { rewrite Hdb. apply replace_trade_ids. }
      assert (Hother : forall r, In r (Database.trades (World.db w)) ->
                                 Trade.id r <> Trade.id t ->
                                 In r (Database.trades (World.db w1))).
      { intros r Hr Hne. rewrite Hdb. apply replace_trade_other; assumption. }
      assert (Ht' : In t' (Database.trades (World.db w1))).
      { rewrite Hdb. apply replace_trade_in.
        change (Trade.id t') with (Trade.id t).
        apply in_map. apply Hin. left. reflexivity. }
      destruct (IH w1) as (w' & Hrun & Hex' & Hids & Hkeep & Hdone).
      * rewrite Hids1. exact Hnd.
      * exact Hrest.
      * intros r Hr. apply Hother; [apply Hin; right; exact Hr |].
        intros E. apply Hfresh. rewrite <- E. apply in_map, Hr.
      * exists w'. split; [exact Hrun |].
        split; [rewrite Hex'; exact Hex1 |].
        split; [rewrite Hids; exact Hids1 |]. split.
        -- intros r Hr Hn. apply Hkeep.
           ++ apply Hother; [exact Hr |]. intros E. apply Hn. left. auto.
           ++ intros Hi. apply Hn. right. exact Hi.
        -- intros r [<- | Hr] Hno.
           ++ exists (World.clock w), price, wa, wb. split; [exact Hexa |].
              split; [exact Hp |].
              apply Hkeep; [exact Ht' |]. exact Hfresh.
           ++ destruct (Hdone r Hr Hno) as (now & pr & wc & wd & Hc & Hd & Hi).
              exists now, pr, wc, wd. split; [rewrite Hc; exact Hex1 |]. auto.
Qed.

End Reconciliation.



(** ** The position list *)

Lemma Qabs_pos_nonzero (q : Q) : ~ q == 0 -> 0 < Qabs q.
Proof.
  intros H. apply Qabs_case; intros Hq.
  - destruct (Qlt_le_dec 0 q) as [Hl | Hl]; [exact Hl |].
    exfalso. apply H. apply Qle_antisym; assumption.
  - destruct (Qlt_le_dec q 0) as [Hl | Hl].
    + lra.
    + exfalso. apply H. apply Qle_antisym; assumption.
Qed.

(** One step through a chain of [let?] bindings and tests. *)
Ltac res_step H :=
  match type of H with
  | res_bind ?r _ = _ =>
      let E := fresh "E" in
      destruct r eqn:E; cbn [res_bind] in H; [| discriminate H]
  | (if ?b then _ else _) = _ =>
      let E := fresh "E" in destruct b eqn:E
  end.

Section PositionEntries.
Context {U : PyUnicode}.

Lemma position_of_live (pos : json) (p : PositionInfo.t) :
  position_of pos = Ok (Some p) ->
  live_position p /\ getitem pos "symbol" = Ok (PositionInfo.symbol p).
Proof.
  unfold position_of. intros H.
  do 2 res_step H.
  res_step H; [| discriminate H].
  repeat res_step H; try discriminate H.
  all: inversion H; subst; clear H; unfold live_position; cbn.
  all: apply negb_true_iff, Qeq_bool_false in E1.
  all: repeat split; try discriminate; try (apply Qabs_pos_nonzero; assumption).
  all: match goal with |- context [Qlt_bool 0 ?x] => destruct (Qlt_bool 0 x) end; auto.
Qed.
End PositionEntries.

Section PositionList.
Context {U : PyUnicode}.

Lemma collect_positions_live (items : list json) (ps : list PositionInfo.t) :
  collect_positions items = Ok ps -> Forall live_position ps.
Proof.
  revert ps. induction items as [| pos rest IH]; cbn [collect_positions]; intros ps H.
  - inversion H. constructor.
  - destruct (position_of pos) as [[p |] | e] eqn:Ep; cbn [res_bind] in H;
      [| | discriminate H];
      (destruct (collect_positions rest) as [qs | e] eqn:Er; cbn [res_bind] in H;
       [| discriminate H]);
      inversion H; subst.
    + constructor; [apply (position_of_live _ Ep) | apply IH; reflexivity].
    + apply IH. reflexivity.
Qed.

(** What a run of [get_positions] is: one query, answered or not. *)
Lemma get_positions_run (w : World.t) :
  let response := World.exchange w (length (World.sent w)) position_query in
  let w' := World.mk (World.exchange w) (World.sent w ++ [position_query])
              (World.clock w) (World.settings w) (World.db w) in
  get_positions w
  = (Ok (match (let? items := iter response in collect_positions items) with
         | Ok ps => ps
         | Raise _ => []
         end), w').
Proof.
  cbv zeta. unfold get_positions, try_except, bind, _make_request, lift, ret.
  cbn [String.eqb Ascii.eqb Bool.eqb orb].
  fold position_query.
  destruct (let? items := iter _ in collect_positions items); reflexivity.
Qed.
End PositionList.

Section PositionAnswers.
Context {U : PyUnicode}.

Lemma get_positions_answer (w : World.t) :
  get_positions w
  = (Ok (match (let? items := iter (next_answer w position_query) in
                collect_positions items) with
         | Ok ps => ps
         | Raise _ => []
         end), after_request w position_query).
Proof. apply get_positions_run. Qed.

Lemma collect_positions_unreadable (items : list json) (pos : json) :
  In pos items -> unreadable_position pos ->
  exists e, collect_positions items = Raise e.
Proof.
  intros Hin [e He]. induction items as [| x rest IH]; [destruct Hin |].
  cbn [collect_positions].
  destruct Hin as [-> | Hin].
  - rewrite He. cbn [res_bind]. eauto.
  - destruct (position_of x) as [p | e']; cbn [res_bind]; [| eauto].
    destruct (IH Hin) as [e' ->]. cbn [res_bind]. eauto.
Qed.

(** A text or a dict is iterated character by character, key by key:
    no such element can be read as a position. *)
Lemma collect_positions_strings (A : Type) (f : A -> str) (l : list A) :
  match collect_positions (map (fun x => JStr (f x)) l) with
  | Ok ps => ps
  | Raise _ => []
  end = [].
Proof. destruct l as [| x l]; reflexivity. Qed.

Lemma get_positions_not_a_list (w : World.t) :
  (forall l, next_answer w position_query <> JList l) ->
  get_positions w = (Ok [], after_request w position_query).
Proof.
  intros H. rewrite get_positions_answer.
  destruct (next_answer w position_query) as [| b | z | s | l | d]; try reflexivity.
  - cbn [iter res_bind].
    rewrite (collect_positions_strings (fun c => [c]) s). reflexivity.
  - exfalso. apply (H l). reflexivity.
  - cbn [iter res_bind].
    rewrite (collect_positions_strings (@fst str json) d). reflexivity.
Qed.

Lemma get_positions_unreadable (w : World.t) (l : list json) (pos : json) :
  next_answer w position_query = JList l ->
  In pos l -> unreadable_position pos ->
  get_positions w = (Ok [], after_request w position_query).
Proof.
  intros Hl Hin Hbad. rewrite get_positions_answer, Hl. cbn [iter res_bind].
  destruct (collect_positions_unreadable _ Hin Hbad) as [e ->].
  reflexivity.
Qed.

Lemma get_position_for_symbol_live (symbol : str) (w w1 : World.t)
      (pos : PositionInfo.t) :
  get_position_for_symbol symbol w = (Ok (Some pos), w1) ->
  live_position pos /\ eq_str (PositionInfo.symbol pos) symbol = true /\
  w1 = after_request w position_query.
Proof.
  unfold get_position_for_symbol, bind. rewrite get_positions_answer.
  unfold ret. intros H. inversion H as [[Hf Hw]]. clear H.
  apply find_some in Hf. destruct Hf as [Hin Hs].
  split; [| split; [exact Hs | reflexivity]].
  destruct (let? items := iter _ in collect_positions items) as [ps | e] eqn:E;
    [| destruct Hin].
  destruct (iter (next_answer w position_query)) as [items | e]; [| discriminate E].
  cbn [res_bind] in E. apply collect_positions_live in E.
  rewrite Forall_forall in E. apply E, Hin.
Qed.
End PositionAnswers.

(** X1. Every position [get_positions] returns has a strictly positive
    quantity, the side LONG or SHORT, and its notional value and mark
    price set; the call never fails, sends the one position query and
    leaves the database alone. *)
Theorem get_positions_reports_live_positions :
  forall (U : PyUnicode) (w : World.t),
  exists ps : list PositionInfo.t,
    get_positions w = (Ok ps, after_request w position_query) /\
    Forall live_position ps.
Proof.
  intros U w. rewrite get_positions_answer.
  eexists. split; [reflexivity |].
  destruct (iter (next_answer w position_query)) as [items | e];
    cbn [res_bind]; [| constructor].
  destruct (collect_positions items) as [ps | e] eqn:E; [| constructor].
  apply (collect_positions_live _ E).
Qed.

(** X2. The position list is all or nothing: when the answer to the
    position query is not a list (an error document, say), or is a list
    with an entry that cannot be read, [get_positions] reports no
    position at all. *)
Theorem get_positions_is_all_or_nothing :
  forall (U : PyUnicode) (w : World.t),
    ((forall l, next_answer w position_query <> JList l) \/
     (exists l pos, next_answer w position_query = JList l /\
                    In pos l /\ unreadable_position pos)) ->
    get_positions w = (Ok [], after_request w position_query).
Proof.
  intros U w [H | (l & pos & Hl & Hin & Hbad)].
  - apply get_positions_not_a_list, H.
  - apply (get_positions_unreadable _ Hl Hin Hbad).
Qed.

Lemma get_positions_is_all_or_nothing_witness :
  let w := world_of market_positions_rejected db_with_trade in
  @get_positions latin1 w = (Ok [], after_request w position_query).
Proof.
  intros w. apply get_positions_is_all_or_nothing.
  left. intros l. lazy. discriminate.
Defined.

(** ** The early exits of [open_position] *)

Section EarlyExits.
Context {U : PyUnicode}.
Variables (symbol side : str) (position_size_usd : Q) (leverage : Z)
          (margin_type : str) (entry_price stop_loss take_profit : Q)
          (time_in_force : str).

(** X3. Whenever the position query reports a position for the symbol,
    [open_position] refuses: the result is unsuccessful and carries no
    order, and nothing is sent after the position query (no leverage or
    margin-type change, no order). The guard on the quantity never lets
    a reported position through, since only non-zero positions are
    reported. *)
Theorem open_position_refuses_reported_position :
  forall (w w1 : World.t) (pos : PositionInfo.t),
    get_position_for_symbol symbol w = (Ok (Some pos), w1) ->
    exists r : OpenResult.t,
      open_position symbol side position_size_usd leverage margin_type
        entry_price stop_loss take_profit time_in_force w = (Ok r, w1) /\
      aborted r /\
      World.sent w1 = World.sent w ++ [position_query].
Proof.
  intros w w1 pos Hg.
  destruct (get_position_for_symbol_live _ _ Hg) as ((Hq & _ & Hn & _) & _ & Hw).
  unfold open_position, try_except.
  rewrite (@bind_ok _ _ _ _ _ _ _ Hg).
  apply Qlt_bool_iff in Hq. rewrite Hq.
  destruct (PositionInfo.notional_value pos) as [n |]; [| congruence].
  destruct (negb (str_eqb (PositionInfo.margin_type pos) margin_type));
    (eexists; split; [reflexivity |]);
    (split; [apply aborted_results | rewrite Hw; reflexivity]).
Qed.
End EarlyExits.

Lemma open_position_refuses_reported_position_witness :
  let w := world_of market_with_position db_with_signal in
  let w1 := after_request w position_query in
  exists r : OpenResult.t,
    @open_position latin1 (cp "BTCUSDT") (cp "LONG") 50 20 (cp "CROSSED")
      42000 39900 43050 (cp "GTC") w = (Ok r, w1) /\
    aborted r /\
    World.sent w1 = World.sent w ++ [position_query].
Proof.
  intros w w1.
  eapply open_position_refuses_reported_position. run.
Defined.

(** ** Leverage *)

Section Leverage.
Context {U : PyUnicode}.

Lemma get_max_leverage_total (symbol : str) (w : World.t) :
  exists m : Z,
    get_max_leverage symbol w = (Ok m, after_request w (bracket_query symbol)).
Proof.
  unfold get_max_leverage, try_except, bind, _make_request, lift, ret.
  cbn [String.eqb Ascii.eqb Bool.eqb orb].
  fold (bracket_query symbol). fold (next_answer w (bracket_query symbol)).
  fold (after_request w (bracket_query symbol)).
  match goal with
  | |- exists m, match ?x with _ => _ end = _ => destruct x as [m | e]; eauto
  end.
Qed.

Lemma set_leverage_run (symbol : str) (leverage m : Z) (w w1 : World.t) :
  get_max_leverage symbol w = (Ok m, w1) ->
  let request := leverage_request symbol (Z.min leverage m) in
  set_leverage symbol leverage w
  = (Ok (has_key "leverage" (next_answer w1 request)), after_request w1 request).
Proof.
  intros Hm. cbv zeta. unfold set_leverage, try_except.
  rewrite (@bind_ok _ _ _ _ _ _ _ Hm).
  replace (if (m <? leverage)%Z then m else leverage) with (Z.min leverage m).
  2:{ destruct (Z.ltb_spec m leverage); lia. }
  unfold bind, _make_request, lift, has_key.
  cbn [String.eqb Ascii.eqb Bool.eqb orb].
  fold (leverage_request symbol (Z.min leverage m)).
  fold (next_answer w1 (leverage_request symbol (Z.min leverage m))).
  fold (after_request w1 (leverage_request symbol (Z.min leverage m))).
  destruct (contains "leverage" _); reflexivity.
Qed.
End Leverage.

(** X4. [set_leverage] never asks for more than the maximum
    [get_max_leverage] reports: the one leverage request it sends carries
    the smaller of the two, and the call succeeds exactly when the answer
    has a [leverage] entry. *)
Theorem set_leverage_caps_at_maximum :
  forall (U : PyUnicode) (symbol : str) (leverage m : Z) (w w1 : World.t),
    get_max_leverage symbol w = (Ok m, w1) ->
    let request := leverage_request symbol (Z.min leverage m) in
    set_leverage symbol leverage w
    = (Ok (has_key "leverage" (next_answer w1 request)),
       after_request w1 request) /\
    w1 = after_request w (bracket_query symbol).
Proof.
  intros U symbol leverage m w w1 Hm. split.
  - apply set_leverage_run, Hm.
  - destruct (get_max_leverage_total symbol w) as [m' Hm'].
    congruence.
Qed.

Lemma set_leverage_caps_at_maximum_witness :
  let w := world_of (market "NEW") db_with_signal in
  let w1 := after_request w (bracket_query (cp "BTCUSDT")) in
  @set_leverage latin1 (cp "BTCUSDT") 200 w
  = (Ok true, after_request w1 (leverage_request (cp "BTCUSDT") 125)).
Proof.
  intros w w1.
  destruct (@set_leverage_caps_at_maximum latin1 (cp "BTCUSDT") 200 125 w w1
              ltac:(run)) as [H _].
  exact H.
Defined.

Section LeverageRefused.
Context {U : PyUnicode}.
Variables (symbol side : str) (position_size_usd : Q) (leverage : Z)
          (margin_type : str) (entry_price stop_loss take_profit : Q)
          (time_in_force : str).

(** X5. When the exchange does not confirm the leverage,
    [open_position] stops there: it reports "Failed to set leverage"
    without any order, and the leverage request is the last thing sent
    (no margin-type change, no order). *)
Theorem open_position_stops_when_leverage_is_refused :
  forall (w w1 w2 : World.t) (m : Z),
    get_position_for_symbol symbol w = (Ok None, w1) ->
    get_max_leverage symbol w1 = (Ok m, w2) ->
    let request := leverage_request symbol (Z.min leverage m) in
    has_key "leverage" (next_answer w2 request) = false ->
    open_position symbol side position_size_usd leverage margin_type
      entry_price stop_loss take_profit time_in_force w
    = (Ok (OpenResult.mk false None None None (Lit "Failed to set leverage")),
       after_request w2 request).
Proof.
  intros w w1 w2 m Hg Hm request Hk. subst request.
  rewrite (@open_position_proceeds _ symbol side position_size_usd leverage
             margin_type entry_price stop_loss take_profit time_in_force
             None w w1 Hg I).
  unfold try_except, prepare_and_place.
  rewrite (@bind_ok _ _ _ _ _ _ _ (@set_leverage_run _ symbol leverage m w1 w2 Hm)).
  rewrite Hk. reflexivity.
Qed.
End LeverageRefused.

Lemma open_position_stops_when_leverage_is_refused_witness :
  let w := world_of market_leverage_refused db_with_signal in
  exists w' : World.t,
    @open_position latin1 (cp "BTCUSDT") (cp "LONG") 50 20 (cp "CROSSED")
      42000 39900 43050 (cp "GTC") w
    = (Ok (OpenResult.mk false None None None (Lit "Failed to set leverage")), w') /\
    orders_placed w' = orders_placed w.
Proof.
  intros w. eexists. split.
  - eapply open_position_stops_when_leverage_is_refused with (m := 125%Z); run.
  - run.
Defined.

(** ** Order results *)

Lemma returns_try A (P : A -> Prop) (m : M A) (h : exn -> M A) :
  (forall w a w', m w = (Ok a, w') -> P a) ->
  (forall e, returns P (h e)) ->
  returns P (try_except m h).
Proof.
  intros Hm Hh w. unfold try_except.
  destruct (m w) as [[a | e] w'] eqn:E.
  - exists a. split; [reflexivity | eapply Hm, E].
  - apply Hh.
Qed.

Lemma returns_failed (m : fstring) (raw : option json) :
  returns well_formed_result (ret (OrderResult.failed m raw)).
Proof.
  intros w. eexists. split; [reflexivity |].
  unfold well_formed_result. cbn. repeat split; discriminate.
Qed.

Lemma bind_inv A B (m : M A) (k : A -> M B) w b w' :
  bind m k w = (Ok b, w') ->
  exists a w1, m w = (Ok a, w1) /\ k a w1 = (Ok b, w').
Proof.
  unfold bind. destruct (m w) as [[a | e] w1]; [eauto | discriminate].
Qed.

Lemma lift_inv A (r : res A) w a w' : lift r w = (Ok a, w') -> r = Ok a /\ w' = w.
Proof. unfold lift. intros H. inversion H. auto. Qed.

Section OrderResults.
Context {U : PyUnicode}.

Lemma order_result_well_formed (response : json) (price_of : json -> res Q)
      (r : OrderResult.t) :
  order_result response price_of = Ok r -> well_formed_result r.
Proof.
  unfold order_result. intros H.
  repeat res_step H; try discriminate H.
  all: inversion H; subst; unfold well_formed_result; cbn;
    repeat split; discriminate.
Qed.

Lemma algo_placed_well_formed response symbol side quantity price r :
  algo_placed response symbol side quantity price = Ok r ->
  well_formed_result r /\ OrderResult.quantity r = Some quantity.
Proof.
  unfold algo_placed. intros H. res_step H.
  inversion H; subst; unfold well_formed_result; cbn.
  repeat split; discriminate.
Qed.

Lemma place_market_order_well_formed symbol side quantity reduce_only :
  returns well_formed_result (place_market_order symbol side quantity reduce_only).
Proof.
  apply returns_try; [| intros e; apply returns_failed].
  intros w a w' H. cbv zeta in H.
  apply bind_inv in H. destruct H as (response & w1 & _ & H).
  apply lift_inv in H. destruct H as [H _].
  apply (order_result_well_formed _ _ H).
Qed.

Lemma place_limit_order_well_formed symbol side quantity price tif reduce_only :
  returns well_formed_result
    (place_limit_order symbol side quantity price tif reduce_only).
Proof.
  apply returns_try; [| intros e; apply returns_failed].
  intros w a w' H.
  apply bind_inv in H. destruct H as (info & w1 & _ & H).
  apply bind_inv in H. destruct H as (precision & w2 & _ & H).
  cbv zeta in H.
  apply bind_inv in H. destruct H as (response & w3 & _ & H).
  apply lift_inv in H. destruct H as [H _].
  apply (order_result_well_formed _ _ H).
Qed.

Lemma place_stop_loss_well_formed symbol side stop_price quantity :
  returns well_formed_result (place_stop_loss symbol side stop_price quantity).
Proof.
  apply returns_try; [| intros e; apply returns_failed].
  intros w a w' H.
  apply bind_inv in H. destruct H as (info & w1 & _ & H).
  apply bind_inv in H. destruct H as (precision & w2 & _ & H).
  cbv zeta in H.
  apply bind_inv in H. destruct H as (q & w3 & _ & H).
  apply bind_inv in H. destruct H as (response & w4 & _ & H).
  apply lift_inv in H. destruct H as [H _].
  repeat res_step H; try discriminate H.
  - apply (algo_placed_well_formed _ _ _ _ _ H).
  - inversion H. unfold well_formed_result. cbn. repeat split; discriminate.
Qed.

Lemma place_take_profit_well_formed symbol side price quantity :
  returns well_formed_result (place_take_profit symbol side price quantity).
Proof.
  apply returns_try; [| intros e; apply returns_failed].
  intros w a w' H.
  apply bind_inv in H. destruct H as (info & w1 & _ & H).
  apply bind_inv in H. destruct H as (precision & w2 & _ & H).
  cbv zeta in H.
  apply bind_inv in H. destruct H as (q & w3 & _ & H).
  apply bind_inv in H. destruct H as (response & w4 & _ & H).
  apply lift_inv in H. destruct H as [H _].
  repeat res_step H; try discriminate H.
  - apply (algo_placed_well_formed _ _ _ _ _ H).
  - inversion H. unfold well_formed_result. cbn. repeat split; discriminate.
  - inversion H. unfold well_formed_result. cbn. repeat split; discriminate.
Qed.
End OrderResults.

(** X6. The four order functions never raise, and what they return is
    well formed: a successful result carries the order identifier, the
    quantity, the price, the status and the raw answer and no message; a
    failed one carries a message and none of the order fields. *)
Theorem order_results_are_well_formed :
  forall (U : PyUnicode) (symbol side : str) (quantity price : Q)
         (time_in_force : str) (reduce_only : bool) (ordered : option Q),
    returns well_formed_result
      (place_market_order symbol side quantity reduce_only) /\
    returns well_formed_result
      (place_limit_order symbol side quantity price time_in_force reduce_only) /\
    returns well_formed_result (place_stop_loss symbol side price ordered) /\
    returns well_formed_result (place_take_profit symbol side price ordered).
Proof.
  intros. split; [| split; [| split]].
  - apply place_market_order_well_formed.
  - apply place_limit_order_well_formed.
  - apply place_stop_loss_well_formed.
  - apply place_take_profit_well_formed.
Qed.

(** ** Closing a position *)

Section ClosePosition.
Context {U : PyUnicode}.

Lemma place_market_order_run (symbol side : str) (quantity : Q) (w : World.t) :
  let request := closing_order symbol side quantity in
  exists r : OrderResult.t,
    place_market_order symbol side quantity true w
    = (Ok r, after_request w request) /\
    (OrderResult.success r = true -> has_key "orderId" (next_answer w request) = true).
Proof.
  cbv zeta. unfold place_market_order, try_except, bind, _make_request, lift, ret.
  cbn [String.eqb Ascii.eqb Bool.eqb orb reduce_only_param app].
  fold (closing_order symbol side quantity).
  fold (next_answer w (closing_order symbol side quantity)).
  fold (after_request w (closing_order symbol side quantity)).
  destruct (order_result _ _) as [r | e] eqn:E.
  - exists r. split; [reflexivity |]. intros Hs.
    unfold order_result in E. unfold has_key.
    destruct (contains "orderId" _) as [[|] | e]; cbn [res_bind] in E;
      try reflexivity; try discriminate E.
    destruct (get _ "msg" _); cbn [res_bind] in E; [| discriminate E].
    inversion E; subst. discriminate Hs.
  - eexists. split; [reflexivity |]. discriminate.
Qed.
End ClosePosition.

(** X7. [close_position] with no reported position for the symbol
    fails with "No position found" and sends nothing after the position
    query: no cancellation, no order. With a reported position it first
    cancels all open orders of the symbol and then sends one reduce-only
    market order for the whole (positive) quantity of the position, on
    the opposite side; the [side] argument plays no part. *)
Theorem close_position_cancels_then_closes :
  forall (U : PyUnicode) (symbol : str) (side : option str) (w w1 : World.t),
    (get_position_for_symbol symbol w = (Ok None, w1) ->
     close_position symbol side w
     = (Ok (OrderResult.failed (Lit "No position found") None), w1)) /\
    (forall pos : PositionInfo.t,
        get_position_for_symbol symbol w = (Ok (Some pos), w1) ->
        let order := closing_order symbol (closing_side (PositionInfo.side pos))
                       (PositionInfo.quantity pos) in
        exists (r : OrderResult.t) (w' : World.t),
          close_position symbol side w = (Ok r, w') /\
          World.sent w' = World.sent w1 ++ [cancel_request symbol; order] /\
          0 < PositionInfo.quantity pos /\
          (OrderResult.success r = true ->
           has_key "orderId"
             (next_answer (after_request w1 (cancel_request symbol)) order) = true)).
Proof.
  intros U symbol side w w1. split.
  - intros Hg. unfold close_position, try_except.
    rewrite (@bind_ok _ _ _ _ _ _ _ Hg). reflexivity.
  - intros pos Hg order.
    destruct (get_position_for_symbol_live _ _ Hg) as ((Hq & _) & _).
    unfold close_position, try_except.
    rewrite (@bind_ok _ _ _ _ _ _ _ Hg).
    fold (closing_side (PositionInfo.side pos)).
    assert (Hc : cancel_all_orders symbol w1
                 = (Ok true, after_request w1 (cancel_request symbol)))
      by reflexivity.
    rewrite (@bind_ok _ _ _ _ _ _ _ Hc).
    destruct (place_market_order_run symbol (closing_side (PositionInfo.side pos))
                (PositionInfo.quantity pos)
                (after_request w1 (cancel_request symbol)))
      as (r & Hr & Hk).
    rewrite Hr. exists r. eexists. split; [reflexivity |].
    split; [| split; [exact Hq | exact Hk]].
    cbn. rewrite <- app_assoc. reflexivity.
Qed.

Lemma close_position_cancels_then_closes_witness :
  (let w := world_of (market "NEW") db_with_trade in
   @close_position latin1 (cp "BTCUSDT") None w
   = (Ok (OrderResult.failed (Lit "No position found") None),
      after_request w position_query)) /\
  (let w := world_of market_with_position db_with_trade in
   exists (r : OrderResult.t) (w' : World.t),
     @close_position latin1 (cp "BTCUSDT") (Some (cp "BUY")) w = (Ok r, w') /\
     World.sent w'
     = [position_query; cancel_request (cp "BTCUSDT");
        closing_order (cp "BTCUSDT") (cp "SELL") (1 # 2)]).
Proof.
  split.
  - intros w.
    apply (proj1 (@close_position_cancels_then_closes latin1 (cp "BTCUSDT") None
                    w (after_request w position_query))).
    run.
  - intros w.
    edestruct (proj2 (@close_position_cancels_then_closes latin1 (cp "BTCUSDT")
                        (Some (cp "BUY")) w (after_request w position_query)))
      as (r & w' & Hrun & Hsent & _); [run |].
    exists r, w'. split; [exact Hrun |]. rewrite Hsent. run.
Defined.

(** ** The orders of [open_position] *)

Ltac quiet H := eapply preserves_run; [| exact H]; preserve.

Lemma orders_after_request (w : World.t) (r : Request.t) :
  is_order r = true ->
  orders_placed (after_request w r) = orders_placed w ++ [r].
Proof.
  intros H. unfold orders_placed, after_request. cbn [World.sent].
  rewrite filter_app. cbn [filter]. rewrite H. reflexivity.
Qed.

Lemma make_request_post (endpoint : string) params (w : World.t) :
  _make_request "POST" endpoint params true w
  = (Ok (next_answer w (Request.mk "POST" endpoint params true)),
     after_request w (Request.mk "POST" endpoint params true)).
Proof. reflexivity. Qed.

Section OrderRequests.
Context {U : PyUnicode}.

Lemma place_limit_order_orders (symbol side : str) (quantity price : Q)
      (time_in_force : str) (w w' : World.t) (e : OrderResult.t) :
  place_limit_order symbol side quantity price time_in_force false w = (Ok e, w') ->
  exists l : list Request.t,
    orders_placed w' = orders_placed w ++ l /\
    at_most_one (fun p => entry_order_request symbol side quantity p time_in_force)
      price l /\
    (OrderResult.success e = true -> l <> []).
Proof.
  unfold place_limit_order, try_except. intros H.
  unfold bind at 1 in H.
  destruct (get_symbol_info symbol w) as [[info | ex] w1] eqn:E1.
  2:{ assert (F : frame is_order w w1) by quiet E1.
      inversion H; subst. exists []. rewrite app_nil_r.
      split; [apply frame_orders, F |]. split; [left; reflexivity | discriminate]. }
  assert (F : frame is_order w w1) by quiet E1.
  apply frame_orders in F.
  unfold bind at 1 in H. unfold lift at 1 in H.
  destruct (price_precision info) as [n | ex].
  2:{ inversion H; subst. exists []. rewrite app_nil_r.
      split; [exact F |]. split; [left; reflexivity | discriminate]. }
  cbv zeta in H. cbn [reduce_only_param app] in H.
  rewrite (@bind_ok _ _ _ _ _ _ _ (make_request_post _ _ w1)) in H.
  fold (entry_order_request symbol side quantity (py_round price n) time_in_force) in H.
  set (request := entry_order_request symbol side quantity (py_round price n)
                    time_in_force) in *.
  exists [request]. split.
  - unfold lift in H.
    assert (Hw : w' = after_request w1 request)
      by (destruct (order_result _ _); inversion H; reflexivity).
    rewrite Hw, orders_after_request by reflexivity. rewrite F. reflexivity.
  - split; [right; exists n; reflexivity | discriminate].
Qed.

Lemma protective_order_orders (type : string) (symbol side : str)
      (trigger quantity : Q) (w w' : World.t) (x : res OrderResult.t)
      (after : json -> Q -> res OrderResult.t) :
  try_except
    (symbol_info <- get_symbol_info symbol ;;
     precision <- lift (price_precision symbol_info) ;;
     let trigger := py_round trigger precision in
     quantity <- lift (some_float (Some quantity)) ;;
     let params := algo_params symbol side type trigger quantity in
     response <- _make_request "POST" "/fapi/v1/algoOrder" params true ;;
     lift (after response trigger))
    (fun e => ret (OrderResult.failed (Exn e) None)) w = (x, w') ->
  exists l : list Request.t,
    orders_placed w' = orders_placed w ++ l /\
    at_most_one (fun t => protective_request symbol side type t quantity) trigger l.
Proof.
  unfold try_except. intros H.
  unfold bind at 1 in H.
  destruct (get_symbol_info symbol w) as [[info | ex] w1] eqn:E1.
  2:{ assert (F : frame is_order w w1) by quiet E1.
      inversion H; subst. exists []. rewrite app_nil_r.
      split; [apply frame_orders, F | left; reflexivity]. }
  assert (F : frame is_order w w1) by quiet E1.
  apply frame_orders in F.
  unfold bind at 1 in H. unfold lift at 1 in H.
  destruct (price_precision info) as [n | ex].
  2:{ inversion H; subst. exists []. rewrite app_nil_r.
      split; [exact F | left; reflexivity]. }
  cbv zeta in H. unfold bind at 1 in H. unfold lift at 1 in H.
  cbn [some_float] in H.
  rewrite (@bind_ok _ _ _ _ _ _ _ (make_request_post _ _ w1)) in H.
  fold (protective_request symbol side type (py_round trigger n) quantity) in H.
  set (request := protective_request symbol side type (py_round trigger n)
                    quantity) in *.
  exists [request]. split.
  - unfold lift in H.
    assert (Hw : w' = after_request w1 request)
      by (destruct (after _ _); inversion H; reflexivity).
    rewrite Hw, orders_after_request by reflexivity. rewrite F. reflexivity.
  - right. exists n. reflexivity.
Qed.

Lemma place_stop_loss_orders (symbol side : str) (trigger quantity : Q)
      (w w' : World.t) (x : res OrderResult.t) :
  place_stop_loss symbol side trigger (Some quantity) w = (x, w') ->
  exists l : list Request.t,
    orders_placed w' = orders_placed w ++ l /\
    at_most_one (fun t => protective_request symbol side "STOP_MARKET" t quantity)
      trigger l.
Proof.
  intros H.
  eapply (@protective_order_orders "STOP_MARKET" symbol side trigger quantity
            w w' x
            (fun response t =>
               let? has := contains "algoId" response in
               if has then algo_placed response symbol side quantity t
               else
                 let? msg := get response "msg" (JStr (cp "Unknown error")) in
                 Ok (OrderResult.failed (Json msg) (Some response)))).
  exact H.
Qed.
End OrderRequests.

Section OrderSequence.
Context {U : PyUnicode}.
Variables (symbol side : str) (position_size_usd : Q) (leverage : Z)
          (margin_type : str) (entry_price stop_loss take_profit : Q)
          (time_in_force : str).

Lemma place_take_profit_orders (sd : str) (trigger quantity : Q)
      (w w' : World.t) (x : res OrderResult.t) :
  place_take_profit symbol sd trigger (Some quantity) w = (x, w') ->
  exists l : list Request.t,
    orders_placed w' = orders_placed w ++ l /\
    at_most_one
      (fun t => protective_request symbol sd "TAKE_PROFIT_MARKET" t quantity)
      trigger l.
Proof.
  intros H.
  eapply (@protective_order_orders _ "TAKE_PROFIT_MARKET" symbol sd trigger
            quantity w w' x
            (fun response t =>
               let? has := contains "algoId" response in
               if has then algo_placed response symbol sd quantity t
               else
                 let? error_code := get response "code" JNull in
                 let? error_msg := get response "msg" (JStr (cp "Unknown error")) in
                 if eq_int error_code (-2021) then
                   Ok (OrderResult.failed
                         (Cat [Lit "TP skipped: Market moved past target price (";
                               Json error_msg; Lit ")"])
                         (Some response))
                 else Ok (OrderResult.failed (Json error_msg) (Some response)))).
  exact H.
Qed.

(** A run of [prepare_and_place] either stops before any order, or
    reaches [place_orders] without having sent one. *)
Lemma prepare_and_place_orders (w w' : World.t) (x : res OpenResult.t) :
  prepare_and_place symbol side position_size_usd leverage margin_type
    entry_price stop_loss take_profit time_in_force w = (x, w') ->
  (orders_placed w' = orders_placed w /\
   ((exists m, x = Ok (OpenResult.mk false None None None m)) \/
    (exists e, x = Raise e))) \/
  (exists quantity w0,
     orders_placed w0 = orders_placed w /\
     place_orders symbol side quantity entry_price stop_loss take_profit
       time_in_force w0 = (x, w')).
Proof.
  unfold prepare_and_place. intros H.
  unfold bind at 1 in H.
  destruct (set_leverage symbol leverage w) as [[[|] | e] w1] eqn:E1;
    assert (F1 : frame is_order w w1) by quiet E1; apply frame_orders in F1;
    [| inversion H; subst; eauto 6 | inversion H; subst; eauto 6].
  cbn [negb] in H. unfold bind at 1 in H.
  destruct (set_margin_type symbol margin_type w1) as [[b | e] w2] eqn:E2;
    assert (F2 : frame is_order w1 w2) by quiet E2; apply frame_orders in F2;
    rewrite F1 in F2;
    [| inversion H; subst; eauto 6].
  unfold bind at 1 in H.
  destruct (calculate_quantity symbol position_size_usd leverage
              (Some entry_price) w2) as [[[q |] | e] w3] eqn:E3;
    assert (F3 : frame is_order w2 w3) by quiet E3; apply frame_orders in F3;
    rewrite F2 in F3;
    [| inversion H; subst; eauto 6 | inversion H; subst; eauto 6].
  destruct (Qeq_bool q 0); [inversion H; subst; eauto 6 |].
  unfold bind at 1 in H.
  destruct (get_min_notional symbol w3) as [[base | e] w4] eqn:E4;
    assert (F4 : frame is_order w3 w4) by quiet E4; apply frame_orders in F4;
    rewrite F3 in F4;
    [| inversion H; subst; eauto 6].
  destruct (Qle_bool (q * entry_price) (base + (1 # 10))).
  - destruct (Z.eqb leverage 0); [inversion H; subst; eauto 6 |].
    destruct (Qeq_bool position_size_usd 0); inversion H; subst; eauto 6.
  - right. eauto.
Qed.

Lemma open_position_orders_inv (w w' : World.t) (r : OpenResult.t) :
  open_position symbol side position_size_usd leverage margin_type
    entry_price stop_loss take_profit time_in_force w = (Ok r, w') ->
  (orders_placed w' = orders_placed w /\ aborted r) \/
  (exists quantity w0,
     orders_placed w0 = orders_placed w /\
     place_orders symbol side quantity entry_price stop_loss take_profit
       time_in_force w0 = (Ok r, w')).
Proof.
  unfold open_position, try_except. intros H.
  unfold bind at 1 in H.
  destruct (get_position_for_symbol symbol w) as [[existing | e] w1] eqn:E0;
    assert (F0 : frame is_order w w1) by quiet E0; apply frame_orders in F0.
  2:{ inversion H; subst. left. split; [exact F0 | apply aborted_results]. }
  assert (Hp : forall y w2,
             prepare_and_place symbol side position_size_usd leverage
               margin_type entry_price stop_loss take_profit time_in_force w1
             = (y, w2) ->
             match y with
             | Ok a => (Ok a, w2)
             | Raise e => ret (OpenResult.mk false None None None (Exn e)) w2
             end = (Ok r, w') ->
             (orders_placed w' = orders_placed w /\ aborted r) \/
             (exists quantity w0,
                orders_placed w0 = orders_placed w /\
                place_orders symbol side quantity entry_price stop_loss
                  take_profit time_in_force w0 = (Ok r, w'))).
  { intros y w2 Hy Hx.
    destruct (prepare_and_place_orders _ Hy)
      as [(Fo & [[m ->] | [e ->]]) | (q & w0 & Fo & Hq)].
    - inversion Hx; subst. left. split; [congruence | apply aborted_results].
    - inversion Hx; subst. left. split; [congruence | apply aborted_results].
    - destruct y as [a | e].
      + inversion Hx; subst. right. exists q, w0. split; [congruence | exact Hq].
      + exfalso. clear - Hq.
        unfold place_orders in Hq.
        destruct (total_run w0 (place_limit_order_total symbol
                    (if str_eqb side (cp "LONG") then cp "BUY" else cp "SELL")
                    q entry_price time_in_force false)) as (en & wa & He).
        rewrite (@bind_ok _ _ _ _ _ _ _ He) in Hq.
        destruct (negb (OrderResult.success en)); [discriminate Hq |].
        destruct (total_run wa (place_stop_loss_total symbol
                    (if str_eqb side (cp "LONG") then cp "SELL" else cp "BUY")
                    stop_loss (OrderResult.quantity en))) as (sl & wb & Hsl).
        rewrite (@bind_ok _ _ _ _ _ _ _ Hsl) in Hq.
        destruct (total_run wb (place_take_profit_total symbol
                    (if str_eqb side (cp "LONG") then cp "SELL" else cp "BUY")
                    take_profit (OrderResult.quantity en))) as (tp & wc & Htp).
        rewrite (@bind_ok _ _ _ _ _ _ _ Htp) in Hq.
        discriminate Hq. }
  destruct existing as [pos |].
  - destruct (Qlt_bool 0 (PositionInfo.quantity pos)).
    + left. split; [| ].
      * destruct (negb (str_eqb (PositionInfo.margin_type pos) margin_type));
          destruct (PositionInfo.notional_value pos);
          inversion H; subst; exact F0.
      * destruct (negb (str_eqb (PositionInfo.margin_type pos) margin_type));
          destruct (PositionInfo.notional_value pos);
          inversion H; subst; apply aborted_results.
    + destruct (prepare_and_place _ _ _ _ _ _ _ _ _ w1) as [y w2] eqn:Ey.
      eapply Hp; eauto.
  - destruct (prepare_and_place _ _ _ _ _ _ _ _ _ w1) as [y w2] eqn:Ey.
    eapply Hp; eauto.
Qed.

(** X8. The orders [open_position] can send, in the order it sends
    them: at most one entry order, a LIMIT order on the entry side (BUY
    for LONG, SELL otherwise) at a rounding of the entry price; then,
    only if the entry order succeeded, at most one STOP_MARKET and at
    most one TAKE_PROFIT_MARKET order, both on the opposite side and for
    the quantity the exchange confirmed for the entry order. A failed
    call has sent no protective order, a successful one has sent its
    entry order. *)
Theorem open_position_sends_entry_then_protection :
  forall (w w' : World.t) (r : OpenResult.t),
    open_position symbol side position_size_usd leverage margin_type
      entry_price stop_loss take_profit time_in_force w = (Ok r, w') ->
    exists entry protective : list Request.t,
      orders_placed w' = orders_placed w ++ entry ++ protective /\
      (exists quantity : Q,
          at_most_one
            (fun p => entry_order_request symbol (entry_side side) quantity p
                        time_in_force)
            entry_price entry) /\
      (OpenResult.success r = false -> protective = []) /\
      (OpenResult.success r = true ->
       entry <> [] /\
       exists (e : OrderResult.t) (ordered : Q) (sl tp : list Request.t),
         OpenResult.entry_order r = Some e /\
         OrderResult.quantity e = Some ordered /\
         protective = sl ++ tp /\
         at_most_one
           (fun t => protective_request symbol (sl_side side) "STOP_MARKET" t ordered)
           stop_loss sl /\
         at_most_one
           (fun t => protective_request symbol (sl_side side) "TAKE_PROFIT_MARKET"
                       t ordered)
           take_profit tp).
Proof.
  intros w w' r H.
  destruct (open_position_orders_inv _ H) as [(Fo & Ha) | (q & w0 & Fo & Hp)].
  - exists [], []. rewrite app_nil_r. split; [exact Fo |].
    split; [exists 0; left; reflexivity |].
    split; [reflexivity |].
    destruct Ha as (Hs & _). congruence.
  - destruct (@place_orders_inv _ _ _ _ _ _ _ _ _ _ _ Hp)
      as (e & w1 & He & [(Hf & Hw & m & Hx) | (Hs & sl & tp & m & Hpo & Hx)]).
    + destruct (place_limit_order_orders _ _ _ _ _ _ He) as (l & Hl & Hone & _).
      inversion Hx; subst. exists l, []. rewrite app_nil_r.
      split; [congruence |]. split; [exists q; exact Hone |].
      split; [reflexivity | discriminate].
    + destruct (place_limit_order_orders _ _ _ _ _ _ He) as (l & Hl & Hone & Hne).
      inversion Hx; subst.
      destruct (place_limit_order_well_formed symbol (entry_side side) q
                  entry_price time_in_force false w0) as (e' & He' & Hwf).
      rewrite He in He'. cbn [fst] in He'. inversion He'; subst e'.
      unfold well_formed_result in Hwf. rewrite Hs in Hwf.
      destruct Hwf as (_ & Hq & _).
      destruct (OrderResult.quantity e) as [ordered |] eqn:Eq; [| congruence].
      destruct Hpo as (w2 & Hsl & Htp). rewrite Eq in Hsl, Htp.
      destruct (place_stop_loss_orders _ _ _ _ _ Hsl) as (ls & Hls & Hsone).
      destruct (place_take_profit_orders _ _ _ _ Htp) as (lt & Hlt & Htone).
      exists l, (ls ++ lt).
      split; [rewrite Hlt, Hls, Hl, Fo, <- !app_assoc; reflexivity |].
      split; [exists q; exact Hone |].
      split; [discriminate |].
      intros _. split; [apply Hne, Hs |].
      exists e, ordered, ls, lt. auto.
Qed.
End OrderSequence.

Lemma open_position_sends_entry_then_protection_witness :
  let w := world_of (market "NEW") db_with_signal in
  let run := @open_position latin1 (cp "BTCUSDT") (cp "LONG") 50 20
               (cp "CROSSED") 42000 39900 43050 (cp "GTC") w in
  exists entry protective : list Request.t,
    orders_placed (snd run) = orders_placed w ++ entry ++ protective /\
    exists quantity : Q,
      at_most_one
        (fun p => entry_order_request (cp "BTCUSDT") (cp "BUY") quantity p
                    (cp "GTC"))
        42000 entry.
Proof.
  intros w run.
  destruct (@open_position_sends_entry_then_protection latin1 (cp "BTCUSDT")
              (cp "LONG") 50 20 (cp "CROSSED") 42000 39900 43050 (cp "GTC")
              w (snd run) (result_of run) ltac:(run))
    as (entry & protective & H1 & H2 & _).
  exists entry, protective. split; [exact H1 | exact H2].
Defined.

(** ** Queries *)

Section Queries.
Context {U : PyUnicode}.

Lemma get_balance_run (w : World.t) :
  get_balance w
  = (Ok (match (let? assets := get (next_answer w account_query) "assets" (JList []) in
                let? items := iter assets in
                find_balance items) with
         | Ok b => b
         | Raise _ => 0
         end), after_request w account_query).
Proof.
  unfold get_balance, get_account_info, try_except, bind, _make_request, lift, ret.
  cbn [String.eqb Ascii.eqb Bool.eqb orb].
  fold account_query. fold (next_answer w account_query).
  fold (after_request w account_query).
  destruct (let? assets := _ in _); reflexivity.
Qed.

Lemma find_balance_skips (before rest : list json) :
  Forall other_asset before ->
  find_balance (before ++ rest) = find_balance rest.
Proof.
  intros H. induction H as [| a before (name & Hn & Hne) _ IH]; [reflexivity |].
  cbn [app find_balance]. rewrite Hn. cbn [res_bind]. rewrite Hne. exact IH.
Qed.
End Queries.

(** X9. The queries of the exchange gateway only read: whatever the
    answers, they send nothing but GET requests and leave the database,
    the clock and the settings as they were. *)
Theorem queries_only_read :
  forall (U : PyUnicode) (symbol : str) (filter : option str)
         (position_size_usd : Q) (leverage : Z) (entry_price : option Q),
    preserves (frame is_write) get_account_info /\
    preserves (frame is_write) get_balance /\
    preserves (frame is_write) (get_open_orders filter) /\
    preserves (frame is_write) get_positions /\
    preserves (frame is_write) (get_position_for_symbol symbol) /\
    preserves (frame is_write) (get_symbol_info symbol) /\
    preserves (frame is_write) (get_current_price symbol) /\
    preserves (frame is_write) (get_min_notional symbol) /\
    preserves (frame is_write) (get_max_leverage symbol) /\
    preserves (frame is_write)
      (calculate_quantity symbol position_size_usd leverage entry_price).
Proof.
  intros.
  repeat match goal with |- preserves _ _ /\ _ => split end; preserve.
Qed.

(** X10. [get_balance] returns the available balance of the first USDT
    entry of the account's asset list, and 0 when the list has no USDT
    entry. *)
Theorem get_balance_reads_first_usdt_entry :
  forall (U : PyUnicode) (w : World.t) (before : list json),
    Forall other_asset before ->
    (get (next_answer w account_query) "assets" (JList []) = Ok (JList before) ->
     get_balance w = (Ok 0, after_request w account_query)) /\
    (forall (asset balance : json) (rest : list json) (b : Q),
        get (next_answer w account_query) "assets" (JList [])
        = Ok (JList (before ++ asset :: rest)) ->
        getitem asset "asset" = Ok (JStr (cp "USDT")) ->
        getitem asset "availableBalance" = Ok balance ->
        float balance = Ok b ->
        get_balance w = (Ok b, after_request w account_query)).
Proof.
  intros U w before Hb. split.
  - intros Ha. rewrite get_balance_run, Ha. cbn [res_bind iter].
    rewrite <- (app_nil_r before), (find_balance_skips [] Hb). reflexivity.
  - intros asset balance rest b Ha Hn Hv Hf.
    rewrite get_balance_run, Ha. cbn [res_bind iter].
    rewrite (find_balance_skips _ Hb). cbn [find_balance].
    rewrite Hn. cbn [res_bind]. change (eq_str (JStr (cp "USDT")) (cp "USDT")) with true.
    cbv iota. rewrite Hv. cbn [res_bind]. rewrite Hf. reflexivity.
Qed.

Lemma get_balance_reads_first_usdt_entry_witness :
  let w := world_of market_with_balance db_with_trade in
  @get_balance latin1 w = (Ok (1003 # 4), after_request w account_query).
Proof.
  intros w.
  assert (Hb : Forall other_asset [bnb_balance]).
  { repeat constructor. exists (jstr "BNB"). split; run. }
  apply (proj2 (@get_balance_reads_first_usdt_entry latin1 w [bnb_balance] Hb)
           usdt_balance (jstr "250.75") []); run.
Defined.

(** ** An exchange that rejects every request *)

Lemma rejects_after_request (w : World.t) (r : Request.t) :
  rejects_everything w -> rejects_everything (after_request w r).
Proof. intros H n r'. apply H. Qed.

Ltac rejected H w r :=
  let code := fresh "code" in
  let msg := fresh "msg" in
  let E := fresh "E" in
  destruct (H (length (World.sent w)) r) as (code & msg & E).

Section Outage.
Context {U : PyUnicode}.
Variable w : World.t.
Hypothesis outage : rejects_everything w.

Lemma outage_symbol_info (symbol : str) :
  get_symbol_info symbol w
  = (Ok None, after_request w (Request.mk "GET" "/fapi/v1/exchangeInfo" [] false)).
Proof.
  unfold get_symbol_info, try_except, bind, _make_request, lift, ret.
  cbn [String.eqb Ascii.eqb Bool.eqb orb].
  rejected outage w (Request.mk "GET" "/fapi/v1/exchangeInfo" [] false).
  rewrite E. reflexivity.
Qed.

Lemma outage_current_price (symbol : str) :
  get_current_price symbol w
  = (Ok (Some 0),
     after_request w (Request.mk "GET" "/fapi/v1/ticker/price"
                        [("symbol", PStr symbol)] false)).
Proof.
  unfold get_current_price, try_except, bind, _make_request, lift, ret.
  cbn [String.eqb Ascii.eqb Bool.eqb orb].
  rejected outage w (Request.mk "GET" "/fapi/v1/ticker/price"
                       [("symbol", PStr symbol)] false).
  rewrite E. reflexivity.
Qed.

Lemma outage_max_leverage (symbol : str) :
  get_max_leverage symbol w = (Ok 20%Z, after_request w (bracket_query symbol)).
Proof.
  unfold get_max_leverage, try_except, bind, _make_request, lift, ret.
  cbn [String.eqb Ascii.eqb Bool.eqb orb].
  fold (bracket_query symbol).
  rejected outage w (bracket_query symbol).
  rewrite E. reflexivity.
Qed.

Lemma outage_positions :
  get_positions w = (Ok [], after_request w position_query).
Proof.
  apply get_positions_not_a_list. intros l.
  unfold next_answer. rejected outage w position_query.
  rewrite E. discriminate.
Qed.

Lemma outage_balance : get_balance w = (Ok 0, after_request w account_query).
Proof.
  rewrite get_balance_run. unfold next_answer.
  rejected outage w account_query. rewrite E. reflexivity.
Qed.
End Outage.

Section OutageOrders.
Context {U : PyUnicode}.
Variable w : World.t.
Hypothesis outage : rejects_everything w.

Lemma outage_min_notional (symbol : str) : fst (get_min_notional symbol w) = Ok 5.
Proof.
  unfold get_min_notional, try_except.
  rewrite (@bind_ok _ _ _ _ _ _ _ (outage_symbol_info outage symbol)).
  reflexivity.
Qed.

Lemma outage_quantity (symbol : str) (size : Q) (leverage : Z)
      (entry_price : option Q) :
  fst (calculate_quantity symbol size leverage entry_price w) = Ok None.
Proof.
  unfold calculate_quantity, try_except.
  destruct (truthy_float entry_price) eqn:Et.
  - destruct entry_price as [p |]; [| discriminate Et].
    unfold bind at 1. unfold ret at 1.
    cbn [truthy_float] in Et. apply negb_true_iff in Et. rewrite Et.
    rewrite (@bind_ok _ _ _ _ _ _ _ (outage_symbol_info outage symbol)).
    reflexivity.
  - rewrite (@bind_ok _ _ _ _ _ _ _ (outage_current_price outage symbol)).
    reflexivity.
Qed.

Lemma outage_leverage (symbol : str) (leverage : Z) :
  exists w', set_leverage symbol leverage w = (Ok false, w') /\
             orders_placed w' = orders_placed w.
Proof.
  pose proof (set_leverage_run symbol leverage w (outage_max_leverage outage symbol)) as Hs.
  cbv zeta in Hs. rewrite Hs.
  set (w1 := after_request w (bracket_query symbol)) in *.
  set (request := leverage_request symbol (Z.min leverage 20)) in *.
  eexists. split.
  - f_equal. f_equal. unfold next_answer.
    rejected (rejects_after_request (bracket_query symbol) outage) w1 request.
    fold w1 in E. rewrite E. reflexivity.
  - unfold orders_placed, after_request, w1, after_request. cbn [World.sent].
    rewrite !filter_app. cbn. rewrite !app_nil_r. reflexivity.
Qed.
End OutageOrders.

(** X11. When the exchange rejects every request (each answer is an
    error document with a code and a message) the gateway falls back on
    its defaults: balance 0, no position, maximum leverage 20, no symbol
    rules, current price 0, minimum notional 5, no quantity; the leverage
    cannot be set, so [open_position] aborts with "Failed to set
    leverage" and places no order, and [close_position] finds no
    position. *)
Theorem exchange_outage_falls_back_on_defaults :
  forall (U : PyUnicode) (w : World.t),
    rejects_everything w ->
    forall (symbol side margin_type time_in_force : str) (close_side : option str)
           (position_size_usd entry_price stop_loss take_profit : Q)
           (leverage : Z) (price : option Q),
      fst (get_balance w) = Ok 0 /\
      fst (get_positions w) = Ok [] /\
      fst (get_max_leverage symbol w) = Ok 20%Z /\
      fst (get_symbol_info symbol w) = Ok None /\
      fst (get_current_price symbol w) = Ok (Some 0) /\
      fst (get_min_notional symbol w) = Ok 5 /\
      fst (calculate_quantity symbol position_size_usd leverage price w) = Ok None /\
      fst (set_leverage symbol leverage w) = Ok false /\
      (exists w' : World.t,
          open_position symbol side position_size_usd leverage margin_type
            entry_price stop_loss take_profit time_in_force w
          = (Ok (OpenResult.mk false None None None (Lit "Failed to set leverage")),
             w') /\
          orders_placed w' = orders_placed w) /\
      fst (close_position symbol close_side w)
      = Ok (OrderResult.failed (Lit "No position found") None).
Proof.
  intros U w H symbol side margin_type time_in_force close_side
         position_size_usd entry_price stop_loss take_profit leverage price.
  assert (Hg : get_position_for_symbol symbol w
               = (Ok None, after_request w position_query)).
  { unfold get_position_for_symbol, bind. rewrite (outage_positions H). reflexivity. }
  split; [rewrite (outage_balance H); reflexivity |].
  split; [rewrite (outage_positions H); reflexivity |].
  split; [rewrite (outage_max_leverage H); reflexivity |].
  split; [rewrite (outage_symbol_info H); reflexivity |].
  split; [rewrite (outage_current_price H); reflexivity |].
  split; [apply (outage_min_notional H) |].
  split; [apply (outage_quantity H) |].
  split; [destruct (outage_leverage H symbol leverage) as (w' & -> & _); reflexivity |].
  split.
  - destruct (outage_leverage (rejects_after_request position_query H)
                symbol leverage) as (w' & Hl & Ho).
    exists w'. split.
    + rewrite (@open_position_proceeds _ symbol side position_size_usd leverage
                 margin_type entry_price stop_loss take_profit time_in_force
                 None w _ Hg I).
      unfold try_except, prepare_and_place.
      rewrite (@bind_ok _ _ _ _ _ _ _ Hl). reflexivity.
    + rewrite Ho. unfold orders_placed, after_request. cbn [World.sent].
      rewrite filter_app. cbn. apply app_nil_r.
  - unfold close_position, try_except.
    rewrite (@bind_ok _ _ _ _ _ _ _ Hg). reflexivity.
Qed.

Lemma exchange_outage_falls_back_on_defaults_witness :
  fst (@get_balance latin1 outage_world) = Ok 0 /\
  fst (@get_positions latin1 outage_world) = Ok [] /\
  fst (@get_max_leverage latin1 (cp "BTCUSDT") outage_world) = Ok 20%Z /\
  fst (@close_position latin1 (cp "BTCUSDT") None outage_world)
  = Ok (OrderResult.failed (Lit "No position found") None).
Proof.
  assert (H : rejects_everything outage_world).
  { intros n r. exists (-1003)%Z, (cp "Too many requests."). reflexivity. }
  destruct (@exchange_outage_falls_back_on_defaults latin1 outage_world H
              (cp "BTCUSDT") (cp "LONG") (cp "CROSSED") (cp "GTC") None
              50 42000 39900 43050 20%Z None)
    as (H1 & H2 & H3 & _ & _ & _ & _ & _ & _ & H10).
  auto.
Defined.

(** ** Closing a trade by hand *)

Lemma find_replace_trade (t' : Trade.t) (rows : list Trade.t) (t : Trade.t) :
  find (fun r => Z.eqb (Trade.id r) (Trade.id t')) rows = Some t ->
  find (fun r => Z.eqb (Trade.id r) (Trade.id t')) (replace_trade t' rows)
  = Some t'.
Proof.
  induction rows as [| r rows IH]; cbn [find replace_trade]; [discriminate |].
  destruct (Z.eqb (Trade.id r) (Trade.id t')) eqn:E.
  - intros _. cbn [find]. rewrite Z.eqb_refl. reflexivity.
  - intros H. cbn [find]. rewrite E. apply IH, H.
Qed.

Lemma with_pnl_keeps (t : Trade.t) (price : option Q) :
  let t' := with_pnl t price in
  Trade.id t' = Trade.id t /\ Trade.user_id t' = Trade.user_id t /\
  Trade.pair t' = Trade.pair t /\ Trade.side t' = Trade.side t /\
  Trade.status t' = Trade.status t /\ Trade.closed_at t' = Trade.closed_at t /\
  Trade.exit_price t' = Trade.exit_price t /\
  Trade.exit_reason t' = Trade.exit_reason t /\
  Trade.entry_price t' = Trade.entry_price t /\
  Trade.entry_quantity t' = Trade.entry_quantity t /\
  Trade.stop_loss t' = Trade.stop_loss t /\
  Trade.take_profit t' = Trade.take_profit t.
Proof.
  cbv zeta. unfold with_pnl.
  destruct (Trade.entry_price t) as [e |] eqn:Ee; [| repeat split; auto].
  destruct price as [p |]; [| repeat split; auto].
  destruct (negb (Qeq_bool e 0) && negb (Qeq_bool p 0));
    cbn; repeat split; auto.
Qed.



Section ClosedRecord.
Context {U : PyUnicode}.
Variable trade_id : Z.

Lemma close_trade_closes (w w1 : World.t) (trade : Trade.t)
      (close_result : OrderResult.t) :
  trade_with_id trade_id w = Some trade ->
  Trade.status trade = cp "OPEN" ->
  close_position (Trade.pair trade) (Some (Trade.side trade)) w
  = (Ok close_result, w1) ->
  OrderResult.success close_result = true ->
  let closed :=
    manually_closed trade (World.clock w1) (OrderResult.price close_result) in
  close_trade trade_id w
  = (Ok (CloseResult.mk true (Some closed) (Lit "Trade closed successfully")),
     World.mk (World.exchange w1) (World.sent w1) (S (World.clock w1))
       (World.settings w1)
       (Database.mk (Database.market_messages (World.db w))
          (Database.signal_messages (World.db w))
          (replace_trade closed (Database.trades (World.db w)))
          (Database.trade_management_config (World.db w)))).
Proof.
  intros Hf Hst Hc Hs. cbv zeta.
  assert (F : frame (fun _ => false) w w1) by quiet Hc.
  destruct F as (_ & _ & _ & Hdb & _).
  unfold close_trade, try_except. unfold bind at 1. unfold get_db at 1.
  unfold trade_with_id in Hf. rewrite Hf.
  apply str_eqb_eq in Hst. rewrite Hst. cbn [negb].
  rewrite (@bind_ok _ _ _ _ _ _ _ Hc), Hs.
  unfold bind, utcnow, update_trade, bind, get_db, put_db, ret.
  cbn [World.db World.clock World.exchange World.sent World.settings].
  rewrite Hdb. reflexivity.
Qed.
End ClosedRecord.

Section CloseTradeSuccess.
Context {U : PyUnicode}.
Variable trade_id : Z.

Lemma close_position_total symbol side : total (close_position symbol side).
Proof. apply total_try. intros e. apply total_ret. Qed.

Lemma manually_closed_keeps (trade : Trade.t) (now : nat) (price : option Q) :
  let closed := manually_closed trade now price in
  Trade.id closed = Trade.id trade /\
  Trade.pair closed = Trade.pair trade /\
  Trade.side closed = Trade.side trade /\
  Trade.entry_price closed = Trade.entry_price trade /\
  Trade.entry_quantity closed = Trade.entry_quantity trade /\
  Trade.status closed = cp "CLOSED" /\
  Trade.exit_reason closed = Some (cp "MANUAL") /\
  Trade.closed_at closed = Some now /\
  Trade.exit_price closed = price.
Proof.
  cbv zeta. unfold manually_closed.
  match goal with
  | |- context [with_pnl ?t price] => pose proof (with_pnl_keeps t price) as Hk
  end.
  cbv zeta in Hk. cbn in Hk.
  destruct Hk as (Hid & _ & Hpair & Hside & Hstat & Hcl & Hex & Hre & Hen & Hqt & _).
  repeat (split; [assumption |]). assumption.
Qed.

Lemma close_trade_stores_closed (w w1 : World.t) (trade : Trade.t)
      (close_result : OrderResult.t) :
  trade_with_id trade_id w = Some trade ->
  Trade.status trade = cp "OPEN" ->
  close_position (Trade.pair trade) (Some (Trade.side trade)) w
  = (Ok close_result, w1) ->
  OrderResult.success close_result = true ->
  let closed :=
    manually_closed trade (World.clock w1) (OrderResult.price close_result) in
  exists w' : World.t,
    close_trade trade_id w
    = (Ok (CloseResult.mk true (Some closed) (Lit "Trade closed successfully")),
       w') /\
    trade_with_id trade_id w' = Some closed /\
    Database.trades (World.db w')
    = replace_trade closed (Database.trades (World.db w)).
Proof.
  intros Hf Hst Hc Hs closed.
  pose proof (close_trade_closes trade_id w Hf Hst Hc Hs) as Hrun.
  cbv zeta in Hrun. fold closed in Hrun.
  eexists. split; [exact Hrun |]. split; [| reflexivity].
  unfold trade_with_id. cbn [World.db Database.trades].
  destruct (manually_closed_keeps trade (World.clock w1)
              (OrderResult.price close_result)) as (Hid & _).
  fold closed in Hid.
  assert (Hi : trade_id = Trade.id closed).
  { rewrite Hid. unfold trade_with_id in Hf. apply find_some in Hf.
    destruct Hf as [_ Hf]. apply Z.eqb_eq in Hf. auto. }
  rewrite Hi. apply find_replace_trade with (t := trade).
  rewrite <- Hi. exact Hf.
Qed.


(** X13. Once [close_trade] has succeeded, the stored trade is CLOSED,
    so a second [close_trade] for the same trade is refused and changes
    nothing: no request is sent and no row is touched. *)
Theorem closed_trade_is_not_closed_twice :
  forall (w w' : World.t) (r : CloseResult.t),
    close_trade trade_id w = (Ok r, w') ->
    CloseResult.success r = true ->
    exists r2 : CloseResult.t,
      close_trade trade_id w' = (Ok r2, w') /\
      CloseResult.success r2 = false /\
      CloseResult.trade r2 = None.
Proof.
  intros w w' r H Hs.
  destruct (trade_with_id trade_id w) as [trade |] eqn:Hf.
  2:{ exfalso. unfold close_trade, try_except, bind in H. unfold get_db in H.
      unfold trade_with_id in Hf. rewrite Hf in H. inversion H; subst.
      discriminate Hs. }
  destruct (str_eqb (Trade.status trade) (cp "OPEN")) eqn:Hst.
  2:{ exfalso. unfold close_trade, try_except, bind in H. unfold get_db in H.
      unfold trade_with_id in Hf. rewrite Hf, Hst in H. inversion H; subst.
      discriminate Hs. }
  apply str_eqb_eq in Hst.
  destruct (total_run w (close_position_total (Trade.pair trade)
              (Some (Trade.side trade)))) as (cr & w1 & Hc).
  destruct (OrderResult.success cr) eqn:Hcs.
  2:{ exfalso. unfold close_trade, try_except in H.
      unfold bind at 1 in H. unfold get_db at 1 in H.
      unfold trade_with_id in Hf. rewrite Hf in H.
      apply str_eqb_eq in Hst. rewrite Hst in H. cbn [negb] in H.
      rewrite (@bind_ok _ _ _ _ _ _ _ Hc), Hcs in H. inversion H; subst.
      discriminate Hs. }
  destruct (close_trade_stores_closed w Hf Hst Hc Hcs) as (w2 & Hrun & Hfind & _).
  destruct (manually_closed_keeps trade (World.clock w1) (OrderResult.price cr))
    as (_ & _ & _ & _ & _ & Hclosed & _).
  rewrite Hrun in H. inversion H; subst. clear H.
  unfold close_trade, try_except. unfold bind at 1. unfold get_db at 1.
  unfold trade_with_id in Hfind. rewrite Hfind. rewrite Hclosed.
  change (str_eqb (cp "CLOSED") (cp "OPEN")) with false. cbn [negb].
  eexists. split; [reflexivity |]. auto.
Qed.
End CloseTradeSuccess.


Lemma closed_trade_is_not_closed_twice_witness :
  let w := world_of market_with_position db_with_trade in
  let w' := snd (@close_trade latin1 1 w) in
  exists r2 : CloseResult.t,
    @close_trade latin1 1 w' = (Ok r2, w') /\
    CloseResult.success r2 = false /\
    CloseResult.trade r2 = None.
Proof.
  intros w w'.
  eapply (@closed_trade_is_not_closed_twice latin1 1 w w'); run.
Defined.

(** ** What reconciliation leaves alone *)

Lemma only_trades_change_refl w : only_trades_change w w.
Proof. unfold only_trades_change. auto 7. Qed.

Lemma only_trades_change_trans a b c :
  only_trades_change a b -> only_trades_change b c -> only_trades_change a c.
Proof. unfold only_trades_change. intuition congruence. Qed.

Lemma frame_only_trades_change w w' :
  frame is_write w w' -> only_trades_change w w'.
Proof.
  unfold frame, only_trades_change. intros (He & _ & Hs & Hd & Hf).
  rewrite Hd. auto 7.
Qed.

(** Two rows of a table with distinct keys that share their key are the
    same row. *)
Lemma same_key_same_trade (rows : list Trade.t) (a b : Trade.t) :
  NoDup (map Trade.id rows) -> In a rows -> In b rows ->
  Trade.id a = Trade.id b -> a = b.
Proof.
  induction rows as [| r rows IH]; intros Hnd Ha Hb Hid; [destruct Ha |].
  cbn [map] in Hnd. apply NoDup_cons_iff in Hnd. destruct Hnd as [Hr Hnd].
  destruct Ha as [-> | Ha], Hb as [-> | Hb].
  - reflexivity.
  - exfalso. apply Hr. rewrite Hid. apply in_map, Hb.
  - exfalso. apply Hr. rewrite <- Hid. apply in_map, Ha.
  - apply IH; assumption.
Qed.

Section Untouched.
Context {U : PyUnicode}.

Lemma sync_loop_skips (symbols : list json) (todo : list Trade.t) (w : World.t) :
  sync_loop symbols todo w
  = sync_loop symbols
      (filter (fun t => negb (existsb (fun s => eq_str s (Trade.pair t)) symbols))
              todo) w.
Proof.
  revert w. induction todo as [| t rest IH]; intros w; [reflexivity |].
  cbn [sync_loop filter].
  destruct (negb (existsb (fun s => eq_str s (Trade.pair t)) symbols)) eqn:E.
  - cbn [sync_loop]. rewrite E.
    set (m := bind utcnow _).
    unfold bind.
    destruct (m w) as [[a | e] w1]; [apply IH | reflexivity].
  - unfold bind at 1. unfold ret at 1. apply IH.
Qed.

Lemma sync_loop_only_trades_change (symbols : list json) (todo : list Trade.t) :
  preserves only_trades_change (sync_loop symbols todo).
Proof.
  induction todo as [| t rest IH]; cbn [sync_loop].
  - apply preserves_ret. exact only_trades_change_refl.
  - apply preserves_bind; [exact only_trades_change_trans | | intros; exact IH].
    destruct (negb _); [| apply preserves_ret; exact only_trades_change_refl].
    apply preserves_bind; [exact only_trades_change_trans | |].
    + intros w. unfold only_trades_change. cbn. auto 7.
    + intros now.
      apply preserves_bind; [exact only_trades_change_trans | |].
      * intros w. apply frame_only_trades_change.
        revert w. change (preserves (frame is_write)
                            (get_current_price (Trade.pair t))).
        preserve.
      * intros price w. unfold only_trades_change. cbn. auto 7.
Qed.

Lemma sync_only_trades_change (user_id : Z) :
  preserves only_trades_change (sync_positions_with_binance user_id).
Proof.
  unfold sync_positions_with_binance.
  apply preserves_try; [exact only_trades_change_trans | |].
  2:{ intros e. apply preserves_ret. exact only_trades_change_refl. }
  apply preserves_bind; [exact only_trades_change_trans | |].
  { intros w. apply only_trades_change_refl. }
  intros d. cbv zeta.
  apply preserves_bind; [exact only_trades_change_trans | |].
  { intros w. apply frame_only_trades_change.
    revert w. change (preserves (frame is_write) get_positions). preserve. }
  intros positions.
  destruct (forallb hashable _).
  - apply sync_loop_only_trades_change.
  - apply preserves_lift. exact only_trades_change_refl.
Qed.
End Untouched.

Section UntouchedTrades.
Context {U : PyUnicode}.

Lemma sync_run (user_id : Z) (w w0 : World.t) (positions : list PositionInfo.t) :
  get_positions w = (Ok positions, w0) ->
  forallb hashable (map PositionInfo.symbol positions) = true ->
  sync_positions_with_binance user_id w
  = try_except
      (sync_loop (map PositionInfo.symbol positions)
         (filter (fun t => Z.eqb (Trade.user_id t) user_id
                           && str_eqb (Trade.status t) (cp "OPEN"))
                 (Database.trades (World.db w))))
      (fun _ => ret tt) w0.
Proof.
  intros Hg Hh. unfold sync_positions_with_binance, try_except.
  unfold bind at 1. unfold get_db at 1.
  rewrite (@bind_ok _ _ _ _ _ _ _ Hg), Hh. reflexivity.
Qed.

Lemma sync_unhashable (user_id : Z) (w w0 : World.t)
      (positions : list PositionInfo.t) :
  get_positions w = (Ok positions, w0) ->
  forallb hashable (map PositionInfo.symbol positions) = false ->
  sync_positions_with_binance user_id w = (Ok tt, w0).
Proof.
  intros Hg Hh. unfold sync_positions_with_binance, try_except.
  unfold bind at 1. unfold get_db at 1.
  rewrite (@bind_ok _ _ _ _ _ _ _ Hg), Hh. reflexivity.
Qed.

(** X14. The reconciliation pass writes nothing to the exchange and
    touches no table but the trades; the trade table keeps its keys, and
    every trade that is not an OPEN trade of the user without a reported
    position (another user's, one that is not OPEN, one whose symbol has
    a position) is left exactly as it was. *)
Theorem sync_leaves_other_trades_alone :
  forall (user_id : Z) (w w0 : World.t) (positions : list PositionInfo.t),
    get_positions w = (Ok positions, w0) ->
    NoDup (map Trade.id (Database.trades (World.db w))) ->
    let w' := snd (sync_positions_with_binance user_id w) in
    only_trades_change w w' /\
    map Trade.id (Database.trades (World.db w'))
    = map Trade.id (Database.trades (World.db w)) /\
    forall t : Trade.t,
      In t (Database.trades (World.db w)) ->
      ~ stale user_id (map PositionInfo.symbol positions) t ->
      In t (Database.trades (World.db w')).
Proof.
  intros user_id w w0 positions Hg Hnd w'. subst w'.
  split; [apply sync_only_trades_change |].
  assert (F : frame (fun _ => false) w w0) by quiet Hg.
  destruct F as (_ & _ & _ & Hdb & _).
  destruct (forallb hashable (map PositionInfo.symbol positions)) eqn:Hh.
  2:{ rewrite (sync_unhashable user_id w Hg Hh). cbn [snd]. rewrite Hdb. auto. }
  rewrite (sync_run user_id w Hg Hh). unfold try_except.
  rewrite sync_loop_skips.
  set (symbols := map PositionInfo.symbol positions) in *.
  set (todo := filter _ (filter _ _)).
  assert (Htodo : forall t, In t todo <->
                            In t (Database.trades (World.db w)) /\
                            stale user_id symbols t).
  { intros t. unfold todo, stale, no_position.
    rewrite !filter_In, andb_true_iff, negb_true_iff, Z.eqb_eq, str_eqb_eq.
    tauto. }
  destruct (@sync_loop_spec _ symbols todo w0) as (w' & Hrun & _ & Hids & Hkeep & _).
  { rewrite Hdb. exact Hnd. }
  { unfold todo. do 2 apply selected_trades_distinct. exact Hnd. }
  { intros t Ht. rewrite Hdb. apply Htodo, Ht. }
  rewrite Hrun. cbn [snd]. split; [rewrite Hids, Hdb; reflexivity |].
  intros t Hin Hns. apply Hkeep; [rewrite Hdb; exact Hin |].
  intros Hid. apply in_map_iff in Hid. destruct Hid as (t0 & Hid & Ht0).
  apply Htodo in Ht0. destruct Ht0 as [Hin0 Hst0].
  rewrite (@same_key_same_trade _ t0 t Hnd Hin0 Hin Hid) in Hst0. contradiction.
Qed.

(** X15. A failed position query looks like an empty account: when its
    answer is not a list, or has an entry that cannot be read, the
    reconciliation pass closes every OPEN trade of the user, whatever
    positions are really held. *)
Theorem sync_closes_all_when_position_query_fails :
  forall (user_id : Z) (w : World.t),
    ((forall l, next_answer w position_query <> JList l) \/
     (exists l pos, next_answer w position_query = JList l /\
                    In pos l /\ unreadable_position pos)) ->
    NoDup (map Trade.id (Database.trades (World.db w))) ->
    exists w' : World.t,
      sync_positions_with_binance user_id w = (Ok tt, w') /\
      forall t : Trade.t,
        In t (Database.trades (World.db w)) ->
        Trade.user_id t = user_id ->
        Trade.status t = cp "OPEN" ->
        exists t' : Trade.t,
          In t' (Database.trades (World.db w')) /\
          Trade.id t' = Trade.id t /\
          Trade.status t' = cp "CLOSED" /\
          Trade.closed_at t' <> None.
Proof.
  intros user_id w Hbad Hnd.
  assert (Hg : get_positions w = (Ok [], after_request w position_query)).
  { destruct Hbad as [H | (l & pos & Hl & Hin & Hb)].
    - apply get_positions_not_a_list, H.
    - apply (get_positions_unreadable _ Hl Hin Hb). }
  rewrite (sync_run user_id w Hg eq_refl). unfold try_except. cbn [map].
  set (todo := filter _ _).
  destruct (@sync_loop_spec _ [] todo (after_request w position_query))
    as (w' & Hrun & _ & _ & _ & Hdone).
  { exact Hnd. }
  { apply selected_trades_distinct, Hnd. }
  { intros t Ht. apply filter_In in Ht. apply Ht. }
  rewrite Hrun. exists w'. split; [reflexivity |].
  intros t Hin Hu Hs.
  destruct (Hdone t) as (now & price & _ & _ & _ & _ & Ht').
  { apply filter_In. split; [exact Hin |].
    apply andb_true_iff. split; [apply Z.eqb_eq, Hu | apply str_eqb_eq, Hs]. }
  { reflexivity. }
  exists (reconciled t now price). split; [exact Ht' |].
  split; [reflexivity |]. split; [reflexivity | discriminate].
Qed.
End UntouchedTrades.

Lemma sync_leaves_other_trades_alone_witness :
  let w := world_of market_with_position db_with_trade in
  let w' := snd (@sync_positions_with_binance latin1 1 w) in
  only_trades_change w w' /\
  In open_btc_trade (Database.trades (World.db w')).
Proof.
  intros w w'.
  edestruct (@sync_leaves_other_trades_alone latin1 1 w) as (H1 & _ & H3);
    [run | repeat constructor; simpl; tauto |].
  split; [exact H1 |].
  apply H3; [left; reflexivity |].
  intros (_ & _ & Hno). lazy in Hno. discriminate.
Defined.

Lemma sync_closes_all_when_position_query_fails_witness :
  let w := world_of market_positions_rejected db_with_trade in
  exists (w' : World.t) (t' : Trade.t),
    @sync_positions_with_binance latin1 1 w = (Ok tt, w') /\
    In t' (Database.trades (World.db w')) /\
    Trade.id t' = 1%Z /\
    Trade.status t' = cp "CLOSED".
Proof.
  intros w.
  destruct (@sync_closes_all_when_position_query_fails latin1 1 w)
    as (w' & Hrun & Hall).
  - left. intros l. lazy. discriminate.
  - repeat constructor; simpl; tauto.
  - destruct (Hall open_btc_trade (or_introl eq_refl) eq_refl eq_refl)
      as (t' & Hin & Hid & Hst & _).
    exists w', t'. auto.
Defined.

(** ** The configuration of a user *)

Lemma find_app_none A (f : A -> bool) (l : list A) (x : A) :
  find f l = None -> find f (l ++ [x]) = if f x then Some x else None.
Proof.
  induction l as [| a l IH]; cbn [find app]; [reflexivity |].
  destruct (f a); [discriminate | exact IH].
Qed.

Lemma find_app_some A (f : A -> bool) (l l' : list A) (x : A) :
  find f l = Some x -> find f (l ++ l') = Some x.
Proof.
  induction l as [| a l IH]; cbn [find app]; [discriminate |].
  destruct (f a); [auto | exact IH].
Qed.

Lemma get_config_run (user_id : Z) (w : World.t) :
  exists (c : TradeManagementConfig.t) (w' : World.t),
    get_config user_id w = (Ok c, w') /\
    TradeManagementConfig.user_id c = user_id /\
    config_of user_id w' = Some c /\
    only_config_changes w w' /\
    World.clock w' = World.clock w /\
    match config_of user_id w with
    | Some c0 => c = c0 /\ w' = w
    | None =>
        let rows := Database.trade_management_config (World.db w) in
        c = default_config_for (World.settings w) (next_id rows) user_id /\
        Database.trade_management_config (World.db w') = rows ++ [c]
    end.
Proof.
  unfold get_config, config_of, bind, get_db.
  destruct (find _ _) as [c0 |] eqn:E.
  - exists c0, w. unfold ret. split; [reflexivity |].
    pose proof (find_some _ _ E) as [_ Hu]. apply Z.eqb_eq in Hu.
    split; [exact Hu |]. split; [exact E |].
    split; [unfold only_config_changes; auto 7 | auto].
  - unfold get_settings, add_config, bind, get_db, put_db, ret.
    cbn [World.db World.settings Database.trade_management_config].
    eexists. eexists. split; [reflexivity |].
    cbn [TradeManagementConfig.user_id World.db Database.trade_management_config].
    split; [reflexivity |].
    split.
    { rewrite (find_app_none _ _ _ E).
      cbn [TradeManagementConfig.user_id]. rewrite Z.eqb_refl. reflexivity. }
    split; [unfold only_config_changes; cbn; auto 7 |].
    split; [reflexivity |]. split; reflexivity.
Qed.

Lemma get_config_again (user_id : Z) (w : World.t) (c : TradeManagementConfig.t) :
  config_of user_id w = Some c -> get_config user_id w = (Ok c, w).
Proof.
  intros H. unfold get_config, bind, get_db. unfold config_of in H.
  rewrite H. reflexivity.
Qed.

(** The row of a user is found where it is stored: committing a row
    [c] in place of the row [c0] of its user gives back [c]. *)
Lemma find_replace_config (u : Z) (c0 c : TradeManagementConfig.t)
      (rows : list TradeManagementConfig.t) :
  find (fun r => Z.eqb (TradeManagementConfig.user_id r) u) rows = Some c0 ->
  TradeManagementConfig.id c = TradeManagementConfig.id c0 ->
  TradeManagementConfig.user_id c = u ->
  find (fun r => Z.eqb (TradeManagementConfig.user_id r) u) (replace_config c rows)
  = Some c.
Proof.
  intros Hf Hid Hu. induction rows as [| r rows IH]; [discriminate Hf |].
  cbn [find replace_config] in *.
  destruct (Z.eqb (TradeManagementConfig.id r) (TradeManagementConfig.id c)) eqn:Ei.
  - cbn [find]. rewrite Hu, Z.eqb_refl. reflexivity.
  - cbn [find].
    destruct (Z.eqb (TradeManagementConfig.user_id r) u) eqn:Eu.
    + inversion Hf; subst r. rewrite Hid, Z.eqb_refl in Ei. discriminate Ei.
    + apply IH, Hf.
Qed.

Lemma find_replace_config_other (u : Z) (c0 c : TradeManagementConfig.t)
      (rows : list TradeManagementConfig.t) :
  NoDup (map TradeManagementConfig.id rows) ->
  In c0 rows ->
  TradeManagementConfig.id c = TradeManagementConfig.id c0 ->
  TradeManagementConfig.user_id c = TradeManagementConfig.user_id c0 ->
  u <> TradeManagementConfig.user_id c0 ->
  find (fun r => Z.eqb (TradeManagementConfig.user_id r) u) (replace_config c rows)
  = find (fun r => Z.eqb (TradeManagementConfig.user_id r) u) rows.
Proof.
  intros Hnd Hin Hid Hu Hne. induction rows as [| r rows IH]; [reflexivity |].
  cbn [map] in Hnd. apply NoDup_cons_iff in Hnd. destruct Hnd as [Hr Hnd].
  cbn [find replace_config].
  destruct (Z.eqb (TradeManagementConfig.id r) (TradeManagementConfig.id c)) eqn:Ei.
  - apply Z.eqb_eq in Ei. rewrite Hid in Ei.
    assert (r = c0).
    { destruct Hin as [-> | Hin]; [reflexivity |].
      exfalso. apply Hr. rewrite Ei. apply in_map, Hin. }
    subst r. cbn [find]. rewrite Hu.
    destruct (Z.eqb_spec (TradeManagementConfig.user_id c0) u); [congruence |].
    reflexivity.
  - cbn [find]. destruct (Z.eqb (TradeManagementConfig.user_id r) u); [reflexivity |].
    apply IH; [exact Hnd |].
    destruct Hin as [-> | Hin]; [| exact Hin].
    apply Z.eqb_neq in Ei. congruence.
Qed.

Lemma config_keys_ok_next (rows : list TradeManagementConfig.t)
      (c : TradeManagementConfig.t) :
  config_keys_ok rows ->
  TradeManagementConfig.id c = next_id rows ->
  NoDup (map TradeManagementConfig.id (rows ++ [c])).
Proof.
  intros [Hnd Hle] Hid. rewrite map_app. cbn [map].
  apply NoDup_app; [exact Hnd | repeat constructor; intros [] | ].
  intros i Hi [<- | []]. apply in_map_iff in Hi. destruct Hi as (r & Hr & Hin).
  apply Hle in Hin. rewrite Hr, Hid in Hin. unfold next_id in Hin. lia.
Qed.

Lemma config_stored_spec (user_id : Z) (w w1 : World.t)
      (c0 c : TradeManagementConfig.t) :
  get_config user_id w = (Ok c0, w1) ->
  TradeManagementConfig.id c = TradeManagementConfig.id c0 ->
  TradeManagementConfig.user_id c = TradeManagementConfig.user_id c0 ->
  let w' := config_stored c w1 in
  get_config user_id w' = (Ok c, w') /\
  only_config_changes w w' /\
  (config_keys_ok (Database.trade_management_config (World.db w)) ->
   forall u, u <> user_id -> config_of u w' = config_of u w).
Proof.
  intros Hg Hid Hu. cbv zeta.
  destruct (get_config_run user_id w) as (c0' & w1' & Hg' & Hu0 & Hf & Hoc & _ & Hcase).
  rewrite Hg in Hg'. inversion Hg'; subst c0' w1'. clear Hg'.
  split; [| split].
  - apply get_config_again. unfold config_of, config_stored.
    cbn [World.db Database.trade_management_config].
    apply find_replace_config with (c0 := c0); [exact Hf | exact Hid | congruence].
  - unfold only_config_changes, config_stored in *. cbn. tauto.
  - intros Hk u Hne. unfold config_of at 1. unfold config_stored.
    cbn [World.db Database.trade_management_config].
    assert (Hin : In c0 (Database.trade_management_config (World.db w1))).
    { unfold config_of in Hf. apply find_some in Hf. apply Hf. }
    rewrite find_replace_config_other with (c0 := c0);
      [| | exact Hin | exact Hid | exact Hu | congruence].
    + destruct (config_of user_id w) as [c1 |] eqn:E.
      * destruct Hcase as [_ ->]. reflexivity.
      * cbv zeta in Hcase. destruct Hcase as [Hc Hrows]. rewrite Hrows.
        unfold config_of.
        destruct (find (fun r => Z.eqb (TradeManagementConfig.user_id r) u)
                    (Database.trade_management_config (World.db w))) as [r |] eqn:Er.
        -- apply find_app_some, Er.
        -- rewrite (find_app_none _ _ _ Er). rewrite Hu0.
           destruct (Z.eqb_spec user_id u); [congruence | reflexivity].
    + destruct (config_of user_id w) as [c1 |] eqn:E.
      * destruct Hcase as [_ ->]. apply Hk.
      * cbv zeta in Hcase. destruct Hcase as [Hc Hrows]. rewrite Hrows.
        apply config_keys_ok_next; [exact Hk |]. rewrite Hc. reflexivity.
Qed.

(** X16. [get_config] returns the row of the user, creating it from
    the default settings (with auto-execution on) when there is none;
    the row then exists, so asking again returns the same row and
    changes nothing. Nothing but the configuration table is touched. *)
Theorem get_config_creates_the_row_once :
  forall (user_id : Z) (w : World.t),
  exists (c : TradeManagementConfig.t) (w' : World.t),
    get_config user_id w = (Ok c, w') /\
    TradeManagementConfig.user_id c = user_id /\
    get_config user_id w' = (Ok c, w') /\
    only_config_changes w w' /\
    match config_of user_id w with
    | Some c0 => c = c0 /\ w' = w
    | None =>
        let rows := Database.trade_management_config (World.db w) in
        c = default_config_for (World.settings w) (next_id rows) user_id /\
        Database.trade_management_config (World.db w') = rows ++ [c]
    end.
Proof.
  intros user_id w.
  destruct (get_config_run user_id w) as (c & w' & Hg & Hu & Hf & Hoc & _ & Hcase).
  exists c, w'. split; [exact Hg |]. split; [exact Hu |].
  split; [apply get_config_again, Hf |]. split; [exact Hoc | exact Hcase].
Qed.

(** X17. [update_config] replaces exactly the fields that are given and
    keeps the others; the service's parser takes the given percentages.
    The updated row is what [get_config] returns afterwards. Nothing but
    the configuration table changes, and with well-kept keys the rows of
    other users stay as they were. *)
Theorem update_config_replaces_the_given_fields :
  forall (parser : TelegramParser.t) (user_id : Z) (margin_mode : option str)
         (max_leverage max_position_size sl_percentage tp_percentage : option Q)
         (auto_execute_trades : option bool) (w : World.t),
  exists (c0 : TradeManagementConfig.t) (w1 : World.t),
    get_config user_id w = (Ok c0, w1) /\
    let c := updated_config c0 margin_mode max_leverage max_position_size
               sl_percentage tp_percentage auto_execute_trades in
    let w' := config_stored c w1 in
    update_config parser user_id margin_mode max_leverage max_position_size
      sl_percentage tp_percentage auto_execute_trades w
    = (Ok (c, TelegramParser.mk
                (if_given sl_percentage (TelegramParser.sl_percentage parser))
                (if_given tp_percentage (TelegramParser.tp_percentage parser))),
       w') /\
    get_config user_id w' = (Ok c, w') /\
    only_config_changes w w' /\
    (config_keys_ok (Database.trade_management_config (World.db w)) ->
     forall u, u <> user_id -> config_of u w' = config_of u w).
Proof.
  intros parser user_id mm ml mps sl tp ae w.
  destruct (get_config_run user_id w) as (c0 & w1 & Hg & _).
  exists c0, w1. split; [exact Hg |]. cbv zeta.
  split.
  - unfold update_config. rewrite (@bind_ok _ _ _ _ _ _ _ Hg). reflexivity.
  - apply (@config_stored_spec user_id w w1 c0 _ Hg); reflexivity.
Qed.

Lemma update_config_replaces_the_given_fields_witness :
  let w := world_of (market "NEW") db_with_trade in
  exists (c : TradeManagementConfig.t) (w' : World.t),
    update_config default_parser 1 None (Some 10) None (Some 3) None None w
    = (Ok (c, TelegramParser.mk 3 (5 # 2)), w') /\
    get_config 1 w' = (Ok c, w') /\
    config_of 2 w' = config_of 2 w.
Proof.
  intros w.
  destruct (update_config_replaces_the_given_fields default_parser 1 None
              (Some 10) None (Some 3) None None w)
    as (c0 & w1 & Hg & Hrun & Hagain & _ & Hother).
  eexists. eexists. split; [exact Hrun |]. split; [exact Hagain |].
  apply Hother.
  - split; [repeat constructor; simpl; tauto |].
    intros c [<- | []]. lazy. discriminate.
  - discriminate.
Defined.

(** X18. [reset_config] puts the default settings back into the row of
    the user, whatever it held, with auto-execution on, and resets the
    parser's percentages; [get_config] returns the defaults afterwards. *)
Theorem reset_config_restores_the_defaults :
  forall (parser : TelegramParser.t) (user_id : Z) (w : World.t),
  exists (c0 : TradeManagementConfig.t) (w1 : World.t),
    get_config user_id w = (Ok c0, w1) /\
    let c := default_config_for (World.settings w) (TradeManagementConfig.id c0)
               user_id in
    let w' := config_stored c w1 in
    reset_config parser user_id w
    = (Ok (c, TelegramParser.mk
                (Settings.default_sl_percentage (World.settings w))
                (Settings.default_tp_percentage (World.settings w))),
       w') /\
    get_config user_id w' = (Ok c, w') /\
    only_config_changes w w' /\
    (config_keys_ok (Database.trade_management_config (World.db w)) ->
     forall u, u <> user_id -> config_of u w' = config_of u w).
Proof.
  intros parser user_id w.
  destruct (get_config_run user_id w) as (c0 & w1 & Hg & Hu & _ & Hoc & _).
  exists c0, w1. split; [exact Hg |]. cbv zeta.
  assert (Hs : World.settings w1 = World.settings w) by apply Hoc.
  split.
  - unfold reset_config. rewrite (@bind_ok _ _ _ _ _ _ _ Hg).
    unfold bind at 1. unfold get_settings at 1. rewrite Hs, Hu. reflexivity.
  - apply (@config_stored_spec user_id w w1 c0 _ Hg); [reflexivity | symmetry; exact Hu].
Qed.

Lemma reset_config_restores_the_defaults_witness :
  let w := world_of (market "NEW") db_with_trade in
  exists (c : TradeManagementConfig.t) (w' : World.t),
    reset_config (TelegramParser.mk 3 4) 1 w
    = (Ok (c, TelegramParser.mk 5 (5 # 2)), w') /\
    get_config 1 w' = (Ok c, w') /\
    config_of 2 w' = config_of 2 w.
Proof.
  intros w.
  destruct (reset_config_restores_the_defaults (TelegramParser.mk 3 4) 1 w)
    as (c0 & w1 & Hg & Hrun & Hagain & _ & Hother).
  eexists. eexists. split; [exact Hrun |]. split; [exact Hagain |].
  apply Hother.
  - split; [repeat constructor; simpl; tauto |].
    intros c [<- | []]. lazy. discriminate.
  - discriminate.
Defined.

(** ** Processing a message *)

Lemma keeps_signals_refl w : keeps_signals w w.
Proof. split; reflexivity. Qed.

Lemma keeps_signals_trans a b c :
  keeps_signals a b -> keeps_signals b c -> keeps_signals a c.
Proof. unfold keeps_signals. intuition congruence. Qed.

Section MessageSteps.
Context {U : PyUnicode}.

Lemma open_position_keeps_signals s sd size lev mt e sl tp tif :
  preserves keeps_signals (open_position s sd size lev mt e sl tp tif).
Proof.
  intros w.
  assert (F : frame (fun _ => false) w
                (snd (open_position s sd size lev mt e sl tp tif w))).
  { revert w. change (preserves (frame (fun _ => false))
                        (open_position s sd size lev mt e sl tp tif)).
    preserve. }
  destruct F as (_ & _ & _ & Hdb & _). unfold keeps_signals. rewrite Hdb. auto.
Qed.

Lemma get_config_keeps_signals user_id :
  preserves keeps_signals (get_config user_id).
Proof.
  intros w.
  destruct (get_config_run user_id w) as (c & w' & Hg & _ & _ & Hoc & _).
  rewrite Hg. cbn [snd]. unfold only_config_changes in Hoc.
  unfold keeps_signals. tauto.
Qed.

Lemma execute_trade_keeps_signals signal_id user_id :
  preserves keeps_signals (execute_trade_from_signal signal_id user_id).
Proof.
  unfold execute_trade_from_signal.
  repeat
    lazymatch goal with
    | |- preserves _ (ret _) => apply preserves_ret; exact keeps_signals_refl
    | |- preserves _ (try_except _ _) =>
        apply preserves_try; [ exact keeps_signals_trans | | intros ]
    | |- preserves _ (bind _ _) =>
        apply preserves_bind; [ exact keeps_signals_trans | | intros ]
    | |- preserves _ (open_position _ _ _ _ _ _ _ _ _) =>
        apply open_position_keeps_signals
    | |- preserves _ (get_config _) => apply get_config_keeps_signals
    | |- preserves _ get_db => intros w; apply keeps_signals_refl
    | |- preserves _ utcnow => intros w; split; reflexivity
    | |- preserves _ (add_trade _) => intros w; split; reflexivity
    | |- preserves _ (let _ := _ in _) => cbv zeta
    | |- preserves _ (match ?x with _ => _ end) => destruct x
    end.
Qed.

(** The run of [process_telegram_message] up to the parser's verdict. *)
Lemma process_message_stores_first (message_input : TelegramMessageInput.t)
      (user_id : Z) (auto_execute : bool) (w w1 : World.t)
      (config : TradeManagementConfig.t) :
  get_config user_id w = (Ok config, w1) ->
  let row := message_row message_input w (World.clock w1) in
  let w2 :=
    World.mk (World.exchange w1) (World.sent w1) (S (World.clock w1))
      (World.settings w1)
      (Database.mk (Database.market_messages (World.db w1) ++ [row])
         (Database.signal_messages (World.db w1)) (Database.trades (World.db w1))
         (Database.trade_management_config (World.db w1))) in
  process_telegram_message message_input user_id auto_execute w
  = try_except
      (match parse_message (parser_of config)
               (TelegramMessageInput.text message_input) with
       | None =>
           ret (ProcessResult.mk false None None
                  (Lit "Failed to parse signal from message") None)
       | Some parsed =>
           now <- utcnow ;;
           signal <- add_signal (fun id =>
             SignalMessage.mk id (ParsedSignalData.pair parsed)
               (ParsedSignalData.setup_type parsed)
               (ParsedSignalData.entry parsed)
               (ParsedSignalData.stop_loss parsed)
               (ParsedSignalData.take_profit parsed)
               now (TelegramMessageInput.text message_input)
               (TelegramMessageInput.channel message_input)) ;;
           if auto_execute && TradeManagementConfig.auto_execute_trades config then
             trade_result <- execute_trade_from_signal (SignalMessage.id signal)
                               user_id ;;
             ret (ProcessResult.mk (ExecutionResult.success trade_result)
                    (Some signal) (ExecutionResult.trade trade_result)
                    (ExecutionResult.message trade_result)
                    (Some trade_result))
           else
             ret (ProcessResult.mk true (Some signal) None
                    (Lit "Signal parsed and stored successfully") None)
       end)
      (fun e => ret (ProcessResult.mk false None None (Exn e) None)) w2.
Proof.
  intros Hg. cbv zeta.
  destruct (get_config_run user_id w) as (c' & w1' & Hg' & _ & _ & Hoc & _).
  rewrite Hg in Hg'. inversion Hg'; subst c' w1'. clear Hg'.
  destruct Hoc as (_ & _ & _ & Hmm & _).
  unfold process_telegram_message, try_except.
  rewrite (@bind_ok _ _ _ _ _ _ _ Hg).
  unfold bind at 1. unfold utcnow at 1.
  unfold bind at 1. unfold add_market_message at 1.
  unfold bind at 1. unfold get_db at 1. unfold bind at 1. unfold put_db at 1.
  unfold ret at 1.
  cbn [World.db World.clock World.exchange World.sent World.settings].
  unfold message_row, parser_of. rewrite Hmm. reflexivity.
Qed.
End MessageSteps.

Section ProcessMessage.
Context {U : PyUnicode}.
Variables (message_input : TelegramMessageInput.t) (user_id : Z)
          (auto_execute : bool).

(** X19. A message the parser rejects is stored as a raw message and
    nothing else happens: the result is the failure "Failed to parse
    signal from message", no signal and no trade is stored, and nothing
    is sent to the exchange. *)
Theorem unparsable_message_is_stored_and_dropped :
  forall (w w1 : World.t) (config : TradeManagementConfig.t),
    get_config user_id w = (Ok config, w1) ->
    parse_message (parser_of config) (TelegramMessageInput.text message_input)
    = None ->
    exists w' : World.t,
      process_telegram_message message_input user_id auto_execute w
      = (Ok (ProcessResult.mk false None None
               (Lit "Failed to parse signal from message") None), w') /\
      Database.market_messages (World.db w')
      = Database.market_messages (World.db w)
        ++ [message_row message_input w (World.clock w1)] /\
      Database.signal_messages (World.db w')
      = Database.signal_messages (World.db w) /\
      Database.trades (World.db w') = Database.trades (World.db w) /\
      World.sent w' = World.sent w.
Proof.
  intros w w1 config Hg Hp.
  destruct (get_config_run user_id w) as (c' & w1' & Hg' & _ & _ & Hoc & _).
  rewrite Hg in Hg'. inversion Hg'; subst c' w1'. clear Hg'.
  destruct Hoc as (_ & _ & Hsent & Hmm & Hsm & Htr).
  rewrite (process_message_stores_first message_input user_id auto_execute w Hg).
  unfold try_except. rewrite Hp. unfold ret.
  eexists. split; [reflexivity |].
  cbn [World.db World.sent Database.market_messages Database.signal_messages
       Database.trades].
  rewrite Hmm. auto.
Qed.

(** X20. A message the parser accepts adds exactly one signal row,
    holding the pair, direction, entry and derived levels the parser
    returned for the user's configured percentages, the full text and
    the channel; the row stays whether or not a trade is then executed.
    With auto-execution off (by the caller or in the configuration) the
    call succeeds without sending anything to the exchange and without
    storing a trade; with it on, the outcome is that of
    [execute_trade_from_signal] for the new signal. *)
Theorem parsed_signal_is_stored :
  forall (w w1 : World.t) (config : TradeManagementConfig.t)
         (parsed : ParsedSignalData.t),
    get_config user_id w = (Ok config, w1) ->
    parse_message (parser_of config) (TelegramMessageInput.text message_input)
    = Some parsed ->
    let signal := signal_row message_input parsed w (S (World.clock w1)) in
    exists (r : ProcessResult.t) (w' : World.t),
      process_telegram_message message_input user_id auto_execute w = (Ok r, w') /\
      ProcessResult.signal r = Some signal /\
      Database.signal_messages (World.db w')
      = Database.signal_messages (World.db w) ++ [signal] /\
      Database.market_messages (World.db w')
      = Database.market_messages (World.db w)
        ++ [message_row message_input w (World.clock w1)] /\
      (auto_execute && TradeManagementConfig.auto_execute_trades config = false ->
       r = ProcessResult.mk true (Some signal) None
             (Lit "Signal parsed and stored successfully") None /\
       Database.trades (World.db w') = Database.trades (World.db w) /\
       World.sent w' = World.sent w) /\
      (auto_execute && TradeManagementConfig.auto_execute_trades config = true ->
       exists (er : ExecutionResult.t) (w2 : World.t),
         execute_trade_from_signal (SignalMessage.id signal) user_id w2
         = (Ok er, w') /\
         r = ProcessResult.mk (ExecutionResult.success er) (Some signal)
               (ExecutionResult.trade er) (ExecutionResult.message er) (Some er)).
Proof.
  intros w w1 config parsed Hg Hp signal.
  destruct (get_config_run user_id w) as (c' & w1' & Hg' & _ & _ & Hoc & _).
  rewrite Hg in Hg'. inversion Hg'; subst c' w1'. clear Hg'.
  destruct Hoc as (_ & _ & Hsent & Hmm & Hsm & Htr).
  rewrite (process_message_stores_first message_input user_id auto_execute w Hg).
  unfold try_except. rewrite Hp.
  unfold bind at 1. unfold utcnow at 1.
  unfold bind at 1. unfold add_signal at 1.
  unfold bind at 1. unfold get_db at 1. unfold bind at 1. unfold put_db at 1.
  unfold ret at 1.
  cbn [World.db World.clock World.exchange World.sent World.settings
       Database.signal_messages Database.market_messages Database.trades
       Database.trade_management_config].
  rewrite Hsm. fold (signal_row message_input parsed w (S (World.clock w1))).
  fold signal.
  set (w3 := World.mk _ _ _ _ _).
  destruct (auto_execute && TradeManagementConfig.auto_execute_trades config).
  - destruct (total_run w3 (execute_trade_total (SignalMessage.id signal) user_id))
      as (er & w4 & He).
    rewrite (@bind_ok _ _ _ _ _ _ _ He). unfold ret.
    pose proof (execute_trade_keeps_signals (SignalMessage.id signal) user_id w3)
      as Hk.
    rewrite He in Hk. cbn [snd] in Hk. destruct Hk as [Hkm Hks].
    eexists. eexists. split; [reflexivity |].
    split; [reflexivity |].
    split; [rewrite Hks; reflexivity |].
    split; [rewrite Hkm; subst w3; cbn; rewrite Hmm; reflexivity |].
    split; [discriminate |].
    intros _. exists er, w3. split; [exact He | reflexivity].
  - unfold ret. eexists. eexists. split; [reflexivity |].
    split; [reflexivity |].
    split; [reflexivity |].
    split; [subst w3; cbn; rewrite Hmm; reflexivity |].
    split; [| discriminate].
    intros _. split; [reflexivity |]. subst w3. cbn. auto.
Qed.
End ProcessMessage.

Lemma unparsable_message_is_stored_and_dropped_witness :
  let w := world_of (market "NEW") db_with_trade in
  exists w' : World.t,
    @process_telegram_message latin1 unparsable_input 1 true w
    = (Ok (ProcessResult.mk false None None
             (Lit "Failed to parse signal from message") None), w') /\
    Database.market_messages (World.db w')
    = [message_row unparsable_input w 0] /\
    Database.signal_messages (World.db w') = [btc_signal] /\
    Database.trades (World.db w') = [open_btc_trade] /\
    World.sent w' = [].
Proof.
  intros w.
  apply (@unparsable_message_is_stored_and_dropped latin1 unparsable_input 1 true
           w w default_config).
  - run.
  - vm_compute. reflexivity.
Defined.

Lemma parsed_signal_is_stored_witness :
  let w := world_of (market "NEW") db_with_trade in
  let signal := signal_row example_input example_signal w 1 in
  exists (r : ProcessResult.t) (w' : World.t),
    @process_telegram_message latin1 example_input 1 false w = (Ok r, w') /\
    ProcessResult.signal r = Some signal /\
    Database.signal_messages (World.db w') = [btc_signal; signal].
Proof.
  intros w signal.
  destruct (@parsed_signal_is_stored latin1 example_input 1 false
              w w default_config example_signal
              ltac:(run) ltac:(vm_compute; reflexivity))
    as (r & w' & Hrun & Hsig & Hrows & _).
  exists r, w'. auto.
Defined.

(** ** Listing positions *)

Section ActivePositions.
Context {U : PyUnicode}.

Lemma position_response_spec (db_trades : list Trade.t) (pos : PositionInfo.t) :
  match position_response db_trades pos with
  | Ok r => response_for db_trades pos r
  | Raise _ => ~ named pos
  end.
Proof.
  unfold position_response.
  destruct (PositionInfo.symbol pos) as [| b | z | s | l | d] eqn:Es;
    cbn [str_field res_bind];
    try (intros [s' Hs']; rewrite Es in Hs'; discriminate Hs').
  unfold response_for. cbn [PositionResponse.pair PositionResponse.side
    PositionResponse.entry_price PositionResponse.quantity
    PositionResponse.leverage PositionResponse.unrealized_pnl
    PositionResponse.unrealized_pnl_percent PositionResponse.margin
    PositionResponse.status PositionResponse.id PositionResponse.stop_loss
    PositionResponse.take_profit PositionResponse.opened_at].
  rewrite Es.
  repeat (split; [reflexivity |]).
  cbn [eq_str].
  destruct (find _ db_trades); auto.
Qed.

Lemma position_responses_spec (db_trades : list Trade.t)
      (positions : list PositionInfo.t) :
  match position_responses db_trades positions with
  | Ok rs => Forall2 (response_for db_trades) positions rs
  | Raise _ => ~ Forall named positions
  end.
Proof.
  induction positions as [| pos rest IH]; cbn [position_responses].
  - constructor.
  - pose proof (position_response_spec db_trades pos) as Hp.
    destruct (position_response db_trades pos) as [r | e]; cbn [res_bind].
    + destruct (position_responses db_trades rest) as [rs | e]; cbn [res_bind].
      * constructor; assumption.
      * intros H. inversion H; subst. contradiction.
    + intros H. inversion H; subst. contradiction.
Qed.

Lemma get_active_positions_run (user_id : Z) (w w0 : World.t)
      (positions : list PositionInfo.t) :
  get_positions w = (Ok positions, w0) ->
  get_active_positions user_id w
  = (Ok (match position_responses (open_trades user_id (World.db w)) positions with
         | Ok rs => rs
         | Raise _ => []
         end), w0).
Proof.
  intros Hg.
  assert (F : frame (fun _ => false) w w0) by quiet Hg.
  destruct F as (_ & _ & _ & Hdb & _).
  unfold get_active_positions, try_except.
  rewrite (@bind_ok _ _ _ _ _ _ _ Hg).
  unfold bind, get_db, lift, ret. rewrite Hdb.
  destruct (position_responses _ _); reflexivity.
Qed.
End ActivePositions.

(** X21. [get_active_positions] lists the positions the exchange
    reports, one response per position and in the same order, whether or
    not the database knows them: each response carries the position's
    own figures, the leveraged profit percentage and the status OPEN,
    and is matched with the user's first OPEN trade on its symbol, whose
    key, levels and opening time it takes; a position with no such trade
    gets the key 0 and no levels. If the symbol of any position is not a
    text the whole list comes back empty. The database is not
    changed. *)
Theorem get_active_positions_lists_exchange_positions :
  forall (U : PyUnicode) (user_id : Z) (w w0 : World.t)
         (positions : list PositionInfo.t),
    get_positions w = (Ok positions, w0) ->
    exists rs : list PositionResponse.t,
      get_active_positions user_id w = (Ok rs, w0) /\
      World.db w0 = World.db w /\
      (Forall named positions ->
       Forall2 (response_for (open_trades user_id (World.db w))) positions rs) /\
      (~ Forall named positions -> rs = []).
Proof.
  intros U user_id w w0 positions Hg.
  assert (F : frame (fun _ => false) w w0) by quiet Hg.
  destruct F as (_ & _ & _ & Hdb & _).
  rewrite (get_active_positions_run user_id w Hg).
  eexists. split; [reflexivity |]. split; [exact Hdb |].
  pose proof (position_responses_spec (open_trades user_id (World.db w)) positions)
    as Hs.
  destruct (position_responses _ positions) as [rs | e].
  - split; [intros _; exact Hs |].
    intros Hn. exfalso. apply Hn.
    clear - Hs. induction Hs as [| pos r ps rs Hr _ IH]; constructor; [| exact IH].
    exists (PositionResponse.pair r). apply Hr.
  - split; [intros Hn; contradiction | reflexivity].
Qed.

Lemma get_active_positions_lists_exchange_positions_witness :
  let w := world_of market_with_position db_with_trade in
  exists rs : list PositionResponse.t,
    @get_active_positions latin1 1 w = (Ok rs, after_request w position_query) /\
    World.db (after_request w position_query) = World.db w.
Proof.
  intros w.
  edestruct (@get_active_positions_lists_exchange_positions latin1 1 w
               (after_request w position_query))
    as (rs & Hrun & Hdb & _); [run |].
  exists rs. auto.
Defined.

Section TotalProfit.
Context {U : PyUnicode}.

Lemma responses_figures (db_trades : list Trade.t)
      (positions : list PositionInfo.t) (rs : list PositionResponse.t) :
  Forall2 (response_for db_trades) positions rs ->
  map PositionResponse.unrealized_pnl rs = map PositionInfo.unrealized_pnl positions /\
  map PositionResponse.margin rs = map PositionInfo.margin positions /\
  length rs = length positions.
Proof.
  intros H. induction H as [| pos r ps rs Hr _ (IH1 & IH2 & IH3)]; [auto |].
  destruct Hr as (_ & _ & _ & _ & _ & Hp & _ & Hm & _).
  cbn [map length]. rewrite Hp, Hm, IH1, IH2, IH3. auto.
Qed.

Lemma get_total_pnl_run (user_id : Z) (w w0 : World.t)
      (rs : list PositionResponse.t) :
  get_active_positions user_id w = (Ok rs, w0) ->
  World.db w0 = World.db w ->
  let total_pnl := py_sum (map PositionResponse.unrealized_pnl rs) in
  let total_margin := py_sum (map PositionResponse.margin rs) in
  get_total_pnl user_id w
  = (Ok (TotalPnl.mk total_pnl
           (if Qlt_bool 0 total_margin then total_pnl / total_margin * 100 else 0)
           (Z.of_nat (length rs))
           (Z.of_nat (closed_trades user_id w + length rs))), w0).
Proof.
  intros Ha Hdb. cbv zeta. unfold get_total_pnl, try_except.
  rewrite (@bind_ok _ _ _ _ _ _ _ Ha).
  unfold bind, get_db, ret, closed_trades. rewrite Hdb. reflexivity.
Qed.
End TotalProfit.

(** X22. [get_total_pnl] adds up what the exchange reports, whatever
    the database holds of it: the total profit is the sum of the
    positions' unrealized profits, the percentage is that total relative
    to the summed margins, times 100, and 0 when the summed margin is not
    positive; the number of open positions is the number of reported
    positions, and the number of trades adds the user's CLOSED trades to
    it. When some position's symbol is not a text the position list is
    empty, so the totals are 0 and only the CLOSED trades are counted. *)
Theorem get_total_pnl_adds_up_reported_positions :
  forall (U : PyUnicode) (user_id : Z) (w w0 : World.t)
         (positions : list PositionInfo.t),
    get_positions w = (Ok positions, w0) ->
    (Forall named positions ->
     let total_pnl := py_sum (map PositionInfo.unrealized_pnl positions) in
     let total_margin := py_sum (map PositionInfo.margin positions) in
     get_total_pnl user_id w
     = (Ok (TotalPnl.mk total_pnl
              (if Qlt_bool 0 total_margin
               then total_pnl / total_margin * 100 else 0)
              (Z.of_nat (length positions))
              (Z.of_nat (closed_trades user_id w + length positions))), w0)) /\
    (~ Forall named positions ->
     get_total_pnl user_id w
     = (Ok (TotalPnl.mk 0 0 0 (Z.of_nat (closed_trades user_id w))), w0)).
Proof.
  intros U user_id w w0 positions Hg.
  assert (F : frame (fun _ => false) w w0) by quiet Hg.
  destruct F as (_ & _ & _ & Hdb & _).
  pose proof (get_active_positions_run user_id w Hg) as Ha.
  pose proof (position_responses_spec (open_trades user_id (World.db w)) positions)
    as Hs.
  destruct (position_responses _ positions) as [rs | e]; split.
  - intros _. cbv zeta.
    rewrite (get_total_pnl_run user_id w Ha Hdb).
    destruct (responses_figures Hs) as (-> & -> & ->). reflexivity.
  - intros Hn. exfalso. apply Hn.
    clear - Hs. induction Hs as [| pos r ps rs Hr _ IH]; constructor; [| exact IH].
    exists (PositionResponse.pair r). apply Hr.
  - intros Hn. contradiction.
  - intros _. rewrite (get_total_pnl_run user_id w Ha Hdb). cbn.
    rewrite Nat.add_0_r. reflexivity.
Qed.

Lemma get_total_pnl_adds_up_reported_positions_witness :
  let w := world_of market_with_position db_with_trade in
  fst (@get_total_pnl latin1 1 w) = Ok (TotalPnl.mk 500 (500 / (21000 # 20) * 100) 1 1).
Proof.
  intros w.
  edestruct (@get_total_pnl_adds_up_reported_positions latin1 1 w
               (after_request w position_query)) as [H _]; [run |].
  rewrite H.
  - run.
  - repeat constructor. eexists. reflexivity.
Defined.

(** ** The matcher and the relation it searches *)

Lemma many_sound (A : Type) (p : N -> bool) (s : str) (k : str -> option A) (x : A) :
  many p s k = Some x ->
  exists run s', s = run ++ s' /\ forallb p run = true /\ k s' = Some x.
Proof.
  induction s as [| c s IH]; cbn [many]; intros H.
  - exists [], []. auto.
  - destruct (p c) eqn:Ep.
    + destruct (many p s k) as [y |] eqn:Em.
      * inversion H; subst y. destruct (IH eq_refl) as (run & s' & -> & Hr & Hk).
        exists (c :: run), s'. cbn [app forallb]. rewrite Ep, Hr. auto.
      * exists [], (c :: s). auto.
    + exists [], (c :: s). auto.
Qed.

(** Whatever the matcher finds is a match. *)
Lemma rmatch_sound (A : Type) (r : regex) :
  forall (s : str) (g : option str) (k : str -> option str -> option A) (x : A),
    rmatch r s g k = Some x ->
    exists s' g', matches r s g s' g' /\ k s' g' = Some x.
Proof.
  induction r as [p | p | r1 IH1 r2 IH2 | r1 IH1 r2 IH2 | r1 IH1 | r1 IH1];
    intros s g k x H; cbn [rmatch] in H; cbn [matches].
  - destruct s as [| c s]; [discriminate H |].
    destruct (p c) eqn:Ep; [| discriminate H].
    exists s, g. split; [exists c; auto | exact H].
  - apply many_sound in H. destruct H as (run & s' & Hs & Hr & Hk).
    exists s', g. split; [exists run; auto | exact Hk].
  - apply IH1 in H. destruct H as (s1 & g1 & H1 & H).
    apply IH2 in H. destruct H as (s2 & g2 & H2 & Hk).
    exists s2, g2. split; [exists s1, g1; auto | exact Hk].
  - destruct (rmatch r1 s g k) as [y |] eqn:E1.
    + inversion H; subst y. apply IH1 in E1. destruct E1 as (s' & g' & Hm & Hk).
      exists s', g'. auto.
    + apply IH2 in H. destruct H as (s' & g' & Hm & Hk). exists s', g'. auto.
  - destruct (rmatch r1 s g k) as [y |] eqn:E1.
    + inversion H; subst y. apply IH1 in E1. destruct E1 as (s' & g' & Hm & Hk).
      exists s', g'. auto.
    + exists s, g. auto.
  - apply IH1 in H. destruct H as (s' & g1 & Hm & Hk).
    exists s', (Some (firstn (length s - length s') s)).
    split; [exists g1; auto | exact Hk].
Qed.

(** A match consumes a prefix of the text. *)
Lemma matches_prefix (r : regex) :
  forall s g s' g', matches r s g s' g' -> exists t, s = t ++ s'.
Proof.
  induction r as [p | p | r1 IH1 r2 IH2 | r1 IH1 r2 IH2 | r1 IH1 | r1 IH1];
    intros s g s' g' H; cbn [matches] in H.
  - destruct H as (c & -> & _). exists [c]. reflexivity.
  - destruct H as (run & -> & _). exists run. reflexivity.
  - destruct H as (s1 & g1 & H1 & H2).
    apply IH1 in H1. apply IH2 in H2. destruct H1 as [t1 ->], H2 as [t2 ->].
    exists (t1 ++ t2). apply app_assoc.
  - destruct H as [H | H]; eauto.
  - destruct H as [H | [-> _]]; [eauto | exists []; reflexivity].
  - destruct H as (g1 & H & _). eauto.
Qed.

Lemma matches_groupless (r : regex) :
  groupless r = true ->
  forall s g s' g', matches r s g s' g' -> g' = g.
Proof.
  induction r as [p | p | r1 IH1 r2 IH2 | r1 IH1 r2 IH2 | r1 IH1 | r1 IH1];
    cbn [groupless]; intros Hg s g s' g' H; cbn [matches] in H.
  - destruct H as (c & _ & _ & ->). reflexivity.
  - destruct H as (run & _ & _ & ->). reflexivity.
  - apply andb_true_iff in Hg. destruct Hg as [Hg1 Hg2].
    destruct H as (s1 & g1 & H1 & H2).
    rewrite (IH2 Hg2 _ _ _ _ H2). apply (IH1 Hg1 _ _ _ _ H1).
  - apply andb_true_iff in Hg. destruct Hg as [Hg1 Hg2].
    destruct H as [H | H]; eauto.
  - destruct H as [H | [_ ->]]; eauto.
  - discriminate Hg.
Qed.

Lemma firstn_consumed (t s' : str) :
  firstn (length (t ++ s') - length s') (t ++ s') = t.
Proof.
  rewrite length_app, Nat.add_sub. rewrite firstn_app, Nat.sub_diag, firstn_all.
  cbn. apply app_nil_r.
Qed.

(** What a search returns was captured by some match of the pattern. *)
Lemma re_search_sound (r : regex) (s : str) (g : option str) :
  re_search r s = Some g ->
  exists s0 s', matches r s0 None s' g.
Proof.
  induction s as [| c s IH]; cbn [re_search].
  - destruct (rmatch r [] None _) as [cap |] eqn:E; [| discriminate].
    intros H. inversion H; subst cap.
    apply rmatch_sound in E. destruct E as (s' & g' & Hm & Hk).
    inversion Hk; subst. eauto.
  - destruct (rmatch r (c :: s) None _) as [cap |] eqn:E.
    + intros H. inversion H; subst cap.
      apply rmatch_sound in E. destruct E as (s' & g' & Hm & Hk).
      inversion Hk; subst. eauto.
    + exact IH.
Qed.

(** ** Numbers in the text *)

Section NumberText.
Context {U : PyUnicode}.

Lemma matches_number (s : str) (g : option str) (s' : str) (g' : option str) :
  matches NUMBER s g s' g' ->
  g' = g /\ exists t, s = t ++ s' /\ number_text t.
Proof.
  unfold NUMBER, Rmany1. change (lit ".") with (Rchar (N.eqb 46%N)).
  cbn [matches].
  intros (s1 & g1 & (s2 & g2 & (c & -> & Hc & ->) & (run & -> & Hrun & ->))
          & (s3 & g3 & Hpoint & (frac & -> & Hfrac & ->))).
  destruct Hpoint as [(d & Hd & Hp & ->) | [<- ->]].
  - apply N.eqb_eq in Hp. subst d s1.
    split; [reflexivity |].
    exists ((c :: run) ++ 46%N :: frac). split.
    + cbn [app]. rewrite <- !app_assoc. reflexivity.
    + exists (c :: run), (46%N :: frac). split; [reflexivity |].
      split; [discriminate |]. split; [cbn [forallb]; rewrite Hc, Hrun; reflexivity |].
      right. exists frac. auto.
  - split; [reflexivity |].
    exists ((c :: run) ++ frac). split.
    + cbn [app]. rewrite <- !app_assoc. reflexivity.
    + exists ((c :: run) ++ frac), []. split; [symmetry; apply app_nil_r |].
      split; [discriminate |]. split; [| left; reflexivity].
      rewrite forallb_app. cbn [forallb]. rewrite Hc, Hrun, Hfrac. reflexivity.
Qed.

Lemma matches_group_number (s : str) (g : option str) (s' : str) (g' : option str) :
  matches (Rgroup NUMBER) s g s' g' ->
  exists t, g' = Some t /\ number_text t.
Proof.
  cbn [matches]. intros (g1 & Hn & ->).
  apply matches_number in Hn. destruct Hn as (_ & t & -> & Ht).
  exists t. rewrite firstn_consumed. auto.
Qed.

(** Each of the four number patterns captures the text of a number. *)
Lemma entry_pattern_number (s : str) (g : option str) :
  re_search ENTRY_PATTERN s = Some g -> exists t, g = Some t /\ number_text t.
Proof.
  intros H. apply re_search_sound in H. destruct H as (s0 & s' & H).
  unfold ENTRY_PATTERN in H. cbn [matches] in H.
  destruct H as (s1 & g1 & _ & s2 & g2 & _ & s3 & g3 & _ & g4 & Hn & Hg).
  apply (@matches_group_number s3 g3 s' g). cbn [matches]. eauto.
Qed.

Lemma stop_loss_pattern_number (s : str) (g : option str) :
  re_search STOP_LOSS_PATTERN s = Some g -> exists t, g = Some t /\ number_text t.
Proof.
  intros H. apply re_search_sound in H. destruct H as (s0 & s' & H).
  unfold STOP_LOSS_PATTERN in H. cbn [matches] in H.
  destruct H as (s1 & g1 & _ & s2 & g2 & _ & s3 & g3 & _ & g4 & Hn & Hg).
  apply (@matches_group_number s3 g3 s' g). cbn [matches]. eauto.
Qed.

Lemma take_profit_pattern_number (s : str) (g : option str) :
  re_search TAKE_PROFIT_PATTERN s = Some g -> exists t, g = Some t /\ number_text t.
Proof.
  intros H. apply re_search_sound in H. destruct H as (s0 & s' & H).
  unfold TAKE_PROFIT_PATTERN in H. cbn [matches] in H.
  destruct H as (s1 & g1 & _ & s2 & g2 & _ & s3 & g3 & _ & g4 & Hn & Hg).
  apply (@matches_group_number s3 g3 s' g). cbn [matches]. eauto.
Qed.

Lemma cmp_pattern_number (s : str) (g : option str) :
  re_search cmp_pattern s = Some g -> exists t, g = Some t /\ number_text t.
Proof.
  intros H. apply re_search_sound in H. destruct H as (s0 & s' & H).
  unfold cmp_pattern in H.
  change (matches (Rseq (Rgroup NUMBER) ?r) s0 None s' g)
    with (exists s1 g1, matches (Rgroup NUMBER) s0 None s1 g1 /\ matches r s1 g1 s' g)
    in H.
  destruct H as (s1 & g1 & Hn & Hrest).
  apply matches_groupless in Hrest; [| reflexivity]. subst g.
  apply (matches_group_number Hn).
Qed.
End NumberText.

Lemma parse_sign_unsigned (c : N) (s : str) :
  c <> 45%N -> c <> 43%N -> parse_sign (c :: s) = (false, c :: s).
Proof.
  intros H45 H43. unfold parse_sign.
  destruct c as [| p]; [reflexivity |].
  repeat (match goal with q : positive |- _ => destruct q end; try reflexivity);
    exfalso; auto.
Qed.

Lemma decimal_value_nonneg (d : decimal) : dec_neg d = false -> 0 <= decimal_value d.
Proof.
  intros H. unfold decimal_value. rewrite H, Qred_correct.
  apply Qmult_le_0_compat.
  - change 0 with (inject_Z 0). rewrite <- Zle_Qle. apply N2Z.is_nonneg.
  - apply Qpower_0_le. discriminate.
Qed.

Section NumberValue.
Context {U : PyUnicode}.
Hypothesis table : digit_table_ok U.

Lemma span_digits_run (run rest : str) :
  forallb is_digit run = true ->
  match rest with
  | c :: _ => py_decimal c = None
  | [] => True
  end ->
  exists ds, span_digits (run ++ rest) = (ds, rest) /\ (run <> [] -> ds <> []).
Proof.
  intros Hrun Hrest. induction run as [| c run IH].
  - exists []. split; [| congruence]. cbn [app].
    destruct rest as [| c rest]; [reflexivity |].
    cbn [span_digits]. rewrite Hrest. reflexivity.
  - cbn [forallb] in Hrun. apply andb_true_iff in Hrun. destruct Hrun as [Hc Hrun].
    destruct (IH Hrun) as (ds & Hds & _).
    unfold is_digit in Hc. cbn [app span_digits].
    destruct (py_decimal c) as [d |]; [| discriminate Hc].
    rewrite Hds. exists (d :: ds). split; [reflexivity | discriminate].
Qed.

Lemma number_text_not_space (t : str) :
  number_text t -> Forall (fun c => is_space c = false) t.
Proof.
  destruct table as [_ Hd].
  assert (Hdig : forall l, forallb is_digit l = true ->
                           Forall (fun c => is_space c = false) l).
  { intros l Hl. apply Forall_forall. intros c Hc.
    rewrite forallb_forall in Hl. specialize (Hl c Hc). unfold is_digit in Hl.
    destruct (py_decimal c) as [d |] eqn:E; [| discriminate Hl].
    apply (Hd c d E). }
  intros (whole & rest & -> & _ & Hw & [-> | (frac & -> & Hf)]).
  - rewrite app_nil_r. apply Hdig, Hw.
  - apply Forall_app. split; [apply Hdig, Hw |].
    constructor; [reflexivity | apply Hdig, Hf].
Qed.

(** The text of a number always reads as a number, and not a negative
    one. *)
Lemma number_text_value (t : str) :
  number_text t ->
  exists d, parse_decimal t = Some d /\ dec_neg d = false.
Proof.
  intros Ht. pose proof (number_text_not_space Ht) as Hns.
  destruct table as [Hpoint Hd].
  destruct Ht as (whole & rest & -> & Hne & Hw & Hrest).
  unfold parse_decimal. rewrite (strip_id Hns).
  destruct whole as [| c whole]; [congruence |].
  assert (Hc : exists d, py_decimal c = Some d).
  { cbn [forallb] in Hw. apply andb_true_iff in Hw. destruct Hw as [Hc _].
    unfold is_digit in Hc. destruct (py_decimal c) as [d |]; [eauto | discriminate]. }
  destruct Hc as [d0 Hc]. destruct (Hd c d0 Hc) as (_ & H45 & H43).
  cbn [app]. rewrite (parse_sign_unsigned _ H45 H43).
  change (c :: whole ++ rest) with ((c :: whole) ++ rest).
  destruct Hrest as [-> | (frac & -> & Hf)].
  - destruct (span_digits_run (c :: whole) [] Hw I) as (ds & -> & Hds).
    destruct ds as [| d ds]; [exfalso; apply Hds; [discriminate | reflexivity] |].
    cbn. eauto.
  - destruct (span_digits_run (c :: whole) (46%N :: frac) Hw Hpoint) as (ds & -> & Hds).
    destruct ds as [| d ds]; [exfalso; apply Hds; [discriminate | reflexivity] |].
    destruct (span_digits_run frac [] Hf I) as (fs & Hfs & _).
    rewrite app_nil_r in Hfs. rewrite Hfs.
    cbn. eauto.
Qed.

Lemma number_group_value (g : option str) :
  (exists t, g = Some t /\ number_text t) ->
  exists x, float_of_group g = Ok x /\ 0 <= x.
Proof.
  intros (t & -> & Ht). destruct (number_text_value Ht) as (d & Hd & Hn).
  unfold float_of_group, float_of_str. rewrite Hd.
  exists (decimal_value d). split; [reflexivity | apply decimal_value_nonneg, Hn].
Qed.

(** The three extractions never raise, and what they find is not
    negative. *)
Lemma extract_entry_value (message : str) :
  exists r, _extract_entry message = Ok r /\
            match r with Some x => 0 <= x | None => True end.
Proof.
  unfold _extract_entry.
  destruct (re_search ENTRY_PATTERN message) as [g |] eqn:E.
  - destruct (number_group_value (entry_pattern_number _ E)) as (x & -> & Hx).
    cbn [res_bind]. eauto.
  - destruct (re_search cmp_pattern message) as [g |] eqn:E2.
    + destruct (number_group_value (cmp_pattern_number _ E2)) as (x & -> & Hx).
      cbn [res_bind]. eauto.
    + exists None. auto.
Qed.

Lemma extract_stop_loss_value (message : str) :
  exists r, _extract_stop_loss message = Ok r /\
            match r with Some x => 0 <= x | None => True end.
Proof.
  unfold _extract_stop_loss.
  destruct (re_search STOP_LOSS_PATTERN message) as [g |] eqn:E.
  - destruct (number_group_value (stop_loss_pattern_number _ E)) as (x & -> & Hx).
    cbn [res_bind]. eauto.
  - exists None. auto.
Qed.

Lemma extract_take_profit_value (message : str) :
  exists r, _extract_take_profit message = Ok r /\
            match r with Some x => 0 <= x | None => True end.
Proof.
  unfold _extract_take_profit.
  destruct (re_search TAKE_PROFIT_PATTERN message) as [g |] eqn:E.
  - destruct (number_group_value (take_profit_pattern_number _ E)) as (x & -> & Hx).
    cbn [res_bind]. eauto.
  - exists None. auto.
Qed.
End NumberValue.

Lemma round_half_even_nonneg (q : Q) : 0 <= q -> (0 <= round_half_even q)%Z.
Proof.
  intros H. assert (Hf : (0 <= Qfloor q)%Z).
  { change 0%Z with (Qfloor 0). apply Qfloor_resp_le, H. }
  unfold round_half_even.
  destruct (Qcompare _ _); [destruct (Z.even _) | |]; lia.
Qed.

Lemma py_round_nonneg (x : Q) (n : Z) : 0 <= x -> 0 <= py_round x n.
Proof.
  intros H. unfold py_round. rewrite Qred_correct.
  assert (Hs : (0 <= 10 ^ n)%Z) by (apply Z.pow_nonneg; lia).
  assert (Hr : (0 <= round_half_even (x * inject_Z (10 ^ n)))%Z).
  { apply round_half_even_nonneg. apply Qmult_le_0_compat; [exact H |].
    change 0 with (inject_Z 0). rewrite <- Zle_Qle. exact Hs. }
  unfold Qle. cbn. lia.
Qed.

(** What a successful [parse_message] read from the text. *)
Lemma parse_message_fields (U : PyUnicode) (self : TelegramParser.t)
      (message : str) (sig : ParsedSignalData.t) :
  parse_message self message = Some sig ->
  _extract_entry message = Ok (Some (ParsedSignalData.entry sig)) /\
  ~ ParsedSignalData.entry sig == 0 /\
  _extract_stop_loss message = Ok (ParsedSignalData.original_sl sig) /\
  _extract_take_profit message = Ok (ParsedSignalData.original_tp sig) /\
  (ParsedSignalData.stop_loss sig, ParsedSignalData.take_profit sig)
  = _calculate_sl_tp self (ParsedSignalData.entry sig)
      (ParsedSignalData.setup_type sig).
Proof.
  unfold parse_message, parse_message_body.
  destruct (_extract_pair message) as [[| c p] |]; try discriminate.
  destruct (_extract_direction message) as [[| c' d] |]; try discriminate.
  destruct (_extract_entry message) as [[e |] | ex]; cbn [res_bind]; try discriminate.
  destruct (Qeq_bool e 0) eqn:E0; try discriminate.
  destruct (_extract_stop_loss message) as [osl | ex]; cbn [res_bind];
    try discriminate.
  destruct (_extract_take_profit message) as [otp | ex]; cbn [res_bind];
    try discriminate.
  destruct (_calculate_sl_tp self e (c' :: d)) as [sl tp] eqn:Ec.
  intros H. inversion H; subst; cbn.
  repeat split; auto. apply Qeq_bool_false, E0.
Qed.

(** X23. Whatever the text, the numbers the parser reads from it are
    well formed: the numeric conversions never raise, so parsing never
    ends in the exception handler, and nothing read is negative. A
    parsed signal therefore has a strictly positive entry price, and
    with percentages between 0 and 100 neither derived level is
    negative. This holds for every digit table in which a digit is
    neither white space nor a sign and the point is not a digit. *)
Theorem parsed_signal_has_a_positive_entry :
  forall U : PyUnicode,
    digit_table_ok U ->
    (forall (self : TelegramParser.t) (message : str),
        exists r, parse_message_body self message = Ok r) /\
    (forall (self : TelegramParser.t) (message : str) (sig : ParsedSignalData.t),
        parse_message self message = Some sig ->
        0 < ParsedSignalData.entry sig /\
        (forall x, ParsedSignalData.original_sl sig = Some x -> 0 <= x) /\
        (forall x, ParsedSignalData.original_tp sig = Some x -> 0 <= x) /\
        (0 <= TelegramParser.sl_percentage self <= 100 ->
         0 <= TelegramParser.tp_percentage self <= 100 ->
         0 <= ParsedSignalData.stop_loss sig /\
         0 <= ParsedSignalData.take_profit sig)).
Proof.
  intros U Ht. split.
  - intros self message. unfold parse_message_body.
    destruct (_extract_pair message) as [[| c p] |]; eauto.
    destruct (_extract_direction message) as [[| c' d] |]; eauto.
    destruct (extract_entry_value Ht message) as ([e |] & -> & _);
      cbn [res_bind]; eauto.
    destruct (Qeq_bool e 0); eauto.
    destruct (extract_stop_loss_value Ht message) as (osl & -> & _).
    destruct (extract_take_profit_value Ht message) as (otp & -> & _).
    cbn [res_bind]. destruct (_calculate_sl_tp self e (c' :: d)). eauto.
  - intros self message sig H.
    destruct (@parse_message_fields U self message sig H) as (He & Hnz & Hsl & Htp & Hc).
    destruct (extract_entry_value Ht message) as (re & He' & Hre).
    destruct (extract_stop_loss_value Ht message) as (rsl & Hsl' & Hrsl).
    destruct (extract_take_profit_value Ht message) as (rtp & Htp' & Hrtp).
    rewrite He in He'. inversion He'; subst re. cbn in Hre.
    rewrite Hsl in Hsl'. inversion Hsl'; subst rsl.
    rewrite Htp in Htp'. inversion Htp'; subst rtp.
    assert (Hpos : 0 < ParsedSignalData.entry sig).
    { destruct (Qlt_le_dec 0 (ParsedSignalData.entry sig)) as [Hl | Hl]; [exact Hl |].
      exfalso. apply Hnz. apply Qle_antisym; assumption. }
    split; [exact Hpos |].
    split; [intros x Hx; rewrite Hx in Hrsl; exact Hrsl |].
    split; [intros x Hx; rewrite Hx in Hrtp; exact Hrtp |].
    intros [Hs0 Hs1] [Ht0 Ht1].
    unfold _calculate_sl_tp in Hc.
    set (E := ParsedSignalData.entry sig) in *.
    set (sl := TelegramParser.sl_percentage self) in *.
    set (tp := TelegramParser.tp_percentage self) in *.
    assert (Hsl1 : 0 <= sl / 100 <= 1).
    { split; [apply Qle_shift_div_l; lra | apply Qle_shift_div_r; lra]. }
    assert (Htp1 : 0 <= tp / 100 <= 1).
    { split; [apply Qle_shift_div_l; lra | apply Qle_shift_div_r; lra]. }
    destruct (str_eqb (ParsedSignalData.setup_type sig) (cp "LONG"));
      inversion Hc as [[H1 H2]]; rewrite H1, H2;
      split; apply py_round_nonneg; apply Qmult_le_0_compat; lra.
Qed.

Lemma latin1_digit_table_ok : digit_table_ok latin1.
Proof.
  split; [reflexivity |].
  intros c d H. cbn in H. unfold ascii_decimal in H.
  destruct ((48 <=? c) && (c <=? 57))%N eqn:E; [| discriminate].
  apply andb_true_iff in E. destruct E as [E1 E2].
  apply N.leb_le in E1. apply N.leb_le in E2.
  assert (Hc : In c [48; 49; 50; 51; 52; 53; 54; 55; 56; 57]%N).
  { cbn. lia. }
  cbn in Hc.
  repeat (destruct Hc as [<- | Hc];
          [split; [reflexivity | split; discriminate] |]).
  destruct Hc.
Qed.

Lemma parsed_signal_has_a_positive_entry_witness :
  0 < ParsedSignalData.entry example_signal /\
  0 <= ParsedSignalData.stop_loss example_signal /\
  0 <= ParsedSignalData.take_profit example_signal.
Proof.
  destruct (proj2 (parsed_signal_has_a_positive_entry latin1_digit_table_ok)
              default_parser example_message example_signal
              ltac:(vm_compute; reflexivity))
    as (H1 & _ & _ & H4).
  split; [exact H1 |].
  apply H4; split; lazy; discriminate.
Defined.

(** ** The direction word *)

Lemma many_const (A : Type) (p : N -> bool) (s : str) (k : str -> option A) (x : A) :
  (forall s', k s' = Some x) -> many p s k = Some x.
Proof.
  intros Hk. induction s as [| c s IH]; cbn [many]; [apply Hk |].
  destruct (p c); [rewrite IH; reflexivity | apply Hk].
Qed.

Lemma startswith_length (l s : str) :
  startswith l s = true -> (length l <= length s)%nat.
Proof.
  revert s. induction l as [| a l IH]; intros [| b s] H; simpl in *;
    try lia; try discriminate.
  apply andb_true_iff in H. destruct H as [_ H]. apply IH in H. lia.
Qed.

(** A literal matches exactly where the text starts with it. *)
Lemma rmatch_lit (A : Type) (l : str) :
  l <> [] ->
  forall (s : str) cap (k : str -> option str -> option A),
    rmatch (lit_list l) s cap k
    = if startswith l s then k (skipn (length l) s) cap else None.
Proof.
  induction l as [| c l IH]; intros Hne s cap k; [congruence |].
  destruct l as [| c' l].
  - simpl. destruct s as [| y s]; [reflexivity |].
    destruct (N.eqb c y); reflexivity.
  - change (lit_list (c :: c' :: l)) with (Rseq (lit_char c) (lit_list (c' :: l))).
    change (startswith (c :: c' :: l) s)
      with (match s with
            | [] => false
            | y :: s' => N.eqb c y && startswith (c' :: l) s'
            end).
    simpl rmatch. destruct s as [| y s]; [reflexivity |].
    destruct (N.eqb c y); [| reflexivity].
    rewrite IH by discriminate. reflexivity.
Qed.

(** Where the direction pattern matches, and what it captures. *)
Lemma rmatch_direction_first (s : str) :
  rmatch DIRECTION_PATTERN s None (fun _ cap => Some cap)
  = if startswith (cp "LONG") s then Some (Some (cp "LONG"))
    else if startswith (cp "SHORT") s then Some (Some (cp "SHORT"))
    else None.
Proof.
  unfold DIRECTION_PATTERN. cbn [rmatch].
  match goal with
  | |- match rmatch (lit "LONG") s None ?k with _ => _ end = _ => set (K := k)
  end.
  assert (HK : forall l, startswith l s = true ->
             K (skipn (length l) s) None = Some (Some l)).
  { intros l Hl. unfold K.
    rewrite length_skipn.
    pose proof (startswith_length _ _ Hl) as Hlen.
    replace (length s - (length s - length l))%nat with (length l) by lia.
    rewrite (startswith_firstn _ _ Hl).
    apply many_const. intros [| c s']; [reflexivity |].
    destruct (one_of (GREEN ++ RED) c); reflexivity. }
  unfold lit. rewrite !rmatch_lit by discriminate.
  destruct (startswith (cp "LONG") s) eqn:El.
  - rewrite (HK _ El). reflexivity.
  - destruct (startswith (cp "SHORT") s) eqn:Es; [| reflexivity].
    apply (HK _ Es).
Qed.

Lemma re_search_first_keyword (s : str) :
  re_search DIRECTION_PATTERN s = option_map Some (first_keyword s).
Proof.
  induction s as [| c s IH]; cbn [re_search first_keyword];
    rewrite rmatch_direction_first.
  - reflexivity.
  - destruct (startswith (cp "LONG") (c :: s)); [reflexivity |].
    destruct (startswith (cp "SHORT") (c :: s)); [reflexivity |].
    exact IH.
Qed.

(** X24. When the upper-cased text contains LONG or SHORT, the
    direction is the one of the two words that occurs first, reading from
    the left; later words and the glyphs play no part. *)
Theorem direction_is_the_first_keyword :
  forall (U : PyUnicode) (message d : str),
    first_keyword (py_upper message) = Some d ->
    _extract_direction message = Some d.
Proof.
  intros U message d H. unfold _extract_direction.
  rewrite re_search_first_keyword, H. reflexivity.
Qed.

Lemma direction_is_the_first_keyword_witness :
  @_extract_direction latin1
    (cp "#ETHUSDT short the bounce, no long " ++ GREEN)
  = Some (cp "SHORT").
Proof.
  apply direction_is_the_first_keyword. vm_compute. reflexivity.
Defined.

(** ** The pair *)

Lemma matches_lit (l : str) :
  l <> [] ->
  forall s g s' g', matches (lit_list l) s g s' g' -> s = l ++ s' /\ g' = g.
Proof.
  induction l as [| c l IH]; intros Hne s g s' g' H; [congruence |].
  destruct l as [| c' l].
  - cbn in H. destruct H as (y & -> & Hy & ->).
    apply N.eqb_eq in Hy. subst y. auto.
  - change (lit_list (c :: c' :: l)) with (Rseq (lit_char c) (lit_list (c' :: l))) in H.
    cbn [matches lit_char] in H.
    destruct H as (s1 & g1 & (y & -> & Hy & ->) & H).
    apply N.eqb_eq in Hy. subst y.
    apply IH in H; [| discriminate]. destruct H as [-> ->]. auto.
Qed.

Lemma matches_opt_lit (l : str) (s : str) (g : option str) (s' : str)
      (g' : option str) :
  l <> [] ->
  matches (Ropt (lit_list l)) s g s' g' ->
  g' = g /\ (s = l ++ s' \/ s = s').
Proof.
  intros Hne [H | [-> ->]]; [| auto].
  apply matches_lit in H; [| exact Hne]. destruct H as [-> ->]. auto.
Qed.

(** What group 1 of the pair pattern holds: letters and digits, one of
    the quote assets, then possibly a point and possibly a P. *)
Lemma pair_pattern_group (s : str) (g : option str) :
  re_search PAIR_PATTERN s = Some g ->
  exists base quote dot pee : str,
    g = Some (base ++ quote ++ dot ++ pee) /\
    base <> [] /\ forallb pair_char base = true /\
    In quote quote_assets /\
    (dot = [] \/ dot = cp ".") /\ (pee = [] \/ pee = cp "P").
Proof.
  intros H. apply re_search_sound in H. destruct H as (s0 & s' & H).
  unfold PAIR_PATTERN in H.
  change (matches (Rseq ?a (Rgroup ?r)) s0 None s' g)
    with (exists s1 g1, matches a s0 None s1 g1 /\
            exists g2, matches r s1 g1 s' g2 /\
                       g = Some (firstn (length s1 - length s') s1)) in H.
  destruct H as (s1 & g1 & _ & g2 & H & ->).
  change (matches (Rseq (Rmany1 ?p) (Rseq ?q (Rseq ?d ?e))) s1 g1 s' g2)
    with (exists s2 g3, matches (Rmany1 p) s1 g1 s2 g3 /\
          exists s3 g4, matches q s2 g3 s3 g4 /\
          exists s4 g5, matches d s3 g4 s4 g5 /\ matches e s4 g5 s' g2) in H.
  destruct H as (s2 & g3 & Hb & s3 & g4 & Hq & s4 & g5 & Hd & Hp).
  unfold Rmany1 in Hb. cbn [matches] in Hb.
  destruct Hb as (s5 & g6 & (c & -> & Hc & ->) & (run & -> & Hrun & ->)).
  apply matches_opt_lit in Hd; [| discriminate].
  apply matches_opt_lit in Hp; [| discriminate].
  destruct Hd as [_ Hd]. destruct Hp as [_ Hp].
  assert (Hquote : exists quote, In quote quote_assets /\ s2 = quote ++ s3).
  { cbn [matches] in Hq.
    destruct Hq as [Hq | [Hq | [Hq | Hq]]];
      apply matches_lit in Hq; try discriminate; destruct Hq as [-> _];
      eexists; (split; [| reflexivity]); cbn; auto. }
  destruct Hquote as (quote & Hin & ->).
  assert (Hg : forall dot pee,
             s3 = dot ++ s4 -> s4 = pee ++ s' ->
             firstn (length (c :: run ++ quote ++ s3) - length s')
                    (c :: run ++ quote ++ s3)
             = (c :: run) ++ quote ++ dot ++ pee).
  { intros dot pee -> ->.
    replace (c :: run ++ quote ++ dot ++ pee ++ s')
      with (((c :: run) ++ quote ++ dot ++ pee) ++ s')
      by (cbn [app]; rewrite <- !app_assoc; reflexivity).
    apply firstn_consumed. }
  assert (Hbase : forallb pair_char (c :: run) = true).
  { cbn [forallb]. unfold pair_char at 1. rewrite Hc. exact Hrun. }
  destruct Hd as [Hd | Hd], Hp as [Hp | Hp].
  - exists (c :: run), quote, (cp "."), (cp "P").
    rewrite (Hg _ _ Hd Hp). repeat split; auto; discriminate.
  - exists (c :: run), quote, (cp "."), [].
    rewrite (Hg (cp ".") [] Hd Hp). repeat split; auto; discriminate.
  - exists (c :: run), quote, [], (cp "P").
    rewrite (Hg [] (cp "P") Hd Hp). repeat split; auto; discriminate.
  - exists (c :: run), quote, [], [].
    rewrite (Hg [] [] Hd Hp). repeat split; auto; discriminate.
Qed.

Lemma drop_last_concat (base x y : str) (n : nat) :
  n = length y -> drop_last n (base ++ x ++ y) = base ++ x.
Proof.
  intros ->. unfold drop_last. rewrite app_assoc. apply firstn_consumed.
Qed.

(** X25. The pair [_extract_pair] returns is a non-empty run of
    upper-case ASCII letters and digits followed by one of the quote
    assets USDT, BUSD, BTC and ETH; a suffix P or .P is removed, but a
    point that is not followed by P stays at the end of the pair. *)
Theorem extracted_pair_ends_in_quote_asset :
  forall (U : PyUnicode) (message p : str),
    _extract_pair message = Some p ->
    exists base quote : str,
      base <> [] /\ forallb pair_char base = true /\
      In quote quote_assets /\
      (p = base ++ quote \/ p = base ++ quote ++ cp ".").
Proof.
  intros U message p H. unfold _extract_pair in H.
  destruct (re_search PAIR_PATTERN (py_upper message)) as [[g |] |] eqn:E;
    try discriminate.
  apply pair_pattern_group in E.
  destruct E as (base & quote & dot & pee & Eg & Hne & Hb & Hin & Hd & Hp).
  inversion Eg; subst g. clear Eg.
  exists base, quote.
  split; [exact Hne |]. split; [exact Hb |]. split; [exact Hin |].
  unfold endswith in H. rewrite !rev_app_distr in H.
  remember (drop_last 2) as d2 eqn:Ed2.
  remember (drop_last 1) as d1 eqn:Ed1.
  cbn in Hin.
  destruct Hin as [<- | [<- | [<- | [<- | []]]]];
    destruct Hd as [-> | ->], Hp as [-> | ->];
    cbn in H; injection H as <-; subst d1 d2.
  all: try (left; reflexivity).
  all: try (right; reflexivity).
  all: left;
    match goal with
    | |- _ = ?b ++ ?q =>
        first [ exact (@drop_last_concat b q (cp ".P") 2 eq_refl)
              | exact (@drop_last_concat b q (cp "P") 1 eq_refl) ]
    end.
Qed.

Lemma extracted_pair_ends_in_quote_asset_witness :
  @_extract_pair latin1 (cp "#btcusdt. long") = Some (cp "BTCUSDT.") /\
  exists base quote : str,
    forallb pair_char base = true /\
    In quote quote_assets /\
    (cp "BTCUSDT." = base ++ quote \/ cp "BTCUSDT." = base ++ quote ++ cp ".").
Proof.
  assert (H : @_extract_pair latin1 (cp "#btcusdt. long") = Some (cp "BTCUSDT."))
    by (vm_compute; reflexivity).
  split; [exact H |].
  destruct (@extracted_pair_ends_in_quote_asset latin1 _ _ H)
    as (base & quote & _ & Hb & Hq & Hp).
  exists base, quote. auto.
Defined.

(** ** The trade row of an executed signal *)


Section TradeRow.
Context {U : PyUnicode}.
Variables (signal_id user_id : Z).


End TradeRow.


(** ** How [open_position] ends *)

Lemma round_half_even_zero (q : Q) : q == 0 -> round_half_even q = 0%Z.
Proof.
  intros H. unfold round_half_even.
  assert (Hf : Qfloor q = 0%Z) by (rewrite H; reflexivity).
  rewrite Hf.
  assert (Hc : (q - inject_Z 0 ?= 1 # 2) = Lt).
  { rewrite H. reflexivity. }
  rewrite Hc. reflexivity.
Qed.

Lemma py_round_nonzero (x : Q) (n : Z) :
  Qeq_bool (py_round x n) 0 = false -> ~ x == 0.
Proof.
  intros H Hx. apply Qeq_bool_false in H. apply H.
  unfold py_round. rewrite Qred_correct.
  rewrite round_half_even_zero; [reflexivity |].
  rewrite Hx. ring.
Qed.

Section OpenOutcome.
Context {U : PyUnicode}.
Variables (symbol side : str) (position_size_usd : Q) (leverage : Z)
          (margin_type : str) (entry_price stop_loss take_profit : Q)
          (time_in_force : str).

(** A non-zero quantity comes from a non-zero margin and leverage. *)
Lemma calculate_quantity_nonzero (price : option Q) (w w' : World.t) (q : Q) :
  calculate_quantity symbol position_size_usd leverage price w
  = (Ok (Some q), w') ->
  Qeq_bool q 0 = false ->
  ~ position_size_usd == 0 /\ leverage <> 0%Z.
Proof.
  unfold calculate_quantity, try_except. intros H Hq.
  match type of H with
  | match ?m w with _ => _ end = _ => destruct (m w) as [[a | e] w1] eqn:E
  end; [| discriminate H].
  inversion H; subst a w1. clear H.
  apply bind_inv in E. destruct E as ([p |] & w1 & _ & E); [| discriminate E].
  destruct (Qeq_bool p 0); [discriminate E |].
  apply bind_inv in E. destruct E as ([info |] & w2 & _ & E); [| discriminate E].
  destruct (negb (truthy info)); [discriminate E |].
  apply bind_inv in E. destruct E as (prec & w3 & _ & E).
  unfold ret in E. inversion E; subst q. clear E.
  apply py_round_nonzero in Hq.
  split.
  - intros Hs. apply Hq. rewrite Hs. unfold Qdiv. ring.
  - intros Hl. apply Hq. rewrite Hl. unfold Qdiv. ring.
Qed.

Lemma calculate_quantity_total (price : option Q) :
  total (calculate_quantity symbol position_size_usd leverage price).
Proof. apply total_try. intros e. apply total_ret. Qed.

Lemma get_min_notional_total : total (get_min_notional symbol).
Proof. apply total_try. intros e. apply total_ret. Qed.

Lemma get_position_for_symbol_total (w : World.t) :
  exists o, get_position_for_symbol symbol w = (Ok o, after_request w position_query).
Proof.
  unfold get_position_for_symbol, bind. rewrite get_positions_answer.
  unfold ret. eauto.
Qed.

Lemma place_orders_outcome (quantity : Q) (w : World.t) :
  exists r w',
    place_orders symbol side quantity entry_price stop_loss take_profit
      time_in_force w = (Ok r, w') /\
    open_outcome r.
Proof.
  unfold place_orders.
  destruct (total_run w (place_limit_order_total symbol
              (if str_eqb side (cp "LONG") then cp "BUY" else cp "SELL")
              quantity entry_price time_in_force false)) as (e & w1 & He).
  rewrite (@bind_ok _ _ _ _ _ _ _ He).
  destruct (OrderResult.success e) eqn:Hs; cbn [negb].
  - destruct (total_run w1 (place_stop_loss_total symbol
                (if str_eqb side (cp "LONG") then cp "SELL" else cp "BUY")
                stop_loss (OrderResult.quantity e))) as (sl & w2 & Hsl).
    rewrite (@bind_ok _ _ _ _ _ _ _ Hsl).
    destruct (total_run w2 (place_take_profit_total symbol
                (if str_eqb side (cp "LONG") then cp "SELL" else cp "BUY")
                take_profit (OrderResult.quantity e))) as (tp & w3 & Htp).
    rewrite (@bind_ok _ _ _ _ _ _ _ Htp).
    eexists; eexists. split; [reflexivity |]. apply Opened, Hs.
  - eexists; eexists. split; [reflexivity |]. apply Entry_failed, Hs.
Qed.

Lemma prepare_and_place_outcome (w : World.t) :
  exists r w',
    prepare_and_place symbol side position_size_usd leverage margin_type
      entry_price stop_loss take_profit time_in_force w = (Ok r, w') /\
    open_outcome r.
Proof.
  unfold prepare_and_place.
  destruct (get_max_leverage_total symbol w) as [m Hm].
  rewrite (@bind_ok _ _ _ _ _ _ _ (set_leverage_run symbol leverage w Hm)).
  destruct (has_key "leverage" _); cbn [negb].
  2:{ eexists; eexists. split; [reflexivity |]. apply Refused. left. reflexivity. }
  match goal with
  | |- context [bind (set_margin_type symbol margin_type) ?k ?w0] =>
      change (bind (set_margin_type symbol margin_type) k w0)
        with (k true (after_request w0
                        (Request.mk "POST" "/fapi/v1/marginType"
                           [("symbol", PStr symbol);
                            ("marginType", PStr margin_type)] true)))
  end.
  cbv beta.
  match goal with
  | |- context [bind (calculate_quantity _ _ _ ?p) _ ?w0] =>
      destruct (total_run w0 (calculate_quantity_total p)) as (q & w3 & Hq)
  end.
  rewrite (@bind_ok _ _ _ _ _ _ _ Hq).
  destruct q as [q |].
  2:{ eexists; eexists. split; [reflexivity |]. apply Refused. right. left. reflexivity. }
  destruct (Qeq_bool q 0) eqn:Eq0.
  { eexists; eexists. split; [reflexivity |]. apply Refused. right. left. reflexivity. }
  destruct (@calculate_quantity_nonzero _ _ _ _ Hq Eq0) as [Hsize Hlev].
  destruct (total_run w3 get_min_notional_total) as (base & w4 & Hb).
  rewrite (@bind_ok _ _ _ _ _ _ _ Hb).
  destruct (Qle_bool (q * entry_price) (base + (1 # 10))).
  - apply Z.eqb_neq in Hlev. rewrite Hlev.
    destruct (Qeq_bool position_size_usd 0) eqn:Es.
    { exfalso. apply Hsize. apply Qeq_bool_iff, Es. }
    eexists; eexists. split; [reflexivity |]. apply Refused.
    right. right. eexists. right. right. reflexivity.
  - apply place_orders_outcome.
Qed.

(** X27. [open_position] always returns, and in one of the ways it was
    written to: refused before any order (position exists, leverage not
    set, no quantity, notional too small), entry order failed, or entry
    order placed with both protective orders attempted. Its exception
    handler is never reached: reported positions always carry their
    notional value, and a non-zero quantity rules out the divisions by a
    zero leverage or margin in the notional message. *)
Theorem open_position_ends_as_designed :
  forall w : World.t,
  exists (r : OpenResult.t) (w' : World.t),
    open_position symbol side position_size_usd leverage margin_type
      entry_price stop_loss take_profit time_in_force w = (Ok r, w') /\
    open_outcome r /\
    forall e : exn, OpenResult.message r <> Exn e.
Proof.
  intros w.
  assert (H : exists r w',
             open_position symbol side position_size_usd leverage margin_type
               entry_price stop_loss take_profit time_in_force w = (Ok r, w') /\
             open_outcome r).
  { unfold open_position, try_except. unfold bind at 1.
    destruct (get_position_for_symbol_total w) as [[pos |] Hp]; rewrite Hp.
    - apply get_position_for_symbol_live in Hp.
      destruct Hp as ((Hq & _ & Hn & _) & _).
      apply Qlt_bool_iff in Hq. rewrite Hq.
      destruct (PositionInfo.notional_value pos) as [n |]; [| congruence].
      destruct (negb (str_eqb (PositionInfo.margin_type pos) margin_type));
        cbn; (eexists; eexists; split; [reflexivity |]); apply Refused;
        right; right; eexists; [left | right; left]; reflexivity.
    - destruct (prepare_and_place_outcome (after_request w position_query))
        as (r & w' & Hr & Ho).
      rewrite Hr. eauto. }
  destruct H as (r & w' & Hr & Ho).
  exists r, w'. split; [exact Hr |]. split; [exact Ho |].
  intros e. destruct Ho as [m Hm | e0 _ | e0 sl tp _]; cbn; try discriminate.
  destruct Hm as [-> | [-> | [parts [-> | [-> | ->]]]]]; discriminate.
Qed.
End OpenOutcome.

(** ** The listener *)

Lemma last_items_length A (n : nat) (l : list A) :
  (length (last_items n l) <= n)%nat.
Proof. unfold last_items. rewrite length_skipn. lia. Qed.

Lemma last_items_incl A (n : nat) (l : list A) : incl (last_items n l) l.
Proof.
  unfold last_items. intros x Hx.
  rewrite <- (firstn_skipn (length l - n) l). apply in_or_app. right. exact Hx.
Qed.

Lemma last_items_NoDup A (n : nat) (l : list A) : NoDup l -> NoDup (last_items n l).
Proof.
  unfold last_items. intros H.
  rewrite <- (firstn_skipn (length l - n) l) in H.
  apply NoDup_app_remove_l in H. exact H.
Qed.

Lemma existsb_eqb_In (x : Z) (l : list Z) :
  existsb (Z.eqb x) l = true <-> In x l.
Proof.
  rewrite existsb_exists. split.
  - intros (y & Hy & E). apply Z.eqb_eq in E. subst. exact Hy.
  - intros H. exists x. split; [exact H | apply Z.eqb_refl].
Qed.

Section ListenerFacts.
Variable iteration_order : list Z -> list Z.
Hypothesis order_ok : forall s, Permutation (iteration_order s) s.
Variable on_message_callback : option (str -> option str -> nat -> M unit).

Lemma callback_run (message : Message.t) (s : list Z) (w : World.t) :
  match on_message_callback with
  | Some callback =>
      try_except
        (callback (text_of message) (sender_of message) (Message.date message))
        (fun _ => ret tt) ;;; ret s
  | None => ret s
  end w = (Ok s, handled on_message_callback message w).
Proof.
  unfold handled. destruct on_message_callback as [callback |]; [| reflexivity].
  unfold bind, try_except.
  destruct (callback _ _ _ w) as [[[] | e] w']; reflexivity.
Qed.

(** A run of [_process_message] on a message that is neither blank nor
    known. *)
Lemma process_fresh_message (s : list Z) (message : Message.t) (w : World.t) :
  strip (text_of message) <> [] ->
  ~ In (Message.id message) s ->
  _process_message iteration_order s on_message_callback message w
  = (Ok (let s1 := s ++ [Message.id message] in
         if (1000 <? length s1)%nat
         then last_items 500 (iteration_order s1) else s1),
     handled on_message_callback message w).
Proof.
  intros Ht Hid. unfold _process_message. fold (text_of message).
  destruct (strip (text_of message)) as [| c t]; [congruence |].
  destruct (existsb (Z.eqb (Message.id message)) s) eqn:E.
  { apply existsb_eqb_In in E. contradiction. }
  fold (sender_of message). cbv zeta.
  apply callback_run.
Qed.

(** X28. The listener handles a message at most once while it
    remembers it: a message whose text is empty or blank, or whose
    identifier is in the processed set, changes nothing and does not
    reach the callback. Any other message reaches the callback exactly
    once, with its text, sender and date, and whatever the callback
    raises is swallowed; while the set holds fewer than 1000
    identifiers the new one is added, so the same message delivered
    again is skipped. *)
Theorem listener_skips_blank_and_known_messages :
  forall (s : list Z) (message : Message.t) (w : World.t),
    (strip (text_of message) = [] \/ In (Message.id message) s ->
     _process_message iteration_order s on_message_callback message w
     = (Ok s, w)) /\
    (strip (text_of message) <> [] -> ~ In (Message.id message) s ->
     exists s' : list Z,
       _process_message iteration_order s on_message_callback message w
       = (Ok s', handled on_message_callback message w) /\
       ((length s < 1000)%nat ->
        s' = s ++ [Message.id message] /\
        forall w', _process_message iteration_order s' on_message_callback
                     message w' = (Ok s', w'))).
Proof.
  intros s message w. split.
  - intros H. unfold _process_message. fold (text_of message).
    destruct (strip (text_of message)) as [| c t] eqn:Et; [reflexivity |].
    destruct H as [H | H]; [discriminate H |].
    apply existsb_eqb_In in H. rewrite H. reflexivity.
  - intros Ht Hid. rewrite (@process_fresh_message s message w Ht Hid).
    eexists. split; [reflexivity |].
    intros Hlen. cbv zeta.
    assert (E : (1000 <? length (s ++ [Message.id message]))%nat = false).
    { apply Nat.ltb_ge. rewrite length_app. cbn. lia. }
    rewrite E. split; [reflexivity |].
    intros w'. unfold _process_message. fold (text_of message).
    destruct (strip (text_of message)) as [| c t]; [reflexivity |].
    assert (Hin : existsb (Z.eqb (Message.id message)) (s ++ [Message.id message])
                  = true).
    { apply existsb_eqb_In, in_or_app. right. left. reflexivity. }
    rewrite Hin. reflexivity.
Qed.

(** X29. The processed set stays bounded: from a duplicate-free set of
    at most 1000 identifiers, [_process_message] returns a duplicate-free
    set of at most 1000, made of identifiers it held and the new one.
    When the 1001st identifier arrives only 500 are kept; they are the
    last 500 in the set's iteration order, whichever those are. *)
Theorem listener_memory_stays_bounded :
  forall (s : list Z) (message : Message.t) (w : World.t),
    NoDup s -> (length s <= 1000)%nat ->
    exists (s' : list Z) (w' : World.t),
      _process_message iteration_order s on_message_callback message w
      = (Ok s', w') /\
      NoDup s' /\ (length s' <= 1000)%nat /\
      incl s' (Message.id message :: s) /\
      ((length s = 1000)%nat -> strip (text_of message) <> [] ->
       ~ In (Message.id message) s ->
       s' = last_items 500 (iteration_order (s ++ [Message.id message])) /\
       length s' = 500%nat).
Proof.
  intros s message w Hnd Hlen.
  destruct (list_eq_dec N.eq_dec (strip (text_of message)) []) as [Ht | Ht].
  { exists s, w. split.
    - unfold _process_message. fold (text_of message). rewrite Ht. reflexivity.
    - split; [exact Hnd |]. split; [exact Hlen |].
      split; [apply incl_tl, incl_refl | intros _ H; contradiction]. }
  destruct (in_dec Z.eq_dec (Message.id message) s) as [Hid | Hid].
  { exists s, w. split.
    - unfold _process_message. fold (text_of message).
      destruct (strip (text_of message)); [congruence |].
      apply existsb_eqb_In in Hid. rewrite Hid. reflexivity.
    - split; [exact Hnd |]. split; [exact Hlen |].
      split; [apply incl_tl, incl_refl | intros _ _ H; contradiction]. }
  rewrite (@process_fresh_message s message w Ht Hid). cbv zeta.
  set (s1 := s ++ [Message.id message]).
  assert (Hnd1 : NoDup s1).
  { unfold s1. apply NoDup_app; [exact Hnd | repeat constructor; intros [] | ].
    intros x Hx [<- | []]. contradiction. }
  assert (Hlen1 : length s1 = S (length s)).
  { unfold s1. rewrite length_app. cbn. lia. }
  assert (Hin1 : incl s1 (Message.id message :: s)).
  { unfold s1. intros x Hx. apply in_app_or in Hx.
    destruct Hx as [Hx | [<- | []]]; [right; exact Hx | left; reflexivity]. }
  pose proof (order_ok s1) as Hp.
  destruct (1000 <? length s1)%nat eqn:E.
  - eexists; eexists. split; [reflexivity |].
    split.
    { apply last_items_NoDup.
      apply (Permutation_NoDup (Permutation_sym Hp)), Hnd1. }
    split.
    { pose proof (last_items_length 500 (iteration_order s1)). lia. }
    split.
    { intros x Hx. apply Hin1. apply (Permutation_in _ Hp).
      apply (@last_items_incl _ 500 (iteration_order s1) x Hx). }
    intros _ _ _. split; [reflexivity |].
    unfold last_items. rewrite length_skipn.
    rewrite (Permutation_length Hp).
    apply Nat.ltb_lt in E. lia.
  - apply Nat.ltb_ge in E. eexists; eexists. split; [reflexivity |].
    split; [exact Hnd1 |]. split; [lia |]. split; [exact Hin1 |].
    intros H1000. lia.
Qed.
End ListenerFacts.

Lemma listener_skips_blank_and_known_messages_witness :
  let w := world_of (market "NEW") db_with_trade in
  _process_message (fun l => l) [5; 7]%Z failing_callback telegram_message w
  = (Ok [5; 7]%Z, w) /\
  exists s' : list Z,
    _process_message (fun l => l) [5]%Z failing_callback telegram_message w
    = (Ok s', w) /\
    s' = [5; 7]%Z.
Proof.
  intros w. split.
  - apply (proj1 (listener_skips_blank_and_known_messages (fun l => l)
                    failing_callback [5; 7]%Z telegram_message w)).
    right. simpl. auto.
  - destruct (proj2 (listener_skips_blank_and_known_messages (fun l => l)
                       failing_callback [5]%Z telegram_message w))
      as (s' & Hrun & Hs).
    + vm_compute. discriminate.
    + simpl. intros [H | []]. discriminate H.
    + exists s'. split; [exact Hrun |]. apply Hs. simpl. lia.
Defined.

Lemma listener_memory_stays_bounded_witness :
  let w := world_of (market "NEW") db_with_trade in
  exists (s' : list Z) (w' : World.t),
    _process_message (@rev Z) [5]%Z None telegram_message w = (Ok s', w') /\
    NoDup s' /\ (length s' <= 1000)%nat.
Proof.
  intros w.
  destruct (@listener_memory_stays_bounded (@rev Z)
              (fun s => Permutation_sym (Permutation_rev s)) None
              [5]%Z telegram_message w)
    as (s' & w' & Hrun & Hnd & Hlen & _).
  - repeat constructor. simpl. tauto.
  - simpl. lia.
  - exists s', w'. auto.
Defined.
